(** * baileys-api: connection lifecycle manager and webhook dispatcher

    A shallow embedding of [src/baileys/connection.ts] (class
    [BaileysConnection]) and [src/baileys/connectionsHandler.ts] (class
    [BaileysConnectionsHandler]).

    Conventions of the embedding.
    - JavaScript objects that are shared by reference (the connection
      objects held by the handler) live in a store [objects] and are named
      by a reference; the handler's [connections] record maps a phone
      number to such a reference.
    - A method is a state transformer over [World] that either returns or
      throws; whatever it wrote before throwing stays written.
    - The external collaborators (the Baileys socket, Redis, the QR
      renderer, audio transcoding, [fetch]) are not reimplemented: what
      they answer is read from an environment record [Env].
    - An [async] method is run to completion in one go, except for the
      handler's [connect], whose suspension at [await connection.connect()]
      is kept as an explicit two-phase split so that overlapping calls can
      be interleaved. *)

From Stdlib Require Import ZArith QArith Qround Lia Ascii String.
From stdpp Require Import base option list strings gmap fin_maps.

Local Open Scope string_scope.

(** ** Strings *)

Module Str.

(** [pat] is a prefix of [s]. *)
Fixpoint startsWith (s pat : string) {struct pat} : bool :=
  match pat with
  | EmptyString => true
  | String a pat' =>
      match s with
      | EmptyString => false
      | String b s' => if Ascii.eqb a b then startsWith s' pat' else false
      end
  end.

(** [endsWith s pat]: [pat] is a suffix of [s]. *)
Definition endsWith (s pat : string) : bool :=
  let n := String.length s in
  let k := String.length pat in
  if (k <=? n)%nat then String.eqb (String.substring (n - k) k s) pat
  else false.

(** [String.prototype.includes]: [pat] occurs somewhere in [s]. *)
Fixpoint includes (s pat : string) : bool :=
  startsWith s pat ||
  match s with
  | EmptyString => false
  | String _ s' => includes s' pat
  end.

(** [s.split(c)[0]]: the part of [s] before the first occurrence of the
    character [c] (all of [s] when [c] does not occur). *)
Fixpoint splitHead (c : Ascii.ascii) (s : string) : string :=
  match s with
  | EmptyString => EmptyString
  | String a s' => if Ascii.eqb a c then EmptyString else String a (splitHead c s')
  end.

(** JavaScript truthiness of a string. *)
Definition truthy (s : string) : bool :=
  match s with EmptyString => false | _ => true end.

End Str.

(** ** Values exchanged with the collaborators *)

Inductive WAPresence :=
  | unavailable | available | composing | recording | paused.

Inductive WAConnectionState := ConnOpen | ConnConnecting | ConnClose.

#[global] Instance WAPresence_eq_dec : EqDecision WAPresence.
Proof. solve_decision. Defined.
#[global] Instance WAConnectionState_eq_dec : EqDecision WAConnectionState.
Proof. solve_decision. Defined.

(** Exceptions.  [BaileysNotConnectedError] is the class of that name; the
    others are plain [Error]s (told apart by their message) and the
    [TypeError] the engine raises on a property read of [undefined]. *)
Inductive Error :=
  | BaileysNotConnectedError
  | JsError (message : string)
  | TypeError (message : string).

#[global] Instance Error_eq_dec : EqDecision Error.
Proof. solve_decision. Defined.

Definition instanceof_BaileysNotConnectedError (e : Error) : bool :=
  match e with BaileysNotConnectedError => true | _ => false end.

Inductive Result (A : Type) :=
  | Ok (a : A)
  | Throw (e : Error).
Arguments Ok {A} a.
Arguments Throw {A} e.

(** What the session can observe of a Baileys socket: [socket.user?.id]
    and [socket.authState.creds.me]. *)
Record Socket := {
  sock_handle : nat;
  sock_user_id : option string;
  sock_creds_me : bool;
}.

(** The [onConnectionClose] closures the handler installs. *)
#[local] Set Warnings "-register-all".
Inductive CloseCallback :=
  (** [connect]: delete the registry entry, then call the caller's own
      callback when there is one. *)
  | DeregisterThen (phoneNumber : string) (inner : option CloseCallback)
  (** [reconnectFromAuthStore]: delete the registry entry. *)
  | Deregister (id : string)
  (** A callback handed in from outside the handler. *)
  | External (tag : nat).

Record BaileysConnectionOptions := {
  opt_clientName : option string;
  opt_webhookUrl : string;
  opt_webhookVerifyToken : string;
  opt_isReconnect : option bool;
  opt_includeMedia : option bool;
  opt_syncFullHistory : option bool;
  opt_onConnectionClose : option CloseCallback;
}.

(** ** The connection object *)

Record BaileysConnection := {
  phoneNumber : string;
  clientName : string;
  webhookUrl : string;
  webhookVerifyToken : string;
  isReconnect : bool;
  includeMedia : bool;
  syncFullHistory : bool;
  onConnectionClose : option CloseCallback;
  socket : option Socket;
  (** [state.keys.clear] of the auth state loaded for this number. *)
  clearAuthState : option string;
  (** The pending [setTimeout] handle, if any. *)
  clearOnlinePresenceTimeout : option nat;
  reconnectCount : nat;
}.

(** [a || d] on an optional string: the empty string is falsy. *)
Definition or_default (a : option string) (d : string) : string :=
  match a with
  | Some s => if Str.truthy s then s else d
  | None => d
  end.

(** [a ?? d]. *)
Definition nullish (a : option bool) (d : bool) : bool :=
  match a with Some b => b | None => d end.

(** [!!a]. *)
Definition to_bool (a : option bool) : bool :=
  match a with Some b => b | None => false end.

Module Session.

Definition new (phone : string) (options : BaileysConnectionOptions)
  : BaileysConnection :=
  {| phoneNumber := phone;
     clientName := or_default (opt_clientName options) "Chrome";
     webhookUrl := opt_webhookUrl options;
     webhookVerifyToken := opt_webhookVerifyToken options;
     isReconnect := to_bool (opt_isReconnect options);
     includeMedia := nullish (opt_includeMedia options) true;
     syncFullHistory := nullish (opt_syncFullHistory options) false;
     onConnectionClose := opt_onConnectionClose options;
     socket := None;
     clearAuthState := None;
     clearOnlinePresenceTimeout := None;
     reconnectCount := 0 |}.

Definition updateOptions (options : BaileysConnectionOptions)
  (this : BaileysConnection) : BaileysConnection :=
  {| phoneNumber := phoneNumber this;
     clientName := or_default (opt_clientName options) "Chrome";
     webhookUrl := opt_webhookUrl options;
     webhookVerifyToken := opt_webhookVerifyToken options;
     isReconnect := isReconnect this;
     includeMedia := nullish (opt_includeMedia options) true;
     syncFullHistory := nullish (opt_syncFullHistory options) false;
     onConnectionClose := onConnectionClose this;
     socket := socket this;
     clearAuthState := clearAuthState this;
     clearOnlinePresenceTimeout := clearOnlinePresenceTimeout this;
     reconnectCount := reconnectCount this |}.

(** Field writes. *)
Definition set_socket (v : option Socket) (this : BaileysConnection) :=
  {| phoneNumber := phoneNumber this; clientName := clientName this;
     webhookUrl := webhookUrl this;
     webhookVerifyToken := webhookVerifyToken this;
     isReconnect := isReconnect this; includeMedia := includeMedia this;
     syncFullHistory := syncFullHistory this;
     onConnectionClose := onConnectionClose this;
     socket := v;
     clearAuthState := clearAuthState this;
     clearOnlinePresenceTimeout := clearOnlinePresenceTimeout this;
     reconnectCount := reconnectCount this |}.

Definition set_clearAuthState (v : option string) (this : BaileysConnection) :=
  {| phoneNumber := phoneNumber this; clientName := clientName this;
     webhookUrl := webhookUrl this;
     webhookVerifyToken := webhookVerifyToken this;
     isReconnect := isReconnect this; includeMedia := includeMedia this;
     syncFullHistory := syncFullHistory this;
     onConnectionClose := onConnectionClose this;
     socket := socket this;
     clearAuthState := v;
     clearOnlinePresenceTimeout := clearOnlinePresenceTimeout this;
     reconnectCount := reconnectCount this |}.

Definition set_clearOnlinePresenceTimeout (v : option nat)
  (this : BaileysConnection) :=
  {| phoneNumber := phoneNumber this; clientName := clientName this;
     webhookUrl := webhookUrl this;
     webhookVerifyToken := webhookVerifyToken this;
     isReconnect := isReconnect this; includeMedia := includeMedia this;
     syncFullHistory := syncFullHistory this;
     onConnectionClose := onConnectionClose this;
     socket := socket this;
     clearAuthState := clearAuthState this;
     clearOnlinePresenceTimeout := v;
     reconnectCount := reconnectCount this |}.

Definition set_reconnectCount (v : nat) (this : BaileysConnection) :=
  {| phoneNumber := phoneNumber this; clientName := clientName this;
     webhookUrl := webhookUrl this;
     webhookVerifyToken := webhookVerifyToken this;
     isReconnect := isReconnect this; includeMedia := includeMedia this;
     syncFullHistory := syncFullHistory this;
     onConnectionClose := onConnectionClose this;
     socket := socket this;
     clearAuthState := clearAuthState this;
     clearOnlinePresenceTimeout := clearOnlinePresenceTimeout this;
     reconnectCount := v |}.

Definition set_isReconnect (v : bool) (this : BaileysConnection) :=
  {| phoneNumber := phoneNumber this; clientName := clientName this;
     webhookUrl := webhookUrl this;
     webhookVerifyToken := webhookVerifyToken this;
     isReconnect := v; includeMedia := includeMedia this;
     syncFullHistory := syncFullHistory this;
     onConnectionClose := onConnectionClose this;
     socket := socket this;
     clearAuthState := clearAuthState this;
     clearOnlinePresenceTimeout := clearOnlinePresenceTimeout this;
     reconnectCount := reconnectCount this |}.

End Session.

(** ** The webhook dispatcher ([sendToWebhook], [sendPayloadToWebhook]) *)

Module Webhook.

(** [config.webhook.retryPolicy]; the configuration module itself is not
    part of the embedded sources, so the three numbers are parameters.
    [maxRetries] is a count; delays are whole milliseconds. *)
Record RetryPolicy := {
  maxRetries : nat;
  retryInterval : Z;
  backoffFactor : Z;
}.

(** The part of a [fetch] [Response] the dispatcher reads. *)
Record Response := {
  ok : bool;
  status : Z;
}.

(** What [sendPayloadToWebhook] resolves to: [{ response }] or
    [{ error }]. *)
Record SendResult := {
  response : option Response;
  error : option Error;
}.

(** What the dispatcher does, in order. *)
Inductive Action :=
  | Post (attempt : nat)
  | LogSuccess
  | LogErrorResponse (status : Z)
  | LogErrorSend (e : Error)
  | LogRetrying (attempt : nat) (delay : Z)
  | Sleep (ms : Z)
  | LogFailed.

Section Dispatcher.

Variable policy : RetryPolicy.
(** [fetch k]: what the [k]-th POST of this delivery does (numbered from
    0): it resolves with a response or rejects. *)
Variable fetch : nat -> Result Response.
(** [random k]: the [k]-th value of [Math.random()]. *)
Variable random : nat -> Q.

Definition sendPayloadToWebhook (k : nat) : SendResult :=
  match fetch k with
  | Ok r => {| response := Some r; error := None |}
  | Throw e => {| response := None; error := Some e |}
  end.

(** [Math.floor(Math.random() * 1000)]. *)
Definition jitter (k : nat) : Z := Qfloor (random k * 1000).

(** The log lines written after an attempt that did not return. *)
Definition failure_logs (r : SendResult) : list Action :=
  match response r with
  | Some resp => [LogErrorResponse (status resp)]
  | None => []
  end ++
  match error r with
  | Some e => [LogErrorSend e]
  | None => []
  end.

(** The [while (attempt <= maxRetries)] loop, entered with the current
    values of [attempt] and [delay].  [None] means the fuel ran out. *)
Fixpoint sendLoop (fuel attempt : nat) (delay : Z)
  : option (Result (option Response)) * list Action :=
  match fuel with
  | O => (None, [])
  | S fuel' =>
      if (attempt <=? maxRetries policy)%nat then
        let r := sendPayloadToWebhook attempt in
        match response r with
        | Some {| ok := true; status := st |} =>
            (Some (Ok (Some {| ok := true; status := st |})),
             [Post attempt; LogSuccess])
        | _ =>
            let attempt' := S attempt in
            if (attempt' <=? maxRetries policy)%nat then
              let '(res, tr) :=
                sendLoop fuel' attempt' (delay * backoffFactor policy) in
              (res, Post attempt :: failure_logs r ++
                      LogRetrying attempt' delay ::
                      Sleep (delay + jitter attempt) :: tr)
            else
              let '(res, tr) := sendLoop fuel' attempt' delay in
              (res, Post attempt :: failure_logs r ++ tr)
        end
      else (Some (Ok None), [LogFailed])
  end.

(** [sendToWebhook]: [attempt = 0], [delay = retryInterval]. *)
Definition sendToWebhook : option (Result (option Response)) * list Action :=
  sendLoop (S (S (maxRetries policy))) 0 (retryInterval policy).

(** The POSTs and sleeps of a trace, in order. *)
Definition is_io (a : Action) : bool :=
  match a with Post _ | Sleep _ => true | _ => false end.

Definition io (tr : list Action) : list Action := List.filter is_io tr.

Definition is_post (a : Action) : bool :=
  match a with Post _ => true | _ => false end.

Definition posts (tr : list Action) : nat :=
  length (List.filter is_post tr).

(** A 2xx answer. *)
Definition is_2xx (k : nat) : bool :=
  match fetch k with Ok r => ok r | Throw _ => false end.

(** The first attempt among [a, a+1, ..., a+n-1] answered with 2xx. *)
Fixpoint firstOk (a n : nat) : option nat :=
  match n with
  | O => None
  | S n' => if is_2xx a then Some a else firstOk (S a) n'
  end.

(** The pause the retry policy prescribes after failed attempt [k]. *)
Definition pause (k : nat) : Z :=
  retryInterval policy * backoffFactor policy ^ Z.of_nat k + jitter k.

(** Attempt [a], then for each [k] in [a ..< last]: pause, attempt [k+1]. *)
Definition schedule (a last : nat) : list Action :=
  Post a :: flat_map (fun k => [Sleep (pause k); Post (S k)]) (seq a (last - a)).

(** The last attempt made when the loop is entered at attempt [a]: the
    first one answered with 2xx, or attempt [maxRetries]. *)
Definition lastAttempt (a : nat) : nat :=
  default (maxRetries policy) (firstOk a (S (maxRetries policy) - a)).

End Dispatcher.

End Webhook.

(** ** Events, payloads and transport calls *)

(** A property of a JavaScript object: missing, present with value
    [undefined], or present with a value. *)
Inductive Field (A : Type) :=
  | Absent
  | Undefined
  | Value (a : A).
Arguments Absent {A}.
Arguments Undefined {A}.
Arguments Value {A} a.

(** [error.output] of a Boom error. *)
Record BoomOutput := {
  statusCode : Z;
  payload_message : option string;
}.

(** [lastDisconnect.error]: a Boom error, or a plain [Error] (then
    [output] is missing). *)
Record DisconnectError := {
  output : option BoomOutput;
  err_message : string;
}.

Record LastDisconnect := {
  ld_error : option DisconnectError;
}.

(** [Partial<ConnectionState>] as emitted on [connection.update]. *)
Record ConnectionUpdate := {
  connection : option WAConnectionState;
  qr : Field string;
  lastDisconnect : option LastDisconnect;
  isNewLogin : option bool;
  isOnline : option bool;
}.

(** [DisconnectReason.loggedOut]. *)
Definition loggedOut : Z := 401.

Record WAMessage := {
  remoteJid : option string;
  content : string;
}.

(** The [data] (and [extra]) of an outbound webhook payload. *)
Inductive WebhookData :=
  (** the update as received, then [connection] and [qrDataUrl] as
      assigned over it *)
  | ConnectionData (data : ConnectionUpdate)
      (shaped : option WAConnectionState) (qrDataUrl : option string)
  | Reconnecting
  | WrongPhoneNumber
  | MessagesUpsert (messages : list WAMessage) (media : option string)
      (groupNames : list (string * string))
  | Raw (data : string).

Record WebhookCall := {
  wc_phoneNumber : string;
  wc_event : string;
  wc_data : WebhookData;
  wc_awaitResponse : option bool;
}.

Inductive AudioFormat := OggLow | Mp3High | Wav.

Record AnyMessageContent := {
  audio : option string;
  ptt : bool;
  mimetype : option string;
  body : string;
}.

(** Operations invoked on the Baileys socket. *)
Inductive TransportCall :=
  | TSendMessage (jid : string) (messageContent : AnyMessageContent)
      (waveformProxy : option string)
  | TSendPresenceUpdate (type : WAPresence) (toJid : option string)
  | TReadMessages (keys : string)
  | TChatModify (mod_ : string) (jid : string)
  | TFetchMessageHistory (count : Z) (oldestMsgKey : string)
      (oldestMsgTimestamp : Z)
  | TSendReceipts (keys : string) (type : string)
  | TProfilePictureUrl (jid : string) (type : option string)
  | TOnWhatsApp (jids : list string)
  | TGroupMetadata (jid : string)
  | TLogout
  | TRemoveAllListeners (event : string).

Definition is_send (c : TransportCall) : bool :=
  match c with TSendMessage _ _ _ => true | _ => false end.

Inductive LogEntry :=
  | LogError (phoneNumber : string) (tag : string) (e : Error)
  | LogDebug (phoneNumber : string) (tag : string)
  | LogWarn (phoneNumber : string) (tag : string).

(** ** The environment: what the collaborators answer *)

(** A collaborator answers or fails.  Its failures are errors of its own
    making (Boom errors, system errors): never an instance of
    [BaileysNotConnectedError], which only this code base constructs. *)
Inductive Outcome (A : Type) :=
  | Resolved (a : A)
  | Rejected (message : string).
Arguments Resolved {A} a.
Arguments Rejected {A} message.

Record Env := {
  (** [makeWASocket(...)], by the number of sockets made before. *)
  makeWASocket : nat -> Outcome Socket;
  (** A socket operation, by the number of operations invoked before. *)
  transport : nat -> TransportCall -> Outcome string;
  (** [saveCreds()] for a phone number: the message of the error it
      rejects with. *)
  saveCreds_error : string -> option string;
  normalizeBrazilPhoneNumber : string -> string;
  toDataURL : string -> Outcome string;
  errorToString : Error -> string;
  preprocessAudio : string -> AudioFormat -> Outcome string;
  downloadMediaFromMessages : list WAMessage -> bool -> Outcome (option string);
  (** [config.baileys.listenToEvents.has(event)]. *)
  listenToEvents : string -> bool;
}.

(** ** The world *)

Record World := {
  (** [BaileysConnectionsHandler.connections] *)
  connections : gmap string nat;
  (** the [BaileysConnection] objects allocated so far *)
  objects : gmap nat BaileysConnection;
  nextObject : nat;
  (** Modelled from the spec: the Credential Store ([useRedisAuthState] is
      not among the embedded sources).  It maps an identity to its saved
      authentication material; [load] reads it and hands out the [clear]
      and [save] operations for that identity, [save] writes it, [clear]
      removes it. *)
  authStore : gmap string string;
  socketsMade : nat;
  transportCalls : list (nat * TransportCall);
  (** pending [setTimeout] tasks: handle, and the [toJid] to reset *)
  timers : gmap nat (option string);
  nextTimer : nat;
  (** [sendToWebhook] invocations, oldest first *)
  webhooks : list WebhookCall;
  (** invocations of callbacks given by the handler's callers *)
  callbacks : list nat;
  logs : list LogEntry;
}.

Definition set_connections (f : gmap string nat -> gmap string nat) (w : World) :=
  {| connections := f (connections w); objects := objects w;
     nextObject := nextObject w; authStore := authStore w;
     socketsMade := socketsMade w; transportCalls := transportCalls w;
     timers := timers w; nextTimer := nextTimer w; webhooks := webhooks w;
     callbacks := callbacks w; logs := logs w |}.

Definition set_objects (f : gmap nat BaileysConnection -> gmap nat BaileysConnection)
  (w : World) :=
  {| connections := connections w; objects := f (objects w);
     nextObject := nextObject w; authStore := authStore w;
     socketsMade := socketsMade w; transportCalls := transportCalls w;
     timers := timers w; nextTimer := nextTimer w; webhooks := webhooks w;
     callbacks := callbacks w; logs := logs w |}.

Definition set_nextObject (v : nat) (w : World) :=
  {| connections := connections w; objects := objects w;
     nextObject := v; authStore := authStore w;
     socketsMade := socketsMade w; transportCalls := transportCalls w;
     timers := timers w; nextTimer := nextTimer w; webhooks := webhooks w;
     callbacks := callbacks w; logs := logs w |}.

Definition set_authStore (f : gmap string string -> gmap string string) (w : World) :=
  {| connections := connections w; objects := objects w;
     nextObject := nextObject w; authStore := f (authStore w);
     socketsMade := socketsMade w; transportCalls := transportCalls w;
     timers := timers w; nextTimer := nextTimer w; webhooks := webhooks w;
     callbacks := callbacks w; logs := logs w |}.

Definition set_socketsMade (v : nat) (w : World) :=
  {| connections := connections w; objects := objects w;
     nextObject := nextObject w; authStore := authStore w;
     socketsMade := v; transportCalls := transportCalls w;
     timers := timers w; nextTimer := nextTimer w; webhooks := webhooks w;
     callbacks := callbacks w; logs := logs w |}.

Definition set_transportCalls (v : list (nat * TransportCall)) (w : World) :=
  {| connections := connections w; objects := objects w;
     nextObject := nextObject w; authStore := authStore w;
     socketsMade := socketsMade w; transportCalls := v;
     timers := timers w; nextTimer := nextTimer w; webhooks := webhooks w;
     callbacks := callbacks w; logs := logs w |}.

Definition set_timers (f : gmap nat (option string) -> gmap nat (option string))
  (w : World) :=
  {| connections := connections w; objects := objects w;
     nextObject := nextObject w; authStore := authStore w;
     socketsMade := socketsMade w; transportCalls := transportCalls w;
     timers := f (timers w); nextTimer := nextTimer w; webhooks := webhooks w;
     callbacks := callbacks w; logs := logs w |}.

Definition set_nextTimer (v : nat) (w : World) :=
  {| connections := connections w; objects := objects w;
     nextObject := nextObject w; authStore := authStore w;
     socketsMade := socketsMade w; transportCalls := transportCalls w;
     timers := timers w; nextTimer := v; webhooks := webhooks w;
     callbacks := callbacks w; logs := logs w |}.

Definition set_webhooks (v : list WebhookCall) (w : World) :=
  {| connections := connections w; objects := objects w;
     nextObject := nextObject w; authStore := authStore w;
     socketsMade := socketsMade w; transportCalls := transportCalls w;
     timers := timers w; nextTimer := nextTimer w; webhooks := v;
     callbacks := callbacks w; logs := logs w |}.

Definition set_callbacks (v : list nat) (w : World) :=
  {| connections := connections w; objects := objects w;
     nextObject := nextObject w; authStore := authStore w;
     socketsMade := socketsMade w; transportCalls := transportCalls w;
     timers := timers w; nextTimer := nextTimer w; webhooks := webhooks w;
     callbacks := v; logs := logs w |}.

Definition set_logs (v : list LogEntry) (w : World) :=
  {| connections := connections w; objects := objects w;
     nextObject := nextObject w; authStore := authStore w;
     socketsMade := socketsMade w; transportCalls := transportCalls w;
     timers := timers w; nextTimer := nextTimer w; webhooks := webhooks w;
     callbacks := callbacks w; logs := v |}.

Definition emptyWorld : World :=
  {| connections := ∅; objects := ∅; nextObject := 0; authStore := ∅;
     socketsMade := 0; transportCalls := []; timers := ∅; nextTimer := 0;
     webhooks := []; callbacks := []; logs := [] |}.

(** ** Methods as state transformers that may throw *)

Definition M (S A : Type) : Type := S -> Result A * S.

Definition ret {S A} (a : A) : M S A := fun s => (Ok a, s).

Definition throw {S A} (e : Error) : M S A := fun s => (Throw e, s).

Definition bind {S A B} (m : M S A) (k : A -> M S B) : M S B :=
  fun s =>
    match m s with
    | (Ok a, s') => k a s'
    | (Throw e, s') => (Throw e, s')
    end.

(** [try { m } catch (e) { h e }] *)
Definition try_catch {S A} (m : M S A) (h : Error -> M S A) : M S A :=
  fun s =>
    match m s with
    | (Ok a, s') => (Ok a, s')
    | (Throw e, s') => h e s'
    end.

Definition get {S} : M S S := fun s => (Ok s, s).

Definition modify {S} (f : S -> S) : M S unit := fun s => (Ok tt, f s).

Notation "'let*' x ':=' m 'in' k" := (bind m (fun x => k))
  (at level 10, x binder, k at level 200).
Notation "'do' m 'then' k" := (bind m (fun _ => k))
  (at level 10, m at level 200, k at level 200).

(** ** [BaileysConnection]: the methods that act on the world *)

Module Connection.

(** A method runs on its own object ([this]) and the world. *)
Definition St : Type := BaileysConnection * World.

Definition this : M St BaileysConnection := fun st => (Ok (fst st), st).

Definition setThis (f : BaileysConnection -> BaileysConnection) : M St unit :=
  modify (fun st : St => (f (fst st), snd st)).

Definition getWorld : M St World := fun st => (Ok (snd st), st).

Definition world (f : World -> World) : M St unit :=
  modify (fun st : St => (fst st, f (snd st))).

Definition log (e : LogEntry) : M St unit :=
  world (fun w => set_logs (logs w ++ [e]) w).

Definition lift {A} (r : Outcome A) : M St A :=
  match r with
  | Resolved a => ret a
  | Rejected message => throw (JsError message)
  end.

(** Calling a close callback. *)
Fixpoint runCloseCallback (cb : CloseCallback) (w : World) : World :=
  match cb with
  | DeregisterThen phone inner =>
      let w1 := set_connections (delete phone) w in
      match inner with
      | Some cb' => runCloseCallback cb' w1
      | None => w1
      end
  | Deregister id => set_connections (delete id) w
  | External tag => set_callbacks (callbacks w ++ [tag]) w
  end.

(** [this.onConnectionClose?.()] *)
Definition callOnConnectionClose : M St unit :=
  let* s := this in
  match onConnectionClose s with
  | Some cb => world (runCloseCallback cb)
  | None => ret tt
  end.

(** [this.sendToWebhook(payload, options)], as seen by the handlers: they
    never await it, so it only starts a delivery (the delivery itself is
    [Webhook.sendToWebhook]). *)
Definition sendToWebhook (event : string) (data : WebhookData)
  (awaitResponse : option bool) : M St unit :=
  let* s := this in
  world (fun w =>
    set_webhooks (webhooks w ++
      [{| wc_phoneNumber := phoneNumber s; wc_event := event;
          wc_data := data; wc_awaitResponse := awaitResponse |}]) w).

Definition withErrorHandling (handlerName : string) (handler : M St unit)
  : M St unit :=
  try_catch handler
    (fun e => let* s := this in log (LogError (phoneNumber s) handlerName e)).

Definition safeSocket : M St Socket :=
  let* s := this in
  match socket s with
  | Some sock => ret sock
  | None => throw BaileysNotConnectedError
  end.

Definition close : M St unit :=
  let* s := this in
  do match clearAuthState s with
     | Some id => world (set_authStore (delete id))
     | None => ret tt
     end then
  do setThis (Session.set_clearAuthState None) then
  do setThis (Session.set_socket None) then
  do setThis (Session.set_reconnectCount 0) then
  callOnConnectionClose.

Section Methods.

Variable env : Env.

(** A call on the socket: recorded, then answered by the environment. *)
Definition invoke (sock : Socket) (c : TransportCall) : M St string :=
  let* w := getWorld in
  do world (set_transportCalls (transportCalls w ++ [(sock_handle sock, c)])) then
  lift (transport env (length (transportCalls w)) c).

(** [connect]; [addEventListeners] installs the listeners given by
    [listener] below. *)
Definition connect : M St unit :=
  let* s := this in
  match socket s with
  | Some _ => ret tt
  | None =>
      do setThis (Session.set_clearAuthState (Some (phoneNumber s))) then
      let* w := getWorld in
      do world (set_socketsMade (S (socketsMade w))) then
      try_catch
        (let* sock := lift (makeWASocket env (socketsMade w)) in
         setThis (Session.set_socket (Some sock)))
        (fun e =>
           do log (LogError (phoneNumber s) "BaileysConnection.connect" e) then
           callOnConnectionClose)
  end.

Definition logout : M St unit :=
  do try_catch
       (let* sock := safeSocket in
        let* _ := invoke sock TLogout in
        ret tt)
       (fun e => let* s := this in log (LogError (phoneNumber s) "LOGOUT" e)) then
  close.

Definition invalidJid (jid : string) : Error :=
  JsError ("Invalid JID format: " ++ jid ++
           ". JID should end with either @g.us (for groups) or @s.whatsapp.net (for individual chats), not both.").

Definition notReady : Error :=
  JsError "Connection not ready. Please wait for the connection to be fully established before sending messages.".

Definition closedOrNotReady : Error :=
  JsError "Connection is closed or not ready. Please ensure the WhatsApp connection is active and try again.".

Definition truthy_opt (o : option string) : bool :=
  match o with Some s => Str.truthy s | None => false end.

(** The audio block of [sendMessage]: the content to send and the
    waveform proxy. *)
Definition prepareAudio (messageContent : AnyMessageContent)
  : M St (AnyMessageContent * option string) :=
  try_catch
    (match audio messageContent with
     | Some originalAudio =>
         let* a := lift (preprocessAudio env originalAudio
                           (if ptt messageContent then OggLow else Mp3High)) in
         let* wv := if ptt messageContent
                    then (let* x := lift (preprocessAudio env originalAudio Wav) in
                          ret (Some x))
                    else ret None in
         ret ({| audio := Some a; ptt := ptt messageContent;
                 mimetype := Some (if ptt messageContent
                                   then "audio/ogg; codecs=opus"
                                   else "audio/mpeg");
                 body := body messageContent |}, wv)
     | None => ret (messageContent, None)
     end)
    (fun e =>
       let* s := this in
       do log (LogError (phoneNumber s) "sendMessage" e) then
       ret (messageContent, None)).

Definition sendMessage (jid : string) (messageContent : AnyMessageContent)
  : M St string :=
  let* sock := safeSocket in
  if Str.includes jid "@g.us@s.whatsapp.net" ||
     Str.includes jid "@s.whatsapp.net@g.us"
  then throw (invalidJid jid)
  else if negb (truthy_opt (sock_user_id sock)) then throw notReady
  else
    let* prepared := prepareAudio messageContent in
    try_catch
      (invoke sock (TSendMessage jid (fst prepared) (snd prepared)))
      (fun e =>
         let errorMessage := errorToString env e in
         if Str.includes errorMessage "Connection Closed" ||
            Str.includes errorMessage "428"
         then throw closedOrNotReady
         else throw e).

Definition sendPresenceUpdate (type : WAPresence) (toJid : option string)
  : M St unit :=
  let* sock := safeSocket in
  if negb (sock_creds_me sock) then ret tt
  else
    let* sock := safeSocket in
    let* _ := invoke sock (TSendPresenceUpdate type toJid) in
    let* s := this in
    do match clearOnlinePresenceTimeout s with
       | Some h =>
           if bool_decide (type = unavailable) || bool_decide (type = available)
           then do world (set_timers (delete h)) then
                setThis (Session.set_clearOnlinePresenceTimeout None)
           else ret tt
       | None => ret tt
       end then
    if bool_decide (type = available) then
      let* w := getWorld in
      do world (fun w' => set_nextTimer (S (nextTimer w))
                            (set_timers (<[nextTimer w := toJid]>) w')) then
      setThis (Session.set_clearOnlinePresenceTimeout (Some (nextTimer w)))
    else ret tt.

Definition readMessages (keys : string) : M St string :=
  let* sock := safeSocket in invoke sock (TReadMessages keys).

Definition chatModify (mod_ jid : string) : M St string :=
  let* sock := safeSocket in invoke sock (TChatModify mod_ jid).

Definition fetchMessageHistory (count : Z) (oldestMsgKey : string)
  (oldestMsgTimestamp : Z) : M St string :=
  let* sock := safeSocket in
  invoke sock (TFetchMessageHistory count oldestMsgKey oldestMsgTimestamp).

Definition sendReceipts (keys type : string) : M St string :=
  let* sock := safeSocket in invoke sock (TSendReceipts keys type).

Definition profilePictureUrl (jid : string) (type : option string)
  : M St string :=
  let* sock := safeSocket in invoke sock (TProfilePictureUrl jid type).

Definition onWhatsApp (jids : list string) : M St string :=
  let* sock := safeSocket in invoke sock (TOnWhatsApp jids).

(** *** Inbound events *)

Definition handleReconnecting : M St unit :=
  let* s := this in
  do setThis (Session.set_reconnectCount (reconnectCount s + 1)) then
  if (10 <? reconnectCount s + 1)%nat then
    do log (LogWarn (phoneNumber s) "handleReconnecting") then
    close
  else sendToWebhook "connection.update" Reconnecting None.

Definition handleWrongPhoneNumber : M St unit :=
  do sendToWebhook "connection.update" WrongPhoneNumber None then
  let* s := this in
  do match socket s with
     | Some sock =>
         let* w := getWorld in
         world (set_transportCalls
                  (transportCalls w ++
                   [(sock_handle sock, TRemoveAllListeners "connection.update")]))
     | None => ret tt
     end then
  logout.

(** ["qr" in data && !qr] *)
Definition qr_present_but_empty (data : ConnectionUpdate) : bool :=
  match qr data with
  | Absent => false
  | Undefined => true
  | Value q => negb (Str.truthy q)
  end.

(** [qr] when it is truthy. *)
Definition qr_code (data : ConnectionUpdate) : option string :=
  match qr data with
  | Value q => if Str.truthy q then Some q else None
  | _ => None
  end.

Definition isReconnecting (s : BaileysConnection) (data : ConnectionUpdate)
  : bool :=
  to_bool (isNewLogin data) ||
  (bool_decide (connection data = Some ConnConnecting) &&
   (qr_present_but_empty data || isReconnect s)).

(** [error?.output?.payload?.message || error.message], for a defined
    [error]. *)
Definition disconnectMessage (error : DisconnectError) : string :=
  match output error ≫= payload_message with
  | Some m => if Str.truthy m then m else err_message error
  | None => err_message error
  end.

Definition shouldReconnect (error : DisconnectError) : bool :=
  negb (bool_decide (statusCode <$> output error = Some loggedOut)) &&
  negb (String.eqb (disconnectMessage error) "QR refs attempts ended").

(** [`+${id.split("@")[0].split(":")[0]}`] *)
Definition phoneNumberFromId (id : string) : string :=
  "+" ++ Str.splitHead ":"%char (Str.splitHead "@"%char id).

(** The identity test of the [connection === "open"] block: [true] when
    the socket reports a user whose number differs from this one's. *)
Definition wrongPhoneNumber (s : BaileysConnection) (data : ConnectionUpdate)
  : bool :=
  bool_decide (connection data = Some ConnOpen) &&
  match socket s ≫= sock_user_id with
  | Some id =>
      Str.truthy id &&
      negb (String.eqb (normalizeBrazilPhoneNumber env (phoneNumberFromId id))
              (normalizeBrazilPhoneNumber env (phoneNumber s)))
  | None => false
  end.

(** [data.connection] after the two [Object.assign]s. *)
Definition shapedConnection (data : ConnectionUpdate) : option WAConnectionState :=
  if to_bool (isOnline data) then Some ConnOpen
  else match qr_code data with
       | Some _ => Some ConnConnecting
       | None => connection data
       end.

(** The [connection === "close"] block.  It yields [true] when the handler
    returns from inside it. *)
Definition handleClose (data : ConnectionUpdate) : M St bool :=
  if bool_decide (connection data = Some ConnClose) then
    match lastDisconnect data ≫= ld_error with
    | None => throw (TypeError "undefined is not an object (evaluating 'error.message')")
    | Some error =>
        if shouldReconnect error then
          do handleReconnecting then
          do setThis (Session.set_socket None) then
          do connect then
          ret true
        else
          do close then
          ret false
    end
  else ret false.

(** From the [connection === "open"] block to the end of the handler. *)
Definition forwardUpdate (data : ConnectionUpdate) : M St unit :=
  let* s := this in
  if wrongPhoneNumber s data then handleWrongPhoneNumber
  else
    let* qrDataUrl :=
      match qr_code data with
      | Some q => let* url := lift (toDataURL env q) in ret (Some url)
      | None => ret None
      end in
    do (if bool_decide (shapedConnection data = Some ConnOpen)
        then setThis (Session.set_reconnectCount 0)
        else ret tt) then
    sendToWebhook "connection.update"
      (ConnectionData data (shapedConnection data) qrDataUrl) None.

Definition handleConnectionUpdate (data : ConnectionUpdate) : M St unit :=
  let* s := this in
  if isReconnecting s data then
    do setThis (Session.set_isReconnect false) then
    handleReconnecting
  else
    let* returned := handleClose data in
    if returned : bool then ret tt
    else forwardUpdate data.

(** [isJidGroup] of Baileys. *)
Definition isJidGroup (jid : string) : bool := Str.endsWith jid "@g.us".

(** Insertion into a [Set], kept in insertion order. *)
Definition set_add (x : string) (l : list string) : list string :=
  if bool_decide (x ∈ l) then l else (l ++ [x])%list.

Definition collectGroupJids (messages : list WAMessage) : list string :=
  foldl (fun acc m =>
           match remoteJid m with
           | Some j => if Str.truthy j && isJidGroup j then set_add j acc else acc
           | None => acc
           end) [] messages.

(** The [for (const groupJid of groupJids)] loop. *)
Fixpoint fetchGroupNames (sock : Socket) (groupJids : list string)
  (groupNames : list (string * string)) : M St (list (string * string)) :=
  match groupJids with
  | [] => ret groupNames
  | groupJid :: rest =>
      let* names :=
        try_catch
          (let* subject := invoke sock (TGroupMetadata groupJid) in
           ret (if Str.truthy subject
                then (groupNames ++ [(groupJid, subject)])%list
                else groupNames))
          (fun e =>
             let* s := this in
             do log (LogDebug (phoneNumber s) "handleMessagesUpsert") then
             ret groupNames) in
      fetchGroupNames sock rest names
  end.

Definition handleMessagesUpsert (messages : list WAMessage) : M St unit :=
  let* s := this in
  let* media := lift (downloadMediaFromMessages env messages (includeMedia s)) in
  let groupJids := collectGroupJids messages in
  let* s := this in
  let* groupNames :=
    match groupJids, socket s with
    | _ :: _, Some sock => fetchGroupNames sock groupJids []
    | _, _ => ret []
    end in
  sendToWebhook "messages.upsert" (MessagesUpsert messages media groupNames) None.

Definition handleMessagesUpdate (data : string) : M St unit :=
  sendToWebhook "messages.update" (Raw data) (Some true).

Definition handleMessageReceiptUpdate (data : string) : M St unit :=
  sendToWebhook "message-receipt.update" (Raw data) None.

Definition handleMessagingHistorySet (data : string) : M St unit :=
  let* s := this in
  if negb (syncFullHistory s) then ret tt
  else sendToWebhook "messaging-history.set" (Raw data) None.

(** Modelled from the spec: [saveCreds], which the credential store
    ([useRedisAuthState], not among the embedded sources) hands out for
    this number: it saves the credentials under the identity, or fails. *)
Definition saveCreds (creds : string) : M St unit :=
  let* s := this in
  match saveCreds_error env (phoneNumber s) with
  | Some message => throw (JsError message)
  | None => world (set_authStore (<[phoneNumber s := creds]>))
  end.

(** *** The presence-reset timer *)

(** The callback given to [setTimeout] in [sendPresenceUpdate], run when
    timer [h] is due: [this.socket?.sendPresenceUpdate("unavailable",
    toJid)].  A timer that was cleared (or has run) is not pending and
    never runs.  The callback does not await the call: a rejection is left
    unhandled, which [Throw] stands for here. *)
Definition fireTimer (h : nat) : M St unit :=
  let* w := getWorld in
  match timers w !! h with
  | None => ret tt
  | Some toJid =>
      do world (set_timers (delete h)) then
      let* s := this in
      match socket s with
      | Some sock =>
          let* _ := invoke sock (TSendPresenceUpdate unavailable toJid) in
          ret tt
      | None => ret tt
      end
  end.

(** *** Event subscription ([addEventListeners]) *)

Inductive TransportEvent :=
  | EvConnectionUpdate (data : ConnectionUpdate)
  | EvCredsUpdate (creds : string)
  | EvMessagesUpsert (messages : list WAMessage)
  | EvMessagesUpdate (data : string)
  | EvMessageReceiptUpdate (data : string)
  | EvMessagingHistorySet (data : string)
  (** any other event of the socket, by name *)
  | EvOther (event : string) (data : string).

Definition ALL_BAILEYS_SOCKET_EVENTS : list string :=
  [ "connection.update"; "creds.update"; "messaging-history.set";
    "chats.upsert"; "chats.update"; "lid-mapping.update"; "chats.delete";
    "presence.update"; "contacts.upsert"; "contacts.update";
    "messages.delete"; "messages.update"; "messages.media-update";
    "messages.upsert"; "messages.reaction"; "message-receipt.update";
    "groups.upsert"; "groups.update"; "group-participants.update";
    "group.join-request"; "blocklist.set"; "blocklist.update"; "call";
    "labels.edit"; "labels.association"; "newsletter.reaction";
    "newsletter.view"; "newsletter-participants.update";
    "newsletter-settings.update" ].

(** The keys of [handledEvents]. *)
Definition handledEvents : list string :=
  [ "creds.update"; "connection.update"; "messages.upsert";
    "messages.update"; "message-receipt.update"; "messaging-history.set" ].

(** The function registered with [socket.ev.on] for an event, if any. *)
Definition listener (ev : TransportEvent) : option (M St unit) :=
  match ev with
  | EvCredsUpdate creds => Some (saveCreds creds)
  | EvConnectionUpdate data =>
      Some (withErrorHandling "handleConnectionUpdate" (handleConnectionUpdate data))
  | EvMessagesUpsert messages =>
      Some (withErrorHandling "handleMessagesUpsert" (handleMessagesUpsert messages))
  | EvMessagesUpdate data =>
      Some (withErrorHandling "handleMessagesUpdate" (handleMessagesUpdate data))
  | EvMessageReceiptUpdate data =>
      Some (withErrorHandling "handleMessageReceiptUpdate"
              (handleMessageReceiptUpdate data))
  | EvMessagingHistorySet data =>
      Some (withErrorHandling "handleMessagingHistorySet"
              (handleMessagingHistorySet data))
  | EvOther event data =>
      if bool_decide (event ∈ ALL_BAILEYS_SOCKET_EVENTS) &&
         negb (bool_decide (event ∈ handledEvents) ||
               negb (listenToEvents env event))
      then Some (sendToWebhook event (Raw data) None)
      else None
  end.

(** What becomes of an event emitted by the socket. *)
Inductive Delivery :=
  (** the listener ran and its promise resolved *)
  | Settled
  (** the listener's promise rejected: the exception left the session *)
  | Unhandled (e : Error)
  | NotSubscribed.

Definition emit (ev : TransportEvent) (st : St) : Delivery * St :=
  match listener ev with
  | Some handler =>
      match handler st with
      | (Ok _, st') => (Settled, st')
      | (Throw e, st') => (Unhandled e, st')
      end
  | None => (NotSubscribed, st)
  end.

(** A run of events, one after the other, with what became of each. *)
Fixpoint emitAll (evs : list TransportEvent) (st : St) : list Delivery * St :=
  match evs with
  | [] => ([], st)
  | ev :: rest =>
      let '(d, st1) := emit ev st in
      let '(ds, st2) := emitAll rest st1 in
      (d :: ds, st2)
  end.

End Methods.

End Connection.

(** ** [BaileysConnectionsHandler] *)

Module Handler.

(** A method call on the object behind a reference. *)
Definition call {A} (ref : nat) (m : M Connection.St A) : M World A :=
  fun w =>
    match objects w !! ref with
    | Some s =>
        let '(r, (s', w')) := m (s, w) in
        (r, set_objects (<[ref := s']>) w')
    | None => (Throw (TypeError "undefined is not an object"), w)
    end.

(** [new BaileysConnection(...)]: a fresh object. *)
Definition alloc (s : BaileysConnection) : M World nat :=
  fun w =>
    (Ok (nextObject w),
     set_nextObject (S (nextObject w)) (set_objects (<[nextObject w := s]>) w)).

Definition getConnection (phone : string) : M World nat :=
  let* w := get in
  match connections w !! phone with
  | Some ref => ret ref
  | None => throw BaileysNotConnectedError
  end.

(** A [connect] call suspended at [await connection.connect()]. *)
Inductive Pending :=
  | AwaitingConnect (phone : string) (connection : nat).

(** [{ ...options, onConnectionClose: () => { delete ...; options.onConnectionClose?.() } }] *)
Definition withDeregister (phone : string) (options : BaileysConnectionOptions)
  : BaileysConnectionOptions :=
  {| opt_clientName := opt_clientName options;
     opt_webhookUrl := opt_webhookUrl options;
     opt_webhookVerifyToken := opt_webhookVerifyToken options;
     opt_isReconnect := opt_isReconnect options;
     opt_includeMedia := opt_includeMedia options;
     opt_syncFullHistory := opt_syncFullHistory options;
     opt_onConnectionClose :=
       Some (DeregisterThen phone (opt_onConnectionClose options)) |}.

Definition create (phone : string) (options : BaileysConnectionOptions)
  : M World (option Pending) :=
  let* ref := alloc (Session.new phone (withDeregister phone options)) in
  ret (Some (AwaitingConnect phone ref)).

Section Methods.

Variable env : Env.

(** [connect], up to the point where it suspends on
    [await connection.connect()]; [None] when it returned before that. *)
Definition connect_begin (phone : string) (options : BaileysConnectionOptions)
  : M World (option Pending) :=
  let* w := get in
  match connections w !! phone with
  | Some ref =>
      do call ref (Connection.setThis (Session.updateOptions options)) then
      try_catch
        (do call ref (Connection.sendPresenceUpdate env available None) then
         ret None)
        (fun error =>
           if negb (instanceof_BaileysNotConnectedError error) then throw error
           else
             do modify (set_connections (delete phone)) then
             create phone options)
  | None => create phone options
  end.

(** [connect], from the resumption of [await connection.connect()] on. *)
Definition connect_resume (p : Pending) : M World unit :=
  match p with
  | AwaitingConnect phone ref =>
      do call ref (Connection.connect env) then
      modify (set_connections (<[phone := ref]>))
  end.

(** [connect] run without anything else in between. *)
Definition connect (phone : string) (options : BaileysConnectionOptions)
  : M World unit :=
  let* p := connect_begin phone options in
  match p with
  | Some p => connect_resume p
  | None => ret tt
  end.

(** The per-connection operations the handler forwards. *)
Inductive Operation :=
  | SendPresenceUpdate (type : WAPresence) (toJid : option string)
  | SendMessage (jid : string) (messageContent : AnyMessageContent)
  | ReadMessages (keys : string)
  | ChatModify (mod_ : string) (jid : string)
  | FetchMessageHistory (count : Z) (oldestMsgKey : string)
      (oldestMsgTimestamp : Z)
  | SendReceipts (keys : string) (type : string)
  | ProfilePictureUrl (jid : string) (type : option string)
  | OnWhatsApp (jids : list string).

Definition perform (op : Operation) : M Connection.St (option string) :=
  match op with
  | SendPresenceUpdate type toJid =>
      do Connection.sendPresenceUpdate env type toJid then ret None
  | SendMessage jid messageContent =>
      let* r := Connection.sendMessage env jid messageContent in ret (Some r)
  | ReadMessages keys =>
      let* r := Connection.readMessages env keys in ret (Some r)
  | ChatModify mod_ jid =>
      let* r := Connection.chatModify env mod_ jid in ret (Some r)
  | FetchMessageHistory count key ts =>
      let* r := Connection.fetchMessageHistory env count key ts in ret (Some r)
  | SendReceipts keys type =>
      let* r := Connection.sendReceipts env keys type in ret (Some r)
  | ProfilePictureUrl jid type =>
      let* r := Connection.profilePictureUrl env jid type in ret (Some r)
  | OnWhatsApp jids =>
      let* r := Connection.onWhatsApp env jids in ret (Some r)
  end.

(** [this.getConnection(phoneNumber).<operation>(...)] *)
Definition dispatch (phone : string) (op : Operation) : M World (option string) :=
  let* ref := getConnection phone in
  call ref (perform op).

Definition logout (phone : string) : M World unit :=
  let* ref := getConnection phone in
  do call ref (Connection.logout env) then
  modify (set_connections (delete phone)).

(** An event of the socket owned by the object behind [ref]. *)
Definition emit (ref : nat) (ev : Connection.TransportEvent) (w : World)
  : Connection.Delivery * World :=
  match objects w !! ref with
  | Some s =>
      let '(d, (s', w')) := Connection.emit env ev (s, w) in
      (d, set_objects (<[ref := s']>) w')
  | None => (Connection.NotSubscribed, w)
  end.

(** [{ onConnectionClose: ..., isReconnect: true, ...metadata }]: the saved
    metadata is spread last, so an [isReconnect] it carries wins; its type
    omits [onConnectionClose], which is therefore the handler's closure. *)
Definition restoreOptions (id : string) (metadata : BaileysConnectionOptions)
  : BaileysConnectionOptions :=
  {| opt_clientName := opt_clientName metadata;
     opt_webhookUrl := opt_webhookUrl metadata;
     opt_webhookVerifyToken := opt_webhookVerifyToken metadata;
     opt_isReconnect :=
       match opt_isReconnect metadata with
       | Some b => Some b
       | None => Some true
       end;
     opt_includeMedia := opt_includeMedia metadata;
     opt_syncFullHistory := opt_syncFullHistory metadata;
     opt_onConnectionClose := Some (Deregister id) |}.

(** The [for (const { id, metadata } of savedConnections)] loop. *)
Fixpoint restoreEach (savedConnections : list (string * BaileysConnectionOptions))
  : M World unit :=
  match savedConnections with
  | [] => ret tt
  | (id, metadata) :: rest =>
      let* connection := alloc (Session.new id (restoreOptions id metadata)) in
      do modify (set_connections (<[id := connection]>)) then
      do call connection (Connection.connect env) then
      restoreEach rest
  end.

(** [reconnectFromAuthStore]; [savedConnections] is what
    [getRedisSavedAuthStateIds()] (not among the embedded sources) resolves
    to. *)
Definition reconnectFromAuthStore
  (savedConnections : list (string * BaileysConnectionOptions)) : M World unit :=
  match savedConnections with
  | [] => ret tt
  | _ => restoreEach savedConnections
  end.

(** One promise of [Promise.allSettled]: it settles whether or not the
    call behind it throws. *)
Definition settled {A} (m : M World A) : M World unit :=
  fun w => (Ok tt, snd (m w)).

(** [connections.map((c) => c.logout())], settled one after the other. *)
Fixpoint logoutEach (refs : list nat) : M World unit :=
  match refs with
  | [] => ret tt
  | c :: rest =>
      do settled (call c (Connection.logout env)) then
      logoutEach rest
  end.

(** [logoutAll]; [keys] is the order in which [Object.values] goes through
    the keys of [this.connections]. *)
Definition logoutAll (keys : list string) : M World unit :=
  let* w := get in
  do logoutEach (omap (fun k => connections w !! k) keys) then
  modify (set_connections (fun _ => ∅)).

End Methods.

End Handler.

(** ** The connections controller (the route handlers of [/connections]) *)

Module Controller.

(** What a route handler hands back to the HTTP layer. *)
Inductive Reply :=
  (** the handler returned nothing: 200 with an empty body *)
  | Done
  (** the handler returned [{ data: ... }] *)
  | Data (data : option string)
  (** the handler returned the operation's own result *)
  | Returned (result : option string)
  (** [new Response(text, { status })] *)
  | Status (code : Z) (text : string).

(** [error.message] *)
Definition message (e : Error) : string :=
  match e with
  | BaileysNotConnectedError => "Phone number not connected"
  | JsError m => m
  | TypeError m => m
  end.

Section Routes.

Variable env : Env.
(** [buildMessageContent] of the controller's helpers (not among the
    embedded sources): it builds the content or throws. *)
Variable buildMessageContent : string -> Result AnyMessageContent.

(** [POST /:phoneNumber] *)
Definition postConnect (phoneNumber : string) (body : BaileysConnectionOptions)
  : M World Reply :=
  do Handler.connect env phoneNumber body then
  ret Done.

(** [PATCH /:phoneNumber/presence] *)
Definition patchPresence (phoneNumber : string) (type : WAPresence)
  (toJid : option string) : M World Reply :=
  do Handler.dispatch env phoneNumber (Handler.SendPresenceUpdate type toJid) then
  ret Done.

(** [POST /:phoneNumber/send-message].  The socket's acknowledgement is
    opaque here; the empty one stands for [undefined]. *)
Definition postSendMessage (phoneNumber jid messageContent : string)
  : M World Reply :=
  try_catch
    (let* content :=
       (fun w => (buildMessageContent messageContent, w)) : M World AnyMessageContent in
     let* response :=
       Handler.dispatch env phoneNumber (Handler.SendMessage jid content) in
     match response with
     | Some ack =>
         if Str.truthy ack then ret (Data (Some ack))
         else ret (Status 500 "Message not sent")
     | None => ret (Status 500 "Message not sent")
     end)
    (fun error =>
       ret (Status 500 ("Failed to send message: " ++ message error))).

(** [POST /:phoneNumber/read-messages] *)
Definition postReadMessages (phoneNumber keys : string) : M World Reply :=
  do Handler.dispatch env phoneNumber (Handler.ReadMessages keys) then
  ret Done.

(** [POST /:phoneNumber/chat-modify] *)
Definition postChatModify (phoneNumber mod_ jid : string) : M World Reply :=
  do Handler.dispatch env phoneNumber (Handler.ChatModify mod_ jid) then
  ret Done.

(** [POST /:phoneNumber/fetch-message-history] *)
Definition postFetchMessageHistory (phoneNumber : string) (count : Z)
  (oldestMsgKey : string) (oldestMsgTimestamp : Z) : M World Reply :=
  let* r := Handler.dispatch env phoneNumber
              (Handler.FetchMessageHistory count oldestMsgKey oldestMsgTimestamp) in
  ret (Returned r).

(** [GET /:phoneNumber/profile-picture-url]; an empty URL is falsy and
    answered as [null]. *)
Definition getProfilePictureUrl (phoneNumber jid : string) (type : option string)
  : M World Reply :=
  try_catch
    (let* profilePictureUrl :=
       Handler.dispatch env phoneNumber (Handler.ProfilePictureUrl jid type) in
     match profilePictureUrl with
     | Some url => ret (Data (if Str.truthy url then Some url else None))
     | None => ret (Data None)
     end)
    (fun e =>
       if String.eqb (message e) "item-not-found"
       then ret (Status 404 "Profile picture not found")
       else throw e).

(** [POST /:phoneNumber/on-whatsapp] *)
Definition postOnWhatsApp (phoneNumber : string) (jids : list string)
  : M World Reply :=
  let* r := Handler.dispatch env phoneNumber (Handler.OnWhatsApp jids) in
  ret (Returned r).

(** [DELETE /:phoneNumber] *)
Definition deleteConnection (phoneNumber : string) : M World Reply :=
  try_catch
    (do Handler.logout env phoneNumber then ret Done)
    (fun e =>
       if instanceof_BaileysNotConnectedError e
       then ret (Status 404 "Phone number not found")
       else throw e).

End Routes.

End Controller.

(** ** Sample values *)

Module Sample.

Definition phone : string := "+15550001".

Definition options : BaileysConnectionOptions :=
  {| opt_clientName := None;
     opt_webhookUrl := "http://localhost:3026/whatsapp/+15550001";
     opt_webhookVerifyToken := "a3f4b2";
     opt_isReconnect := None;
     opt_includeMedia := None;
     opt_syncFullHistory := None;
     opt_onConnectionClose := None |}.

(** An authenticated socket for [phone]. *)
Definition sock (handle : nat) : Socket :=
  {| sock_handle := handle;
     sock_user_id := Some "15550001:7@s.whatsapp.net";
     sock_creds_me := true |}.

Definition describe (e : Error) : string :=
  match e with
  | BaileysNotConnectedError => "Phone number not connected"
  | JsError m => m
  | TypeError m => m
  end.

(** Collaborators that all answer. *)
Definition env : Env :=
  {| makeWASocket := fun n => Resolved (sock n);
     transport := fun _ _ => Resolved "ok";
     saveCreds_error := fun _ => None;
     normalizeBrazilPhoneNumber := fun s => s;
     toDataURL := fun q => Resolved ("data:image/png;base64," ++ q);
     errorToString := describe;
     preprocessAudio := fun a _ => Resolved a;
     downloadMediaFromMessages := fun _ _ => Resolved None;
     listenToEvents := fun _ => true |}.

(** The same, except that [makeWASocket] throws. *)
Definition envNoSocket : Env :=
  {| makeWASocket := fun _ => Rejected "socket creation failed";
     transport := transport env;
     saveCreds_error := saveCreds_error env;
     normalizeBrazilPhoneNumber := normalizeBrazilPhoneNumber env;
     toDataURL := toDataURL env;
     errorToString := describe;
     preprocessAudio := preprocessAudio env;
     downloadMediaFromMessages := downloadMediaFromMessages env;
     listenToEvents := listenToEvents env |}.

(** The same as [env], except that saving credentials fails. *)
Definition envRedisDown : Env :=
  {| makeWASocket := makeWASocket env;
     transport := transport env;
     saveCreds_error := fun _ => Some "ECONNREFUSED";
     normalizeBrazilPhoneNumber := normalizeBrazilPhoneNumber env;
     toDataURL := toDataURL env;
     errorToString := describe;
     preprocessAudio := preprocessAudio env;
     downloadMediaFromMessages := downloadMediaFromMessages env;
     listenToEvents := listenToEvents env |}.

(** A connection as the handler creates it, connected through [sock 0]. *)
Definition connected : BaileysConnection :=
  Session.set_clearAuthState (Some phone)
    (Session.set_socket (Some (sock 0))
       (Session.new phone (Handler.withDeregister phone options))).

(** [connected] after ten reconnects in a row. *)
Definition atCeiling : BaileysConnection :=
  Session.set_reconnectCount 10 connected.

(** A close with a recoverable reason (428, connection closed). *)
Definition connectionClosed : ConnectionUpdate :=
  {| connection := Some ConnClose; qr := Absent;
     lastDisconnect :=
       Some {| ld_error :=
                 Some {| output := Some {| statusCode := 428;
                                           payload_message := Some "Connection Closed" |};
                         err_message := "Connection Closed" |} |};
     isNewLogin := None; isOnline := None |}.

(** A close that says nothing about its reason. *)
Definition closeWithoutError : ConnectionUpdate :=
  {| connection := Some ConnClose; qr := Absent; lastDisconnect := None;
     isNewLogin := None; isOnline := None |}.

(** An online ping: no [connection] field at all. *)
Definition onlinePing : ConnectionUpdate :=
  {| connection := None; qr := Absent; lastDisconnect := None;
     isNewLogin := None; isOnline := Some true |}.

Definition text (s : string) : AnyMessageContent :=
  {| audio := None; ptt := false; mimetype := None; body := s |}.

(** A world in which [connected] is registered under [phone]. *)
Definition world : World :=
  set_authStore (<[phone := "creds"]>)
    (set_socketsMade 1
       (set_nextObject 1
          (set_objects (<[0 := connected]>)
             (set_connections (<[phone := 0]>) emptyWorld)))).

Definition policy : Webhook.RetryPolicy :=
  {| Webhook.maxRetries := 3; Webhook.retryInterval := 100;
     Webhook.backoffFactor := 2 |}.

(** An endpoint that fails twice (a 503, then a refused connection) and
    then answers 200. *)
Definition flaky (k : nat) : Result Webhook.Response :=
  match k with
  | 0 => Ok {| Webhook.ok := false; Webhook.status := 503 |}
  | 1 => Throw (JsError "ECONNREFUSED")
  | _ => Ok {| Webhook.ok := true; Webhook.status := 200 |}
  end.

(** An endpoint that never answers 2xx. *)
Definition down (k : nat) : Result Webhook.Response :=
  Ok {| Webhook.ok := false; Webhook.status := 500 |}.

Definition half (k : nat) : Q := 1 # 2.

End Sample.

(** * Vocabulary of the specification *)

(** "The provided value or, when the field is omitted, its default". *)
Definition providedOr {A} (provided : option A) (default : A) : A :=
  match provided with
  | Some v => v
  | None => default
  end.

Definition groupSuffix : string := "@g.us".
Definition individualSuffix : string := "@s.whatsapp.net".

(** A target address carrying both suffixes: one of them is appended to an
    address that already ends with the other. *)
Definition carriesBothSuffixes (jid : string) : Prop :=
  exists base : string,
    jid = base ++ groupSuffix ++ individualSuffix \/
    jid = base ++ individualSuffix ++ groupSuffix.

(** What [connect] does to an entry it finds: apply [updateOptions] to the
    registered connection, then send the presence probe through it. *)
Definition probe (env : Env) (ref : nat) (options : BaileysConnectionOptions)
  : M World unit :=
  do Handler.call ref (Connection.setThis (Session.updateOptions options)) then
  Handler.call ref (Connection.sendPresenceUpdate env available None).

(** [await this.clearAuthState?.()]: the credentials are gone. *)
Definition clearedWorld (s : BaileysConnection) (w : World) : World :=
  match clearAuthState s with
  | Some id => set_authStore (delete id) w
  | None => w
  end.

(** [this.onConnectionClose?.()] has run. *)
Definition firedWorld (s : BaileysConnection) (w : World) : World :=
  match onConnectionClose s with
  | Some cb => Connection.runCloseCallback cb w
  | None => w
  end.

(** The world once [close] has run for a connection. *)
Definition closedWorld (s : BaileysConnection) (w : World) : World :=
  firedWorld s (clearedWorld s w).

(** The connection once [close] has run: no credential handle, no
    socket, no reconnects counted. *)
Definition closed (s : BaileysConnection) : BaileysConnection :=
  Session.set_reconnectCount 0
    (Session.set_socket None (Session.set_clearAuthState None s)).

(** The synthetic [{ connection: "reconnecting" }] webhook event. *)
Definition reconnectingCall (s : BaileysConnection) : WebhookCall :=
  {| wc_phoneNumber := phoneNumber s; wc_event := "connection.update";
     wc_data := Reconnecting; wc_awaitResponse := None |}.

(** [reconnectCount] after an update that is neither a reconnect signal
    nor a close: 0 when the socket reports the number of somebody else (the
    connection logs out and closes); unchanged when rendering the QR code
    fails; 0 when the update is forwarded with state "open" (an open
    update, or an online ping); unchanged otherwise. *)
Definition expectedAfterForward (env : Env) (s : BaileysConnection)
  (data : ConnectionUpdate) : nat :=
  if Connection.wrongPhoneNumber env s data then 0
  else
    match Connection.qr_code data ≫= (fun q =>
            match toDataURL env q with
            | Rejected m => Some m
            | Resolved _ => None
            end) with
    | Some _ => reconnectCount s
    | None =>
        if bool_decide (Connection.shapedConnection data = Some ConnOpen)
        then 0 else reconnectCount s
    end.

(** [reconnectCount] after an entry into RECONNECTING: one more, or 0
    when one more exceeds the ceiling of 10 (the connection closes). *)
Definition bumped (s : BaileysConnection) : nat :=
  if (10 <? reconnectCount s + 1)%nat then 0 else reconnectCount s + 1.

(** [reconnectCount] after a connection update: bumped by a reconnect
    signal and by a close with a recoverable reason; 0 after a close with
    a terminal reason; unchanged by a close that carries no error (the
    handler throws); otherwise as [expectedAfterForward] says. *)
Definition expectedCount (env : Env) (s : BaileysConnection)
  (data : ConnectionUpdate) : nat :=
  if Connection.isReconnecting s data then bumped s
  else if bool_decide (connection data = Some ConnClose) then
    match lastDisconnect data ≫= ld_error with
    | Some error => if Connection.shouldReconnect error then bumped s else 0
    | None => reconnectCount s
    end
  else expectedAfterForward env s data.

(** Resuming a [connect] call, if it is suspended. *)
Definition resume (env : Env) (p : option Handler.Pending) : M World unit :=
  match p with
  | Some p => Handler.connect_resume env p
  | None => ret tt
  end.

(** The second call arrives while the first is still awaiting
    [connection.connect()]; the first then resumes, then the second. *)
Definition overlapping (env : Env) (phone : string)
  (options1 options2 : BaileysConnectionOptions) : M World unit :=
  let* p1 := Handler.connect_begin env phone options1 in
  let* p2 := Handler.connect_begin env phone options2 in
  do resume env p1 then
  resume env p2.

(** The second call arrives after the first has completed. *)
Definition sequential (env : Env) (phone : string)
  (options1 options2 : BaileysConnectionOptions) : M World unit :=
  do Handler.connect env phone options1 then
  Handler.connect env phone options2.

(** A method keeps the frame of its object: it does not change the
    phone number of [this], allocates and drops no object, and adds no
    registry entry (it may remove some, through a close callback). *)
Definition keeps {A} (m : M Connection.St A) : Prop :=
  forall (s : BaileysConnection) (w : World),
    phoneNumber (fst (snd (m (s, w)))) = phoneNumber s /\
    objects (snd (snd (m (s, w)))) = objects w /\
    nextObject (snd (snd (m (s, w)))) = nextObject w /\
    connections (snd (snd (m (s, w)))) ⊆ connections w.

(** Every registry entry leads to a connection object made for that
    phone number. *)
Definition registered (w : World) : Prop :=
  forall (id : string) (ref : nat),
    connections w !! id = Some ref ->
    exists s, objects w !! ref = Some s /\ phoneNumber s = id.

(** References not handed out yet name no object. *)
Definition allocated (w : World) : Prop :=
  forall ref, nextObject w <= ref -> objects w !! ref = None.

(** A well-formed world. *)
Definition wellFormed (w : World) : Prop := registered w /\ allocated w.

(** Objects are never dropped and keep their phone number. *)
Definition extends (w w' : World) : Prop :=
  forall ref s, objects w !! ref = Some s ->
    exists s', objects w' !! ref = Some s' /\ phoneNumber s' = phoneNumber s.

(** A suspended [connect] holds an object made for its phone number. *)
Definition pendingOk (w : World) (p : Handler.Pending) : Prop :=
  match p with
  | Handler.AwaitingConnect phone ref =>
      exists s, objects w !! ref = Some s /\ phoneNumber s = phone
  end.

(** What every operation of the handler maintains. *)
Definition invariant_step (w w' : World) : Prop :=
  wellFormed w' /\ extends w w'.

(** What can happen next in the process: a [connect] call arrives and
    runs up to its await, a suspended [connect] resumes, another call of
    the handler runs, a socket emits an event to the connection object that
    listens to it, a presence timer of a connection becomes due. *)
Inductive Step :=
  | SBegin (phone : string) (options : BaileysConnectionOptions)
  | SResume (i : nat)
  | SDispatch (phone : string) (op : Handler.Operation)
  | SLogout (phone : string)
  | SLogoutAll (keys : list string)
  | SRestore (savedConnections : list (string * BaileysConnectionOptions))
  | SEmit (ref : nat) (ev : Connection.TransportEvent)
  | SFire (ref : nat) (h : nat).

(** One step, on the world and the pool of suspended [connect] calls. *)
Definition step (env : Env) (st : Step) (sch : World * list Handler.Pending)
  : World * list Handler.Pending :=
  let w := fst sch in
  let pool := snd sch in
  match st with
  | SBegin phone options =>
      match Handler.connect_begin env phone options w with
      | (Ok (Some p), w') => (w', (pool ++ [p])%list)
      | (_, w') => (w', pool)
      end
  | SResume i =>
      match pool !! i with
      | Some p => (snd (Handler.connect_resume env p w), delete i pool)
      | None => sch
      end
  | SDispatch phone op => (snd (Handler.dispatch env phone op w), pool)
  | SLogout phone => (snd (Handler.logout env phone w), pool)
  | SLogoutAll keys => (snd (Handler.logoutAll env keys w), pool)
  | SRestore saved => (snd (Handler.reconnectFromAuthStore env saved w), pool)
  | SEmit ref ev => (snd (Handler.emit env ref ev w), pool)
  | SFire ref h => (snd (Handler.call ref (Connection.fireTimer env h) w), pool)
  end.

(** A run of steps. *)
Definition run (env : Env) (steps : list Step) (sch : World * list Handler.Pending)
  : World * list Handler.Pending :=
  foldl (fun sch st => step env st sch) sch steps.

(** The registry and the suspended calls are consistent with the object
    store. *)
Definition consistent (sch : World * list Handler.Pending) : Prop :=
  wellFormed (fst sch) /\ Forall (pendingOk (fst sch)) (snd sch).

(** Two worlds that differ at most in the socket calls recorded and in
    the log. *)
Definition sameButCallsAndLogs (w w' : World) : Prop :=
  connections w' = connections w /\ objects w' = objects w /\
  nextObject w' = nextObject w /\ authStore w' = authStore w /\
  socketsMade w' = socketsMade w /\ timers w' = timers w /\
  nextTimer w' = nextTimer w /\ webhooks w' = webhooks w /\
  callbacks w' = callbacks w.

(** [sendMessage] gets as far as the socket call: it has a socket that
    reports a user, and the address does not stack the two suffixes. *)
Definition readyToSend (s : BaileysConnection) (jid : string) : option Socket :=
  match socket s with
  | Some sock =>
      if Str.includes jid "@g.us@s.whatsapp.net" ||
         Str.includes jid "@s.whatsapp.net@g.us"
      then None
      else if Connection.truthy_opt (sock_user_id sock) then Some sock else None
  | None => None
  end.

(** What [sendMessage] throws when the socket call fails with [message]. *)
Definition sendFailure (env : Env) (message : string) : Error :=
  if Str.includes (errorToString env (JsError message)) "Connection Closed" ||
     Str.includes (errorToString env (JsError message)) "428"
  then Connection.closedOrNotReady
  else JsError message.

(** Collaborators as in [Sample.env], on a host without ffmpeg. *)
Definition envNoFfmpeg : Env :=
  {| makeWASocket := makeWASocket Sample.env;
     transport := transport Sample.env;
     saveCreds_error := saveCreds_error Sample.env;
     normalizeBrazilPhoneNumber := normalizeBrazilPhoneNumber Sample.env;
     toDataURL := toDataURL Sample.env;
     errorToString := Sample.describe;
     preprocessAudio := fun _ _ => Rejected "spawn ffmpeg ENOENT";
     downloadMediaFromMessages := downloadMediaFromMessages Sample.env;
     listenToEvents := listenToEvents Sample.env |}.

(** A voice note. *)
Definition voiceNote : AnyMessageContent :=
  {| audio := Some "RIFF"; ptt := true; mimetype := None; body := "" |}.

(** A method relates the state it leaves to the state it found by [R],
    whether it returns or throws. *)
Definition preserves {A} (R : relation Connection.St) (m : M Connection.St A) : Prop :=
  forall st, R st (snd (m st)).

(** The presence-reset timers and the handle the connection remembers are
    as they were. *)
Definition sameTimers (st st' : Connection.St) : Prop :=
  timers (snd st') = timers (snd st) /\
  clearOnlinePresenceTimeout (fst st') = clearOnlinePresenceTimeout (fst st).

(** Every pending presence reset is the one the connection remembers. *)
Definition timerTracked (st : Connection.St) : Prop :=
  forall h, is_Some (timers (snd st) !! h) ->
            clearOnlinePresenceTimeout (fst st) = Some h.

(** What can happen to one connection: a forwarded operation, [connect],
    [logout], an event of its socket, a presence-reset timer that is due. *)
Inductive SessionStep :=
  | Call (op : Handler.Operation)
  | Connect
  | Logout
  | Emit (ev : Connection.TransportEvent)
  | TimerDue (h : nat).

Definition sessionStep (env : Env) (p : SessionStep) (st : Connection.St)
  : Connection.St :=
  match p with
  | Call op => snd (Handler.perform env op st)
  | Connect => snd (Connection.connect env st)
  | Logout => snd (Connection.logout env st)
  | Emit ev => snd (Connection.emit env ev st)
  | TimerDue h => snd (Connection.fireTimer env h st)
  end.

Definition sessionRun (env : Env) (ps : list SessionStep) (st : Connection.St)
  : Connection.St :=
  foldl (fun st p => sessionStep env p st) st ps.

(** [Sample.connected] with a presence reset pending, and its world. *)
Definition awaitingReset : Connection.St :=
  (Session.set_clearOnlinePresenceTimeout (Some 0) Sample.connected,
   set_nextTimer 1 (set_timers (<[0 := None]>) Sample.world)).

(** The names gathered for the groups [groupJids], the first looked up by
    socket call number [n]: a group is named when the lookup of its
    metadata is answered with a non-empty subject. *)
Fixpoint groupNamesFrom (env : Env) (n : nat) (groupJids : list string)
  : list (string * string) :=
  match groupJids with
  | [] => []
  | groupJid :: rest =>
      match transport env n (TGroupMetadata groupJid) with
      | Resolved subject => if Str.truthy subject then [(groupJid, subject)] else []
      | Rejected _ => []
      end ++ groupNamesFrom env (S n) rest
  end.

(** The webhook call made for a batch of messages. *)
Definition upsertCall (s : BaileysConnection) (messages : list WAMessage)
  (media : option string) (groupNames : list (string * string)) : WebhookCall :=
  {| wc_phoneNumber := phoneNumber s; wc_event := "messages.upsert";
     wc_data := MessagesUpsert messages media groupNames;
     wc_awaitResponse := None |}.

(** The character [c] occurs in [s]. *)
Fixpoint occurs (c : Ascii.ascii) (s : string) : bool :=
  match s with
  | EmptyString => false
  | String a s' => Ascii.eqb a c || occurs c s'
  end.

(** The synthetic [{ error: "wrong_phone_number" }] webhook event. *)
Definition wrongPhoneNumberCall (s : BaileysConnection) : WebhookCall :=
  {| wc_phoneNumber := phoneNumber s; wc_event := "connection.update";
     wc_data := WrongPhoneNumber; wc_awaitResponse := None |}.

(** A connection update as it is forwarded to the webhook. *)
Definition forwardedCall (s : BaileysConnection) (data : ConnectionUpdate)
  (qrDataUrl : option string) : WebhookCall :=
  {| wc_phoneNumber := phoneNumber s; wc_event := "connection.update";
     wc_data := ConnectionData data (Connection.shapedConnection data) qrDataUrl;
     wc_awaitResponse := None |}.

(** The connection object, the registry, the object store and the count of
    sockets made are as they were. *)
Definition sameSession (st st' : Connection.St) : Prop :=
  fst st' = fst st /\
  connections (snd st') = connections (snd st) /\
  objects (snd st') = objects (snd st) /\
  nextObject (snd st') = nextObject (snd st) /\
  socketsMade (snd st') = socketsMade (snd st) /\
  callbacks (snd st') = callbacks (snd st).

(** [Sample.connected], except that its socket reports another number. *)
Definition onWrongNumber : BaileysConnection :=
  Session.set_socket
    (Some {| sock_handle := 0; sock_user_id := Some "15559999:1@s.whatsapp.net";
             sock_creds_me := true |})
    Sample.connected.

(** A plain update with the given connection state. *)
Definition stateUpdate (state : WAConnectionState) : ConnectionUpdate :=
  {| connection := Some state; qr := Absent; lastDisconnect := None;
     isNewLogin := None; isOnline := None |}.

(** The credential store is as it was. *)
Definition sameStore (st st' : Connection.St) : Prop :=
  authStore (snd st') = authStore (snd st).

#[local] Instance sameStore_preorder : PreOrder sameStore.
Proof.
  split.
  - intros st. reflexivity.
  - intros a b c H1 H2. unfold sameStore in *. congruence.
Qed.

(** The time a delivery spends asleep, in milliseconds. *)
Fixpoint slept (tr : list Webhook.Action) : Z :=
  match tr with
  | [] => 0
  | Webhook.Sleep ms :: rest => ms + slept rest
  | _ :: rest => slept rest
  end.

(** The delays the retry policy prescribes for the first [n] retries,
    without jitter: [retryInterval * (1 + backoffFactor + ... +
    backoffFactor^(n-1))]. *)
Fixpoint backoffTotal (policy : Webhook.RetryPolicy) (n : nat) : Z :=
  match n with
  | O => 0
  | S k => backoffTotal policy k +
           Webhook.retryInterval policy * Webhook.backoffFactor policy ^ Z.of_nat k
  end.

(** The pauses after attempts [a, a+1, ..., a+n-1]. *)
Fixpoint pauseSum (policy : Webhook.RetryPolicy) (random : nat -> Q) (a n : nat) : Z :=
  match n with
  | O => 0
  | S n' => Webhook.pause policy random a + pauseSum policy random (S a) n'
  end.

(** The [onConnectionClose] of a caller of the handler, who has no access
    to the registry: none, or a callback from outside. *)
Definition callerCallback (cb : option CloseCallback) : option nat :=
  match cb with
  | Some (External tag) => Some tag
  | _ => None
  end.

Definition fromOutside (cb : option CloseCallback) : Prop :=
  match cb with
  | None | Some (External _) => True
  | Some _ => False
  end.

(** The calls of the caller's callback when a connection closes [n]
    times. *)
Definition callbackCalls (cb : option CloseCallback) (n : nat) : list nat :=
  match callerCallback cb with
  | Some tag => replicate n tag
  | None => []
  end.

(** A close for a terminal reason: logged out (401). *)
Definition loggedOutClose : ConnectionUpdate :=
  {| connection := Some ConnClose; qr := Absent;
     lastDisconnect :=
       Some {| ld_error :=
                 Some {| output := Some {| statusCode := 401;
                                           payload_message := Some "Logged out" |};
                         err_message := "Logged out" |} |};
     isNewLogin := None; isOnline := None |}.

(** * Properties *)

(** ** Strings *)

Lemma startsWith_app (pat rest : string) :
  Str.startsWith (pat ++ rest) pat = true.
Proof.
  induction pat as [|a pat IH]; simpl; [reflexivity|].
  rewrite Ascii.eqb_refl. exact IH.
Qed.

Lemma includes_startsWith (s pat : string) :
  Str.startsWith s pat = true -> Str.includes s pat = true.
Proof. intros H. destruct s; simpl; rewrite H; reflexivity. Qed.

Lemma includes_app (base pat rest : string) :
  Str.includes (base ++ pat ++ rest) pat = true.
Proof.
  induction base as [|a base IH].
  - change ("" ++ pat ++ rest) with (pat ++ rest).
    apply includes_startsWith, startsWith_app.
  - simpl. rewrite IH. apply orb_true_r.
Qed.

Lemma append_empty_r (s : string) : s ++ "" = s.
Proof.
  induction s as [|a s IH]; [reflexivity|].
  change (String a s ++ "") with (String a (s ++ "")). rewrite IH. reflexivity.
Qed.

Lemma includes_suffix (base pat : string) :
  Str.includes (base ++ pat) pat = true.
Proof.
  rewrite <- (append_empty_r pat) at 1. apply includes_app.
Qed.

(** ** [updateOptions] *)

(** C10, as stated, fails on a client name given as the empty string: the
    stored name becomes the default, not the provided value. *)
Lemma updateOptions_empty_clientName :
  let options :=
    {| opt_clientName := Some ""; opt_webhookUrl := "http://localhost/hook";
       opt_webhookVerifyToken := "a3f4b2"; opt_isReconnect := None;
       opt_includeMedia := None; opt_syncFullHistory := None;
       opt_onConnectionClose := None |} in
  let this := Session.new "+15550001" options in
  clientName (Session.updateOptions options this)
  <> providedOr (opt_clientName options) "Chrome".
Proof. simpl. discriminate. Qed.

(** C10 (amended): [updateOptions] overwrites every refreshable option
    with the provided value or, when the field is omitted -- or, for the
    client name, given as the empty string -- with its default ("Chrome",
    [true], [false]), whatever was stored before; the identity, the
    on-close callback, [reconnectCount], the transport handle and the
    pending presence-reset timer (and the two remaining fields) are left
    as they were. *)
Theorem updateOptions_overwrites_and_frames
  (options : BaileysConnectionOptions) (this : BaileysConnection) :
  let this' := Session.updateOptions options this in
  (clientName this' =
     match opt_clientName options with
     | Some "" | None => "Chrome"
     | Some name => name
     end /\
   webhookUrl this' = opt_webhookUrl options /\
   webhookVerifyToken this' = opt_webhookVerifyToken options /\
   includeMedia this' = providedOr (opt_includeMedia options) true /\
   syncFullHistory this' = providedOr (opt_syncFullHistory options) false) /\
  (phoneNumber this' = phoneNumber this /\
   onConnectionClose this' = onConnectionClose this /\
   reconnectCount this' = reconnectCount this /\
   socket this' = socket this /\
   clearOnlinePresenceTimeout this' = clearOnlinePresenceTimeout this /\
   isReconnect this' = isReconnect this /\
   clearAuthState this' = clearAuthState this).
Proof.
  split.
  - repeat split; simpl.
    destruct (opt_clientName options) as [[|c name]|]; reflexivity.
  - repeat split.
Qed.

(** ** [sendMessage] *)

Lemma carriesBothSuffixes_includes (jid : string) :
  carriesBothSuffixes jid ->
  Str.includes jid "@g.us@s.whatsapp.net" ||
  Str.includes jid "@s.whatsapp.net@g.us" = true.
Proof.
  intros [base [-> | ->]].
  - change (groupSuffix ++ individualSuffix) with "@g.us@s.whatsapp.net".
    rewrite includes_suffix. reflexivity.
  - change (individualSuffix ++ groupSuffix) with "@s.whatsapp.net@g.us".
    rewrite includes_suffix. apply orb_true_r.
Qed.

(** C7: for a target address that carries both the group suffix and the
    individual-chat suffix, [sendMessage] rejects and leaves the
    connection and the world as they were -- in particular no operation
    has been invoked on the socket; on a connection that has a socket the
    error is the "Invalid JID format" one naming the address. *)
Theorem sendMessage_rejects_double_suffix
  (env : Env) (jid : string) (messageContent : AnyMessageContent)
  (st : Connection.St) :
  carriesBothSuffixes jid ->
  exists e : Error,
    Connection.sendMessage env jid messageContent st = (Throw e, st) /\
    transportCalls (snd (snd (Connection.sendMessage env jid messageContent st)))
      = transportCalls (snd st) /\
    (e = BaileysNotConnectedError \/ e = Connection.invalidJid jid) /\
    (is_Some (socket (fst st)) -> e = Connection.invalidJid jid).
Proof.
  intros Hjid. apply carriesBothSuffixes_includes in Hjid.
  destruct st as [s w].
  unfold Connection.sendMessage, Connection.safeSocket, bind, Connection.this.
  simpl. destruct (socket s) as [sock|] eqn:Hsock; simpl.
  - rewrite Hjid. exists (Connection.invalidJid jid).
    repeat split; auto.
  - exists BaileysNotConnectedError. repeat split; auto.
    intros [x Hx]. discriminate.
Qed.

Lemma sendMessage_rejects_double_suffix_witness :
  let jid := "120363041234567890@g.us@s.whatsapp.net" in
  carriesBothSuffixes jid /\
  Connection.sendMessage Sample.env jid (Sample.text "hello")
    (Sample.connected, Sample.world)
  = (Throw (Connection.invalidJid jid), (Sample.connected, Sample.world)).
Proof.
  assert (H : carriesBothSuffixes "120363041234567890@g.us@s.whatsapp.net").
  { exists "120363041234567890". left. reflexivity. }
  split; [exact H|].
  destruct (sendMessage_rejects_double_suffix Sample.env _ (Sample.text "hello")
              (Sample.connected, Sample.world) H) as [e (He & _ & _ & Hs)].
  rewrite He. rewrite Hs; [reflexivity|]. eexists. reflexivity.
Defined.

(** ** The webhook dispatcher *)

Section DispatcherFacts.

Import Webhook.

Lemma jitter_range (random : nat -> Q) (k : nat) :
  (0 <= random k)%Q -> (random k < 1)%Q -> (0 <= jitter random k < 1000)%Z.
Proof.
  intros H0 H1. unfold jitter. split.
  - change 0%Z with (Qfloor 0). apply Qfloor_resp_le.
    apply Qmult_le_0_compat; [exact H0 | discriminate].
  - destruct (Z_lt_ge_dec (Qfloor (random k * 1000)) 1000) as [Hlt|Hge]; [exact Hlt|].
    exfalso.
    assert (Hx : (random k * 1000 < 1000)%Q).
    { apply Qlt_le_trans with (1 * 1000)%Q.
      - apply Qmult_lt_compat_r; [reflexivity | exact H1].
      - discriminate. }
    pose proof (Qfloor_le (random k * 1000)) as Hfl.
    assert (Hinj : (inject_Z 1000 <= inject_Z (Qfloor (random k * 1000)))%Q).
    { rewrite <- Zle_Qle. lia. }
    apply (Qlt_irrefl 1000).
    eapply Qle_lt_trans; [|exact Hx].
    eapply Qle_trans; [exact Hinj | exact Hfl].
Qed.

Lemma Qfloor_interval (x : Q) (j : Z) :
  Qfloor x = j <-> (inject_Z j <= x)%Q /\ (x < inject_Z (j + 1))%Q.
Proof.
  split.
  - intros <-. split; [apply Qfloor_le | apply Qlt_floor].
  - intros [Hle Hlt]. apply Z.le_antisymm.
    + apply Z.lt_succ_r. rewrite Zlt_Qlt.
      apply Qle_lt_trans with x; [apply Qfloor_le | exact Hlt].
    + rewrite <- (Qfloor_Z j). apply Qfloor_resp_le. exact Hle.
Qed.

(** The jitter is [j] exactly when [Math.random()] falls in
    [[j/1000, (j+1)/1000)]: every whole number of milliseconds has an
    interval of the same width. *)
Lemma jitter_interval (random : nat -> Q) (k : nat) (j : Z) :
  jitter random k = j <->
  (j # 1000 <= random k)%Q /\ (random k < (j + 1) # 1000)%Q.
Proof.
  unfold jitter. rewrite Qfloor_interval.
  destruct (random k) as [a b]. unfold Qle, Qlt, Qmult, inject_Z. cbn.
  rewrite Pos.mul_1_r. lia.
Qed.


Variable policy : RetryPolicy.
Variable fetch : nat -> Result Response.
Variable random : nat -> Q.

Lemma io_failure_logs r : io (failure_logs r) = [].
Proof. unfold failure_logs. destruct (response r), (error r); reflexivity. Qed.

Lemma io_app (l1 l2 : list Action) : io (l1 ++ l2) = (io l1 ++ io l2)%list.
Proof. unfold io. induction l1; simpl; [done|]. destruct (is_io a); simpl; congruence. Qed.

Lemma schedule_same a : schedule policy random a a = [Post a].
Proof. unfold schedule. rewrite Nat.sub_diag. reflexivity. Qed.

Lemma schedule_step a last : (a < last)%nat ->
  schedule policy random a last
  = Post a :: Sleep (pause policy random a) :: schedule policy random (S a) last.
Proof.
  intros H. unfold schedule.
  replace (last - a)%nat with (S (last - S a)) by lia. reflexivity.
Qed.

Lemma firstOk_bounds (a n k : nat) :
  firstOk fetch a n = Some k -> (a <= k < a + n)%nat /\ is_2xx fetch k = true.
Proof.
  revert a. induction n as [|n IH]; intros a; simpl; [discriminate|].
  destruct (is_2xx fetch a) eqn:E.
  - intros [= <-]. split; [lia | exact E].
  - intros H. apply IH in H. split; [lia | tauto].
Qed.

Lemma sendLoop_success (fuel a : nat) (d : Z) (r : Response) :
  (a <= maxRetries policy)%nat -> fetch a = Ok r -> ok r = true ->
  sendLoop policy fetch random (S fuel) a d
  = (Some (Ok (Some r)), [Post a; LogSuccess]).
Proof.
  intros Ha Hf Hok. cbn [sendLoop].
  destruct (Nat.leb_spec a (maxRetries policy)) as [_|]; [|lia].
  unfold sendPayloadToWebhook. rewrite Hf. destruct r as [o st].
  simpl in Hok. subst o. reflexivity.
Qed.

Lemma sendLoop_retry (fuel a : nat) (d : Z) :
  (a <= maxRetries policy)%nat -> is_2xx fetch a = false ->
  sendLoop policy fetch random (S fuel) a d
  = if (S a <=? maxRetries policy)%nat then
      (fst (sendLoop policy fetch random fuel (S a) (d * backoffFactor policy)),
       Post a :: failure_logs (sendPayloadToWebhook fetch a) ++
         LogRetrying (S a) d :: Sleep (d + jitter random a) ::
         snd (sendLoop policy fetch random fuel (S a) (d * backoffFactor policy)))
    else
      (fst (sendLoop policy fetch random fuel (S a) d),
       Post a :: failure_logs (sendPayloadToWebhook fetch a) ++
         snd (sendLoop policy fetch random fuel (S a) d)).
Proof.
  intros Ha Hf. cbn [sendLoop].
  destruct (Nat.leb_spec a (maxRetries policy)) as [_|]; [|lia].
  unfold is_2xx in Hf. unfold sendPayloadToWebhook.
  destruct (fetch a) as [[[] st]|e]; [discriminate| |]; cbn [response];
    destruct (S a <=? maxRetries policy)%nat;
    match goal with |- context [sendLoop ?p ?f ?r ?n ?b ?c] =>
      destruct (sendLoop p f r n b c) end; reflexivity.
Qed.

Lemma sendLoop_exhausted (fuel : nat) (d : Z) :
  sendLoop policy fetch random (S fuel) (S (maxRetries policy)) d
  = (Some (Ok None), [LogFailed]).
Proof.
  cbn [sendLoop].
  destruct (Nat.leb_spec (S (maxRetries policy)) (maxRetries policy)); [lia|].
  reflexivity.
Qed.

Lemma lastAttempt_ge (a : nat) :
  (a <= maxRetries policy)%nat ->
  (a <= lastAttempt policy fetch a <= maxRetries policy)%nat.
Proof.
  intros Ha. unfold lastAttempt.
  destruct (firstOk fetch a (S (maxRetries policy) - a)) as [k|] eqn:E; simpl; [|lia].
  apply firstOk_bounds in E. lia.
Qed.

Lemma lastAttempt_step a :
  (a <= maxRetries policy)%nat -> is_2xx fetch a = false ->
  firstOk fetch a (S (maxRetries policy) - a)
  = firstOk fetch (S a) (S (maxRetries policy) - S a).
Proof.
  intros Ha Hf.
  replace (S (maxRetries policy) - a)%nat with (S (S (maxRetries policy) - S a)) by lia.
  simpl firstOk. rewrite Hf. reflexivity.
Qed.

Lemma sendLoop_spec (fuel a : nat) (d : Z) :
  (a <= maxRetries policy)%nat ->
  (S (S (maxRetries policy)) - a <= fuel)%nat ->
  d = (retryInterval policy * backoffFactor policy ^ Z.of_nat a)%Z ->
  exists res tr,
    sendLoop policy fetch random fuel a d = (Some (Ok res), tr) /\
    io tr = schedule policy random a (lastAttempt policy fetch a) /\
    match firstOk fetch a (S (maxRetries policy) - a) with
    | Some k => (exists r, fetch k = Ok r /\ ok r = true /\ res = Some r) /\
                last tr = Some LogSuccess
    | None => res = None /\ last tr = Some LogFailed
    end.
Proof.
  revert a d. induction fuel as [|fuel IH]; intros a d Ha Hfuel Hd; [lia|].
  destruct (is_2xx fetch a) eqn:H2xx.
  - unfold is_2xx in H2xx. destruct (fetch a) as [r|e] eqn:Hf; [|discriminate].
    rewrite (sendLoop_success fuel a d r Ha Hf H2xx).
    assert (E : firstOk fetch a (S (maxRetries policy) - a) = Some a).
    { replace (S (maxRetries policy) - a)%nat with (S (maxRetries policy - a)) by lia.
      simpl. unfold is_2xx. rewrite Hf, H2xx. reflexivity. }
    eexists _, _. split; [reflexivity|].
    unfold lastAttempt. rewrite E. simpl. rewrite schedule_same.
    split; [reflexivity|]. split; [|reflexivity]. eauto.
  - rewrite (sendLoop_retry fuel a d Ha H2xx).
    unfold lastAttempt. rewrite (lastAttempt_step a Ha H2xx).
    destruct (Nat.leb_spec (S a) (maxRetries policy)) as [Hle|Hgt].
    + destruct (IH (S a) (d * backoffFactor policy)%Z Hle) as (res & tr & Heq & Hio & Hend).
      { lia. }
      { subst d. rewrite Nat2Z.inj_succ, Z.pow_succ_r by lia. ring. }
      rewrite Heq. cbn [fst snd]. eexists _, _. split; [reflexivity|].
      split.
      * change (io (?x :: ?l)) with (x :: io l).
        rewrite io_app, io_failure_logs. cbn [app].
        change (io (LogRetrying ?n ?d :: Sleep ?x :: ?l)) with (Sleep x :: io l).
        rewrite Hio. fold (lastAttempt policy fetch (S a)).
        rewrite (schedule_step a).
        { unfold pause. subst d. reflexivity. }
        pose proof (lastAttempt_ge (S a) Hle). lia.
      * assert (Hl : forall x, last tr = Some x ->
                  last (Post a :: failure_logs (sendPayloadToWebhook fetch a) ++
                        LogRetrying (S a) d :: Sleep (d + jitter random a) :: tr) = Some x).
        { intros x Hx. rewrite last_cons, last_app, !last_cons, Hx. reflexivity. }
        destruct (firstOk fetch (S a) (S (maxRetries policy) - S a));
          destruct Hend as [H1 H2]; split; auto.
    + assert (a = maxRetries policy) by lia. subst a.
      destruct fuel as [|fuel]; [lia|].
      rewrite sendLoop_exhausted. cbn [fst snd].
      rewrite Nat.sub_diag. simpl firstOk. simpl default.
      eexists _, _. split; [reflexivity|]. split.
      * change (io (?x :: ?l)) with (x :: io l).
        rewrite io_app, io_failure_logs. rewrite schedule_same. reflexivity.
      * split; [reflexivity|].
        rewrite last_cons, last_app. reflexivity.
Qed.

Lemma posts_io (tr : list Action) : posts tr = posts (io tr).
Proof.
  unfold posts, io. induction tr as [|x tr IH]; [reflexivity|].
  destruct x; simpl; congruence.
Qed.

Lemma posts_schedule (a last : nat) :
  posts (schedule policy random a last) = S (last - a).
Proof.
  unfold schedule, posts. simpl. f_equal.
  generalize (last - a)%nat as n. intros n. revert a.
  induction n as [|n IH]; intros a; simpl; [reflexivity|].
  rewrite IH. reflexivity.
Qed.

(** [firstOk] finds the first 2xx: nothing before it was one. *)
Lemma firstOk_first (a n k : nat) :
  firstOk fetch a n = Some k ->
  forall j, (a <= j < k)%nat -> is_2xx fetch j = false.
Proof.
  revert a. induction n as [|n IH]; intros a; simpl; [discriminate|].
  destruct (is_2xx fetch a) eqn:E.
  - intros [= <-] j Hj. lia.
  - intros H j Hj. destruct (decide (j = a)) as [->|Hne]; [exact E|].
    apply (IH (S a) H). lia.
Qed.

Lemma firstOk_none (a n : nat) :
  firstOk fetch a n = None ->
  forall j, (a <= j < a + n)%nat -> is_2xx fetch j = false.
Proof.
  revert a. induction n as [|n IH]; intros a; simpl; [intros _ j Hj; lia|].
  destruct (is_2xx fetch a) eqn:E; [discriminate|].
  intros H j Hj. destruct (decide (j = a)) as [->|Hne]; [exact E|].
  apply (IH (S a) H). lia.
Qed.

Lemma sleep_in_trace (tr : list Action) (a last k : nat) :
  io tr = schedule policy random a last ->
  (a <= k < last)%nat ->
  In (Sleep (retryInterval policy * backoffFactor policy ^ Z.of_nat k + jitter random k)) tr.
Proof.
  intros Hio Hk.
  assert (Hin : In (Sleep (pause policy random k)) (io tr)).
  { rewrite Hio. unfold schedule. right. apply in_flat_map. exists k. split.
    - apply in_seq. lia.
    - left. reflexivity. }
  unfold io in Hin. apply filter_In in Hin as [Hin _]. exact Hin.
Qed.

End DispatcherFacts.

(** C3: with [Math.random()] in [0, 1), a delivery always returns (it never
    throws and never runs out of loop iterations).  It posts at most
    [maxRetries + 1] times: attempts [0 .. last], where [last] is the first
    attempt answered with 2xx, or [maxRetries] when none is.  Between
    attempt [k] and attempt [k + 1] it sleeps
    [retryInterval * backoffFactor ^ k] plus a jitter that is a whole
    number of milliseconds in [0, 1000), drawn evenly from the value of
    [Math.random()] for that retry: the jitter is [j] exactly when that
    value lies in [[j/1000, (j+1)/1000)], an interval of the same width for
    every [j].  When an attempt is answered with
    2xx the delivery returns that response; when none is, it has posted
    exactly [maxRetries + 1] times, its last act is the "FAILED" log line,
    and it returns [undefined].  This holds for every back-off factor. *)
Theorem sendToWebhook_bounded_retries
  (policy : Webhook.RetryPolicy) (fetch : nat -> Result Webhook.Response)
  (random : nat -> Q) :
  (forall k, (0 <= random k)%Q /\ (random k < 1)%Q) ->
  let firstSuccess := Webhook.firstOk fetch 0 (S (Webhook.maxRetries policy)) in
  let last_ := default (Webhook.maxRetries policy) firstSuccess in
  exists (res : option Webhook.Response) (tr : list Webhook.Action),
    Webhook.sendToWebhook policy fetch random = (Some (Ok res), tr) /\
    Webhook.posts tr = S last_ /\
    Webhook.posts tr <= Webhook.maxRetries policy + 1 /\
    Webhook.io tr = Webhook.schedule policy random 0 last_ /\
    (forall k, (0 <= Webhook.jitter random k < 1000)%Z) /\
    (forall k (j : Z),
       Webhook.jitter random k = j <->
       (j # 1000 <= random k)%Q /\ (random k < (j + 1) # 1000)%Q) /\
    (forall k, k < last_ ->
       exists j : Z,
         (j # 1000 <= random k)%Q /\ (random k < (j + 1) # 1000)%Q /\
         In (Webhook.Sleep
               (Webhook.retryInterval policy * Webhook.backoffFactor policy ^ Z.of_nat k
                + j))
            tr) /\
    match firstSuccess with
    | Some k =>
        (forall j, j < k -> Webhook.is_2xx fetch j = false) /\
        (exists r, fetch k = Ok r /\ Webhook.ok r = true /\ res = Some r) /\
        last tr = Some Webhook.LogSuccess
    | None =>
        Webhook.posts tr = Webhook.maxRetries policy + 1 /\
        res = None /\
        last tr = Some Webhook.LogFailed
    end.
Proof.
  intros Hrandom firstSuccess last_.
  destruct (sendLoop_spec policy fetch random
              (S (S (Webhook.maxRetries policy))) 0 (Webhook.retryInterval policy))
    as (res & tr & Heq & Hio & Hend).
  { lia. }
  { lia. }
  { simpl. lia. }
  assert (Hlast : Webhook.lastAttempt policy fetch 0 = last_).
  { unfold Webhook.lastAttempt, last_, firstSuccess. rewrite Nat.sub_0_r. reflexivity. }
  rewrite Hlast in Hio. rewrite Nat.sub_0_r in Hend. fold firstSuccess in Hend.
  assert (Hposts : Webhook.posts tr = S last_).
  { rewrite posts_io, Hio, posts_schedule. lia. }
  assert (Hbound : last_ <= Webhook.maxRetries policy).
  { pose proof (lastAttempt_ge policy fetch random 0) as Hb. specialize (Hb ltac:(lia)).
    rewrite Hlast in Hb. lia. }
  exists res, tr. split; [exact Heq|]. split; [exact Hposts|].
  split; [lia|]. split; [exact Hio|]. split.
  { intros k. apply jitter_range; apply Hrandom. }
  split.
  { intros k j. apply jitter_interval. }
  split.
  { intros k Hk. exists (Webhook.jitter random k).
    destruct (proj1 (jitter_interval random k (Webhook.jitter random k)) eq_refl)
      as [Hlo Hhi].
    split; [exact Hlo|]. split; [exact Hhi|].
    apply (sleep_in_trace policy random tr 0 last_ k Hio). lia. }
  subst last_. destruct firstSuccess as [k|] eqn:E.
  - destruct Hend as [Hr Hl]. split; [|split; assumption].
    intros j Hj. eapply firstOk_first; [exact E|lia].
  - destruct Hend as [Hr Hl]. simpl in Hposts. repeat split; try assumption. lia.
Qed.

Lemma sendToWebhook_bounded_retries_witness :
  (forall k, (0 <= Sample.half k)%Q /\ (Sample.half k < 1)%Q) /\
  (exists tr, Webhook.sendToWebhook Sample.policy Sample.flaky Sample.half
              = (Some (Ok (Some {| Webhook.ok := true; Webhook.status := 200 |})), tr) /\
              Webhook.io tr
              = [Webhook.Post 0; Webhook.Sleep 600; Webhook.Post 1;
                 Webhook.Sleep 700; Webhook.Post 2]) /\
  (exists tr, Webhook.sendToWebhook Sample.policy Sample.down Sample.half
              = (Some (Ok None), tr) /\ Webhook.posts tr = 4) /\
  (forall k, Webhook.jitter Sample.half k = 500%Z).
Proof.
  assert (Hhalf : forall k, (0 <= Sample.half k)%Q /\ (Sample.half k < 1)%Q).
  { intros k. split; [discriminate | reflexivity]. }
  split; [exact Hhalf|]. split; [|split].
  - destruct (sendToWebhook_bounded_retries Sample.policy Sample.flaky Sample.half Hhalf)
      as (res & tr & Heq & _ & _ & Hio & _ & _ & _ & Hend).
    exists tr. split; [|exact Hio].
    rewrite Heq. simpl in Hend. destruct Hend as (_ & (r & Hr & _ & ->) & _).
    injection Hr as <-. reflexivity.
  - destruct (sendToWebhook_bounded_retries Sample.policy Sample.down Sample.half Hhalf)
      as (res & tr & Heq & _ & _ & _ & _ & _ & _ & Hend).
    exists tr. simpl in Hend. destruct Hend as (Hp & -> & _).
    split; [exact Heq | exact Hp].
  - intros k.
    destruct (sendToWebhook_bounded_retries Sample.policy Sample.down Sample.half Hhalf)
      as (res & tr & _ & _ & _ & _ & _ & Hj & _).
    apply Hj. split; [discriminate | reflexivity].
Defined.

(** ** The handler: [connect] and dispatch *)

Lemma perform_not_connected (env : Env) (op : Handler.Operation)
  (s : BaileysConnection) (w : World) :
  socket s = None ->
  Handler.perform env op (s, w) = (Throw BaileysNotConnectedError, (s, w)).
Proof.
  intros H.
  destruct op;
    unfold Handler.perform, bind, Connection.sendPresenceUpdate,
      Connection.sendMessage, Connection.readMessages, Connection.chatModify,
      Connection.fetchMessageHistory, Connection.sendReceipts,
      Connection.profilePictureUrl, Connection.onWhatsApp,
      Connection.safeSocket, bind, Connection.this;
    simpl; rewrite H; reflexivity.
Qed.

Lemma set_objects_insert_id (ref : nat) (s : BaileysConnection) (w : World) :
  objects w !! ref = Some s -> set_objects (<[ref := s]>) w = w.
Proof.
  intros H. destruct w. unfold set_objects. simpl in *. f_equal. apply insert_id. exact H.
Qed.

Ltac js_unfold :=
  unfold Connection.log;
  unfold Connection.world, Connection.setThis, Connection.getWorld,
    Connection.this, Connection.lift;
  unfold bind, ret, throw, try_catch, get, modify.

Lemma dispatch_not_connected (env : Env) (phone : string) (op : Handler.Operation)
  (w : World) (ref : nat) (s : BaileysConnection) :
  connections w !! phone = Some ref ->
  objects w !! ref = Some s ->
  socket s = None ->
  Handler.dispatch env phone op w = (Throw BaileysNotConnectedError, w).
Proof.
  intros Hc Ho Hs.
  unfold Handler.dispatch, Handler.getConnection, Handler.call. js_unfold.
  rewrite Hc. cbn. rewrite Ho. rewrite (perform_not_connected env op s w Hs).
  rewrite (set_objects_insert_id ref s w Ho). reflexivity.
Qed.

(** C9: when [makeWASocket] throws during [connect] for a phone number
    that has no registry entry, [connect] still resolves, and the number
    ends up registered: the entry points to the new connection object,
    whose socket is [null].  (The close callback ran before the entry was
    written and had nothing to remove: the registry is the old one plus
    the new entry, and a callback of the caller's has been called.)  Every
    operation then dispatched for that
    number finds the entry and fails with [BaileysNotConnectedError],
    leaving the world as it is. *)
Theorem connect_registers_dead_connection
  (env : Env) (phone : string) (options : BaileysConnectionOptions)
  (w : World) (message : string) :
  connections w !! phone = None ->
  makeWASocket env (socketsMade w) = Rejected message ->
  exists (w' : World) (s' : BaileysConnection),
    Handler.connect env phone options w = (Ok tt, w') /\
    connections w' !! phone = Some (nextObject w) /\
    objects w' !! nextObject w = Some s' /\
    socket s' = None /\
    (opt_onConnectionClose options = None ->
     connections w' = <[phone := nextObject w]> (connections w)) /\
    (forall tag, opt_onConnectionClose options = Some (External tag) ->
     connections w' = <[phone := nextObject w]> (connections w) /\
     callbacks w' = (callbacks w ++ [tag])%list) /\
    forall (env' : Env) (op : Handler.Operation),
      Handler.dispatch env' phone op w' = (Throw BaileysNotConnectedError, w').
Proof.
  intros Hnone Hmk.
  unfold Handler.connect, Handler.connect_begin, bind, get. rewrite Hnone.
  unfold Handler.create, Handler.alloc, bind, ret. cbn [Handler.connect_resume].
  unfold bind, Handler.call. cbn [objects set_nextObject set_objects].
  rewrite lookup_insert_eq.
  unfold Connection.connect, Connection.callOnConnectionClose. js_unfold.
  cbn. rewrite Hmk. cbn.
  eexists _, _. split; [reflexivity|].
  assert (Hc : forall x : World,
             connections (set_connections <[phone:=nextObject w]> x) !! phone
             = Some (nextObject w)).
  { intros x. cbn. apply lookup_insert_eq. }
  split; [apply Hc|].
  assert (Ho : forall x : World, objects (set_connections <[phone:=nextObject w]>
        (set_objects <[nextObject w:=Session.set_clearAuthState (Some phone)
                            (Session.new phone (Handler.withDeregister phone options))]> x)) !! nextObject w
        = Some (Session.set_clearAuthState (Some phone)
                            (Session.new phone (Handler.withDeregister phone options)))).
  { intros x. cbn. apply lookup_insert_eq. }
  split; [apply Ho|]. split; [reflexivity|]. split.
  - intros ->. cbn. rewrite delete_id by exact Hnone. reflexivity.
  - split.
    + intros tag ->. cbn. rewrite delete_id by exact Hnone. split; reflexivity.
    + intros env' op.
      eapply dispatch_not_connected; [apply Hc|apply Ho|reflexivity].
Qed.

Lemma connect_registers_dead_connection_witness :
  connections emptyWorld !! Sample.phone = None /\
  makeWASocket Sample.envNoSocket (socketsMade emptyWorld)
    = Rejected "socket creation failed" /\
  exists w',
    Handler.connect Sample.envNoSocket Sample.phone Sample.options emptyWorld
      = (Ok tt, w') /\
    connections w' !! Sample.phone = Some 0 /\
    Handler.dispatch Sample.env Sample.phone (Handler.ReadMessages "keys") w'
      = (Throw BaileysNotConnectedError, w').
Proof.
  assert (H1 : connections emptyWorld !! Sample.phone = None) by reflexivity.
  assert (H2 : makeWASocket Sample.envNoSocket (socketsMade emptyWorld)
               = Rejected "socket creation failed") by reflexivity.
  split; [exact H1|]. split; [exact H2|].
  destruct (connect_registers_dead_connection Sample.envNoSocket Sample.phone
              Sample.options emptyWorld _ H1 H2)
    as (w' & s' & Hc & Hl & _ & _ & _ & _ & Hd).
  exists w'. split; [exact Hc|]. split; [exact Hl|]. apply Hd.
Defined.

Lemma sendPresenceUpdate_frame (env : Env) (type : WAPresence) (toJid : option string)
  (s s' : BaileysConnection) (w w' : World) (r : Result unit) :
  Connection.sendPresenceUpdate env type toJid (s, w) = (r, (s', w')) ->
  connections w' = connections w /\ objects w' = objects w /\
  nextObject w' = nextObject w /\
  (r = Throw BaileysNotConnectedError <-> socket s = None) /\
  (socket s = None -> s' = s /\ w' = w) /\
  socket s' = socket s /\ phoneNumber s' = phoneNumber s.
Proof.
  destruct s as [ph cn wu wt ir im sf occ [sock|] cas cot rc].
  - unfold Connection.sendPresenceUpdate, Connection.safeSocket, Connection.invoke.
    js_unfold. cbn.
    destruct (sock_creds_me sock); cbn.
    + destruct (transport env (length (transportCalls w))
                  (TSendPresenceUpdate type toJid)) as [x|m]; cbn.
      * destruct cot as [h|], type; cbn; intros [= <- <- <-]; cbn;
          repeat split; try discriminate; try congruence.
      * intros [= <- <- <-]; cbn; repeat split; try discriminate; try congruence.
    + intros [= <- <- <-]; cbn; repeat split; try discriminate; try congruence.
  - unfold Connection.sendPresenceUpdate, Connection.safeSocket. js_unfold. cbn.
    intros [= <- <- <-]. repeat split; try discriminate; try congruence.
Qed.

Lemma runCloseCallback_frame (cb : CloseCallback) :
  forall w,
    objects (Connection.runCloseCallback cb w) = objects w /\
    nextObject (Connection.runCloseCallback cb w) = nextObject w /\
    authStore (Connection.runCloseCallback cb w) = authStore w /\
    socketsMade (Connection.runCloseCallback cb w) = socketsMade w /\
    transportCalls (Connection.runCloseCallback cb w) = transportCalls w /\
    webhooks (Connection.runCloseCallback cb w) = webhooks w.
Proof.
  revert cb. fix IH 1. intros [phone [inner|]|id|tag] w; simpl.
  - destruct (IH inner (set_connections (delete phone) w)) as (H1 & H2 & H3 & H4 & H5 & H6).
    rewrite H1, H2, H3, H4, H5, H6. repeat split.
  - repeat split.
  - repeat split.
  - repeat split.
Qed.

Lemma connect_frame (env : Env) (s s' : BaileysConnection) (w w' : World)
  (r : Result unit) :
  Connection.connect env (s, w) = (r, (s', w')) ->
  r = Ok tt /\ objects w' = objects w /\ nextObject w' = nextObject w /\
  authStore w' = authStore w /\
  phoneNumber s' = phoneNumber s /\ webhookUrl s' = webhookUrl s /\
  reconnectCount s' = reconnectCount s /\
  onConnectionClose s' = onConnectionClose s.
Proof.
  destruct s as [ph cn wu wt ir im sf occ [sock|] cas cot rc];
    unfold Connection.connect, Connection.callOnConnectionClose; js_unfold; cbn.
  - intros [= <- <- <-]. repeat split.
  - destruct (makeWASocket env (socketsMade w)) as [sock|m]; cbn.
    + intros [= <- <- <-]. repeat split.
    + destruct occ as [cb|]; cbn; intros [= <- <- <-]; cbn.
      * match goal with |- context [Connection.runCloseCallback cb ?x] =>
          destruct (runCloseCallback_frame cb x) as (H1 & H2 & H3 & _) end.
        rewrite H1, H2, H3. repeat split.
      * repeat split.
Qed.

Section ExistingEntry.

Variable env : Env.
Variable phone : string.
Variable options : BaileysConnectionOptions.
Variable w : World.
Variable ref : nat.
Variable s : BaileysConnection.
Hypothesis Hc : connections w !! phone = Some ref.
Hypothesis Ho : objects w !! ref = Some s.

Lemma probe_eq (r : Result unit) (s' : BaileysConnection) (w' : World) :
  Connection.sendPresenceUpdate env available None
    (Session.updateOptions options s,
     set_objects <[ref := Session.updateOptions options s]> w)
  = (r, (s', w')) ->
  probe env ref options w = (r, set_objects <[ref := s']> w').
Proof using Ho.
  intros E. unfold probe, bind. unfold Handler.call at 1. rewrite Ho.
  unfold Connection.setThis, modify. cbn [fst snd].
  unfold Handler.call. cbn [objects set_objects]. rewrite lookup_insert_eq.
  rewrite E. reflexivity.
Qed.

Lemma connect_begin_eq (r : Result unit) (s' : BaileysConnection) (w' : World) :
  Connection.sendPresenceUpdate env available None
    (Session.updateOptions options s,
     set_objects <[ref := Session.updateOptions options s]> w)
  = (r, (s', w')) ->
  Handler.connect_begin env phone options w =
  match r with
  | Ok _ => (Ok None, set_objects <[ref := s']> w')
  | Throw e =>
      if instanceof_BaileysNotConnectedError e
      then Handler.create phone options
             (set_connections (delete phone) (set_objects <[ref := s']> w'))
      else (Throw e, set_objects <[ref := s']> w')
  end.
Proof using Hc Ho.
  intros E. unfold Handler.connect_begin. unfold bind at 1. unfold get. rewrite Hc.
  unfold bind at 1. unfold Handler.call at 1. rewrite Ho.
  unfold Connection.setThis, modify. cbn [fst snd].
  unfold try_catch, bind, Handler.call. cbn [objects set_objects].
  rewrite lookup_insert_eq. rewrite E.
  destruct r as [[]|e]; [reflexivity|].
  destruct (instanceof_BaileysNotConnectedError e); reflexivity.
Qed.

End ExistingEntry.

Lemma connect_on_entry (env : Env) (phone : string)
  (options : BaileysConnectionOptions) (w : World) (ref : nat) (s : BaileysConnection) :
  connections w !! phone = Some ref ->
  objects w !! ref = Some s ->
  let probed := probe env ref options w in
  (is_Some (socket s) ->
     Handler.connect env phone options w = probed /\
     fst probed <> Throw BaileysNotConnectedError /\
     connections (snd probed) = connections w /\
     nextObject (snd probed) = nextObject w /\
     dom (objects (snd probed)) = dom (objects w)) /\
  (socket s = None ->
     fst probed = Throw BaileysNotConnectedError /\
     exists (w' : World) (fresh : BaileysConnection),
       Handler.connect env phone options w = (Ok tt, w') /\
       connections w' !! phone = Some (nextObject w) /\
       objects w' !! nextObject w = Some fresh /\
       phoneNumber fresh = phone /\
       webhookUrl fresh = opt_webhookUrl options /\
       nextObject w' = S (nextObject w)).
Proof.
  intros Hc Ho probed. subst probed.
  destruct (Connection.sendPresenceUpdate env available None
              (Session.updateOptions options s,
               set_objects <[ref:=Session.updateOptions options s]> w))
    as [r [s' w']] eqn:E.
  rewrite (probe_eq env options w ref s Ho r s' w' E).
  unfold Handler.connect, bind.
  rewrite (connect_begin_eq env phone options w ref s Hc Ho r s' w' E).
  apply sendPresenceUpdate_frame in E.
  destruct E as (Econn & Eobj & Enext & Enc & Edead & Esock & Ephone).
  cbn [socket Session.updateOptions connections objects nextObject set_objects]
    in Econn, Eobj, Enext, Enc, Edead.
  assert (Hdom : dom (objects (set_objects <[ref:=s']> w')) = dom (objects w)).
  { cbn. rewrite Eobj, insert_insert_eq, dom_insert_L.
    apply subseteq_union_1_L, singleton_subseteq_l.
    apply elem_of_dom_2 in Ho. exact Ho. }
  split.
  - intros [sock Hs].
    assert (Hr : r <> Throw BaileysNotConnectedError).
    { intros Hr. apply Enc in Hr. congruence. }
    destruct r as [[]|e]; cbn [fst snd].
    + repeat split; auto.
    + destruct e; cbn; try congruence; repeat split; auto.
  - intros Hs. destruct (Edead Hs) as [E1 E2]. subst s' w'.
    assert (Hr : r = Throw BaileysNotConnectedError) by (apply Enc; exact Hs).
    subst r. cbn [fst snd instanceof_BaileysNotConnectedError]. split; [reflexivity|].
    unfold Handler.create, Handler.alloc, bind, ret.
    cbn [Handler.connect_resume]. unfold bind, modify, Handler.call.
    cbn [nextObject objects set_objects set_connections set_nextObject].
    rewrite lookup_insert_eq.
    destruct (Connection.connect env _) as [r2 [s2 w2]] eqn:E2.
    apply connect_frame in E2.
    destruct E2 as (-> & E2o & E2n & _ & E2p & E2w & _).
    cbn in E2n, E2p, E2w.
    eexists _, _. split; [reflexivity|]. cbn.
    rewrite !lookup_insert_eq. repeat split; auto.
Qed.





(** ** The connection-update handler *)

Lemma close_spec (s : BaileysConnection) (w : World) :
  Connection.close (s, w) = (Ok tt, (closed s, closedWorld s w)).
Proof.
  destruct s as [ph cn wu wt ir im sf [cb|] sk [id|] cot rc];
    unfold Connection.close, Connection.callOnConnectionClose; js_unfold; reflexivity.
Qed.


Lemma handleReconnecting_spec (s : BaileysConnection) (w : World) :
  Connection.handleReconnecting (s, w) =
  if (10 <? reconnectCount s + 1)%nat then
    Connection.close
      (Session.set_reconnectCount (reconnectCount s + 1) s,
       set_logs (logs w ++ [LogWarn (phoneNumber s) "handleReconnecting"]) w)
  else
    (Ok tt, (Session.set_reconnectCount (reconnectCount s + 1) s,
             set_webhooks (webhooks w ++ [reconnectingCall s]) w)).
Proof.
  unfold Connection.handleReconnecting, Connection.sendToWebhook. js_unfold.
  cbn [fst snd].
  destruct (10 <? reconnectCount s + 1)%nat; reflexivity.
Qed.


Lemma connect_spec (env : Env) (s : BaileysConnection) (w : World) :
  socket s = None ->
  Connection.connect env (s, w) =
  match makeWASocket env (socketsMade w) with
  | Resolved sock =>
      (Ok tt, (Session.set_socket (Some sock)
                 (Session.set_clearAuthState (Some (phoneNumber s)) s),
               set_socketsMade (S (socketsMade w)) w))
  | Rejected message =>
      (Ok tt, (Session.set_clearAuthState (Some (phoneNumber s)) s,
               firedWorld s
                 (set_logs (logs w ++ [LogError (phoneNumber s)
                                         "BaileysConnection.connect"
                                         (JsError message)])
                    (set_socketsMade (S (socketsMade w)) w))))
  end.
Proof.
  intros Hs. destruct s as [ph cn wu wt ir im sf occ sk cas cot rc].
  cbn in Hs. subst sk.
  unfold Connection.connect, Connection.callOnConnectionClose, firedWorld. js_unfold. cbn.
  destruct (makeWASocket env (socketsMade w)) as [sock|m]; cbn; [reflexivity|].
  destruct occ; reflexivity.
Qed.


Lemma logout_spec (env : Env) (s : BaileysConnection) (w : World) :
  exists w1,
    Connection.logout env (s, w) = Connection.close (s, w1) /\
    connections w1 = connections w /\ authStore w1 = authStore w /\
    callbacks w1 = callbacks w /\ webhooks w1 = webhooks w /\
    socketsMade w1 = socketsMade w.
Proof.
  unfold Connection.logout, Connection.safeSocket, Connection.invoke. js_unfold.
  cbn [fst snd].
  destruct (socket s) as [sock|]; cbn [fst snd].
  - destruct (transport env (length (transportCalls w)) TLogout) as [x|m];
      cbn [fst snd]; eexists; (split; [reflexivity|]); repeat split.
  - eexists; (split; [reflexivity|]); repeat split.
Qed.


Lemma forwardUpdate_frame (env : Env) (data : ConnectionUpdate)
  (s : BaileysConnection) (w : World) :
  Connection.wrongPhoneNumber env s data = false ->
  let out := Connection.forwardUpdate env data (s, w) in
  (fst (snd out) = s \/ fst (snd out) = Session.set_reconnectCount 0 s) /\
  reconnectCount (fst (snd out)) = expectedAfterForward env s data /\
  connections (snd (snd out)) = connections w /\
  authStore (snd (snd out)) = authStore w /\
  callbacks (snd (snd out)) = callbacks w /\
  socketsMade (snd (snd out)) = socketsMade w.
Proof.
  intros Hw. unfold expectedAfterForward. rewrite Hw.
  unfold Connection.forwardUpdate, Connection.sendToWebhook. js_unfold.
  cbn [fst snd]. rewrite Hw.
  destruct (Connection.qr_code data) as [q|]; cbn [fst snd mbind option_bind].
  - destruct (toDataURL env q) as [url|m]; cbn [fst snd].
    + destruct (bool_decide (Connection.shapedConnection data = Some ConnOpen));
        cbn; repeat split; auto.
    + repeat split; auto.
  - destruct (bool_decide (Connection.shapedConnection data = Some ConnOpen));
      cbn; repeat split; auto.
Qed.


Lemma handleWrongPhoneNumber_closes (env : Env) (s : BaileysConnection) (w : World) :
  exists w1,
    Connection.handleWrongPhoneNumber env (s, w) = Connection.close (s, w1) /\
    connections w1 = connections w /\ authStore w1 = authStore w /\
    callbacks w1 = callbacks w /\ socketsMade w1 = socketsMade w.
Proof.
  unfold Connection.handleWrongPhoneNumber, Connection.sendToWebhook. js_unfold.
  cbn [fst snd].
  destruct (socket s) as [sock|]; cbn [fst snd].
  - match goal with |- context [Connection.logout env (?a, ?b)] =>
      destruct (logout_spec env a b) as (w1 & -> & H1 & H2 & H3 & H4 & H5) end.
    exists w1. repeat split; auto.
  - match goal with |- context [Connection.logout env (?a, ?b)] =>
      destruct (logout_spec env a b) as (w1 & -> & H1 & H2 & H3 & H4 & H5) end.
    exists w1. repeat split; auto.
Qed.


Section Branches.


Variable env : Env.


Variable data : ConnectionUpdate.


Variable s : BaileysConnection.


Variable w : World.


Lemma hcu_reconnecting :
  Connection.isReconnecting s data = true ->
  Connection.handleConnectionUpdate env data (s, w)
  = Connection.handleReconnecting (Session.set_isReconnect false s, w).
Proof.
  intros H. unfold Connection.handleConnectionUpdate. js_unfold. cbn [fst snd].
  rewrite H. reflexivity.
Qed.


Lemma handleReconnecting_ok (s0 : BaileysConnection) (w0 : World) :
  fst (Connection.handleReconnecting (s0, w0)) = Ok tt.
Proof.
  rewrite handleReconnecting_spec.
  destruct (10 <? reconnectCount s0 + 1)%nat; [rewrite close_spec|]; reflexivity.
Qed.


Lemma hcu_close_recoverable (error : DisconnectError) :
  Connection.isReconnecting s data = false ->
  connection data = Some ConnClose ->
  lastDisconnect data ≫= ld_error = Some error ->
  Connection.shouldReconnect error = true ->
  Connection.handleConnectionUpdate env data (s, w)
  = let out := Connection.handleReconnecting (s, w) in
    Connection.connect env (Session.set_socket None (fst (snd out)), snd (snd out)).
Proof.
  intros H Hc He Hr. unfold Connection.handleConnectionUpdate, Connection.handleClose.
  js_unfold. cbn [fst snd]. rewrite H, Hc. cbn [bool_decide decide_rel].
  rewrite bool_decide_eq_true_2 by reflexivity.
  rewrite He, Hr.
  pose proof (handleReconnecting_ok s w) as Hok.
  destruct (Connection.handleReconnecting (s, w)) as [r [s1 w1]].
  cbn in Hok. subst r. cbn [fst snd].
  destruct (Connection.connect env _) as [r2 [s2 w2]] eqn:E.
  pose proof (connect_frame env _ _ _ _ _ E) as (-> & _). reflexivity.
Qed.


Lemma hcu_close_terminal (error : DisconnectError) :
  Connection.isReconnecting s data = false ->
  connection data = Some ConnClose ->
  lastDisconnect data ≫= ld_error = Some error ->
  Connection.shouldReconnect error = false ->
  Connection.handleConnectionUpdate env data (s, w)
  = Connection.forwardUpdate env data (closed s, closedWorld s w).
Proof.
  intros H Hc He Hr. unfold Connection.handleConnectionUpdate, Connection.handleClose.
  js_unfold. cbn [fst snd]. rewrite H, Hc.
  rewrite bool_decide_eq_true_2 by reflexivity.
  rewrite He, Hr. rewrite close_spec. reflexivity.
Qed.


Lemma hcu_close_malformed :
  Connection.isReconnecting s data = false ->
  connection data = Some ConnClose ->
  lastDisconnect data ≫= ld_error = None ->
  exists e, Connection.handleConnectionUpdate env data (s, w) = (Throw e, (s, w)).
Proof.
  intros H Hc He. unfold Connection.handleConnectionUpdate, Connection.handleClose.
  js_unfold. cbn [fst snd]. rewrite H, Hc.
  rewrite bool_decide_eq_true_2 by reflexivity.
  rewrite He. eexists. reflexivity.
Qed.


Lemma hcu_not_close :
  Connection.isReconnecting s data = false ->
  connection data <> Some ConnClose ->
  Connection.handleConnectionUpdate env data (s, w)
  = Connection.forwardUpdate env data (s, w).
Proof.
  intros H Hc. unfold Connection.handleConnectionUpdate, Connection.handleClose.
  js_unfold. cbn [fst snd]. rewrite H.
  rewrite bool_decide_eq_false_2 by exact Hc. reflexivity.
Qed.


End Branches.


Lemma runCloseCallback_lookup_None (cb : CloseCallback) :
  forall (w : World) (k : string),
    connections w !! k = None ->
    connections (Connection.runCloseCallback cb w) !! k = None.
Proof.
  revert cb. fix IH 1. intros [phone [inner|]|id|tag] w k Hk; simpl.
  - apply IH. cbn. rewrite lookup_delete_None. right. exact Hk.
  - rewrite lookup_delete_None. right. exact Hk.
  - rewrite lookup_delete_None. right. exact Hk.
  - exact Hk.
Qed.


Lemma runCloseCallback_deregisters (phone : string) (inner : option CloseCallback)
  (w : World) :
  connections (Connection.runCloseCallback (DeregisterThen phone inner) w) !! phone
  = None.
Proof.
  simpl. destruct inner as [cb|].
  - apply runCloseCallback_lookup_None. cbn. apply lookup_delete_eq.
  - cbn. apply lookup_delete_eq.
Qed.


Lemma closedWorld_authStore (s : BaileysConnection) (w : World) (id : string) :
  clearAuthState s = Some id -> authStore (closedWorld s w) !! id = None.
Proof.
  intros H. unfold closedWorld, firedWorld, clearedWorld. rewrite H.
  destruct (onConnectionClose s) as [cb|].
  - destruct (runCloseCallback_frame cb (set_authStore (delete id) w))
      as (_ & _ & -> & _). cbn. apply lookup_delete_eq.
  - cbn. apply lookup_delete_eq.
Qed.


Lemma isReconnecting_close (s : BaileysConnection) (data : ConnectionUpdate) :
  connection data = Some ConnClose ->
  Connection.isReconnecting s data = to_bool (isNewLogin data).
Proof.
  intros H. unfold Connection.isReconnecting. rewrite H.
  rewrite bool_decide_eq_false_2 by discriminate.
  cbn. apply orb_false_r.
Qed.


Lemma wrongPhoneNumber_not_open (env : Env) (s : BaileysConnection)
  (data : ConnectionUpdate) :
  connection data <> Some ConnOpen -> Connection.wrongPhoneNumber env s data = false.
Proof.
  intros H. unfold Connection.wrongPhoneNumber.
  rewrite bool_decide_eq_false_2 by exact H. reflexivity.
Qed.


(** C4 (amended): a "close" update that carries a disconnect error and is
    not also flagged as a new login.  If the reason is recoverable, the
    reconnect count is below the ceiling and the new socket can be made:
    the stored credentials and the registry are untouched, a
    "reconnecting" webhook event is dispatched, and of the connection only
    the reconnect count (one more), the socket (the new one) and the
    credential handle (reloaded for the same number) are written.  If the
    reason is terminal: the credentials are cleared, the connection ends
    with no socket, no credential handle and a reconnect count of 0, and
    the on-close callback has run (the handler's callback has removed the
    registry entry). *)
Theorem close_event_effects
  (env : Env) (s : BaileysConnection) (w : World) (data : ConnectionUpdate)
  (error : DisconnectError) :
  connection data = Some ConnClose ->
  lastDisconnect data ≫= ld_error = Some error ->
  to_bool (isNewLogin data) = false ->
  let out := Connection.handleConnectionUpdate env data (s, w) in
  let s' := fst (snd out) in
  let w' := snd (snd out) in
  (Connection.shouldReconnect error = true ->
   reconnectCount s < 10 ->
   forall sock', makeWASocket env (socketsMade w) = Resolved sock' ->
     fst out = Ok tt /\
     authStore w' = authStore w /\
     connections w' = connections w /\
     s' = Session.set_socket (Some sock')
            (Session.set_clearAuthState (Some (phoneNumber s))
               (Session.set_reconnectCount (S (reconnectCount s)) s)) /\
     webhooks w' = (webhooks w ++ [reconnectingCall s])%list /\
     socketsMade w' = S (socketsMade w)) /\
  (Connection.shouldReconnect error = false ->
     socket s' = None /\ clearAuthState s' = None /\ reconnectCount s' = 0 /\
     (forall id, clearAuthState s = Some id -> authStore w' !! id = None) /\
     connections w' = connections (closedWorld s w) /\
     callbacks w' = callbacks (closedWorld s w) /\
     (forall inner,
        onConnectionClose s = Some (DeregisterThen (phoneNumber s) inner) ->
        connections w' !! phoneNumber s = None)).
Proof.
  intros Hc He Hn out s' w'. subst s' w' out.
  assert (Hrec : Connection.isReconnecting s data = false).
  { rewrite isReconnecting_close by exact Hc. exact Hn. }
  split.
  - intros Hr Hlt sock' Hmk.
    rewrite (hcu_close_recoverable env data s w error Hrec Hc He Hr).
    rewrite handleReconnecting_spec.
    destruct (Nat.ltb_spec 10 (reconnectCount s + 1)) as [Hgt|_]; [lia|].
    cbn [fst snd]. rewrite connect_spec by reflexivity.
    cbn [socketsMade set_webhooks]. rewrite Hmk. cbn [fst snd].
    repeat split.
    replace (reconnectCount s + 1) with (S (reconnectCount s)) by lia.
    destruct s; reflexivity.
  - intros Hr.
    rewrite (hcu_close_terminal env data s w error Hrec Hc He Hr).
    assert (Hw : Connection.wrongPhoneNumber env (closed s) data = false).
    { apply wrongPhoneNumber_not_open. rewrite Hc. discriminate. }
    destruct (forwardUpdate_frame env data (closed s) (closedWorld s w) Hw)
      as (Hs & _ & Hconn & Hauth & Hcb & _).
    set (out := Connection.forwardUpdate env data (closed s, closedWorld s w)) in *.
    assert (Hs' : socket (fst (snd out)) = None /\
                  clearAuthState (fst (snd out)) = None /\
                  reconnectCount (fst (snd out)) = 0).
    { destruct Hs as [-> | ->]; repeat split. }
    destruct Hs' as (H1 & H2 & H3).
    split; [exact H1|]. split; [exact H2|]. split; [exact H3|].
    split.
    { intros id Hid. rewrite Hauth. apply closedWorld_authStore. exact Hid. }
    split; [exact Hconn|]. split; [exact Hcb|].
    intros inner Hcbk. rewrite Hconn. unfold closedWorld, firedWorld.
    rewrite Hcbk. apply runCloseCallback_deregisters.
Qed.


Lemma close_event_effects_witness :
  let error :=
    {| output := Some {| statusCode := 428;
                         payload_message := Some "Connection Closed" |};
       err_message := "Connection Closed" |} in
  let out := Connection.handleConnectionUpdate Sample.env Sample.connectionClosed
               (Sample.connected, Sample.world) in
  connection Sample.connectionClosed = Some ConnClose /\
  lastDisconnect Sample.connectionClosed ≫= ld_error = Some error /\
  to_bool (isNewLogin Sample.connectionClosed) = false /\
  Connection.shouldReconnect error = true /\
  authStore (snd (snd out)) = authStore Sample.world /\
  connections (snd (snd out)) = connections Sample.world /\
  socket (fst (snd out)) = Some (Sample.sock 1) /\
  reconnectCount (fst (snd out)) = 1.
Proof.
  intros error out.
  assert (H1 : connection Sample.connectionClosed = Some ConnClose) by reflexivity.
  assert (H2 : lastDisconnect Sample.connectionClosed ≫= ld_error = Some error)
    by reflexivity.
  assert (H3 : to_bool (isNewLogin Sample.connectionClosed) = false) by reflexivity.
  assert (H4 : Connection.shouldReconnect error = true) by (vm_compute; reflexivity).
  assert (H5 : reconnectCount Sample.connected < 10) by (simpl; lia).
  assert (H6 : makeWASocket Sample.env (socketsMade Sample.world)
               = Resolved (Sample.sock 1)) by reflexivity.
  destruct (close_event_effects Sample.env Sample.connected Sample.world
              Sample.connectionClosed error H1 H2 H3) as [Hrec _].
  destruct (Hrec H4 H5 (Sample.sock 1) H6) as (_ & Ha & Hc & Hs & _).
  fold out in Ha, Hc, Hs.
  split; [exact H1|]. split; [exact H2|]. split; [exact H3|]. split; [exact H4|].
  split; [exact Ha|]. split; [exact Hc|]. rewrite Hs. split; reflexivity.
Defined.

(** C4, as stated, fails: after a close with a recoverable reason the
    connection differs from the one before in more than its socket (its
    reconnect count went from 0 to 1). *)
Lemma recoverable_close_changes_more_than_socket :
  let error :=
    {| output := Some {| statusCode := 428;
                         payload_message := Some "Connection Closed" |};
       err_message := "Connection Closed" |} in
  let out := Connection.handleConnectionUpdate Sample.env Sample.connectionClosed
               (Sample.connected, Sample.world) in
  lastDisconnect Sample.connectionClosed ≫= ld_error = Some error /\
  Connection.shouldReconnect error = true /\
  ~ exists sock, fst (snd out) = Session.set_socket sock Sample.connected.
Proof.
  intros error out. split; [reflexivity|]. split; [vm_compute; reflexivity|].
  intros [sock H]. apply (f_equal reconnectCount) in H.
  vm_compute in H. discriminate.
Qed.

Lemma withErrorHandling_this (name : string) (h : M Connection.St unit)
  (st : Connection.St) :
  fst (Connection.withErrorHandling name h st) = Ok tt /\
  fst (snd (Connection.withErrorHandling name h st)) = fst (snd (h st)).
Proof.
  unfold Connection.withErrorHandling. js_unfold.
  destruct (h st) as [[[]|e] [s' w']]; split; reflexivity.
Qed.


Lemma handleReconnecting_count (s : BaileysConnection) (w : World) :
  reconnectCount (fst (snd (Connection.handleReconnecting (s, w)))) = bumped s.
Proof.
  rewrite handleReconnecting_spec. unfold bumped.
  destruct (10 <? reconnectCount s + 1)%nat; [rewrite close_spec|]; reflexivity.
Qed.


Lemma forwardUpdate_count (env : Env) (data : ConnectionUpdate)
  (s : BaileysConnection) (w : World) :
  reconnectCount (fst (snd (Connection.forwardUpdate env data (s, w))))
  = expectedAfterForward env s data.
Proof.
  destruct (Connection.wrongPhoneNumber env s data) eqn:Hw.
  - unfold expectedAfterForward. rewrite Hw.
    unfold Connection.forwardUpdate. js_unfold. cbn [fst snd]. rewrite Hw.
    destruct (handleWrongPhoneNumber_closes env s w) as (w1 & -> & _).
    rewrite close_spec. reflexivity.
  - apply forwardUpdate_frame. exact Hw.
Qed.


Lemma handleConnectionUpdate_count (env : Env) (data : ConnectionUpdate)
  (s : BaileysConnection) (w : World) :
  reconnectCount (fst (snd (Connection.handleConnectionUpdate env data (s, w))))
  = expectedCount env s data.
Proof.
  unfold expectedCount.
  destruct (Connection.isReconnecting s data) eqn:Hrec.
  - rewrite hcu_reconnecting by exact Hrec. rewrite handleReconnecting_count.
    reflexivity.
  - destruct (decide (connection data = Some ConnClose)) as [Hc|Hc].
    + rewrite bool_decide_eq_true_2 by exact Hc.
      destruct (lastDisconnect data ≫= ld_error) as [error|] eqn:He.
      * destruct (Connection.shouldReconnect error) eqn:Hr.
        -- rewrite (hcu_close_recoverable env data s w error Hrec Hc He Hr).
           cbn zeta.
           destruct (Connection.connect env _) as [r2 [s2 w2]] eqn:E.
           pose proof (connect_frame env _ _ _ _ _ E) as (_ & _ & _ & _ & _ & _ & Hcount & _).
           cbn [fst snd]. rewrite Hcount. cbn [reconnectCount Session.set_socket].
           apply handleReconnecting_count.
        -- rewrite (hcu_close_terminal env data s w error Hrec Hc He Hr).
           rewrite forwardUpdate_count. unfold expectedAfterForward.
           rewrite wrongPhoneNumber_not_open by (rewrite Hc; discriminate).
           destruct (Connection.qr_code data ≫= _); [reflexivity|].
           destruct (bool_decide _); reflexivity.
      * destruct (hcu_close_malformed env data s w Hrec Hc He) as [e ->].
        reflexivity.
    + rewrite bool_decide_eq_false_2 by exact Hc.
      rewrite hcu_not_close by assumption. apply forwardUpdate_count.
Qed.


Lemma fetchGroupNames_this (env : Env) (sock : Socket) (groupJids : list string) :
  forall (names : list (string * string)) (s : BaileysConnection) (w : World),
    fst (snd (Connection.fetchGroupNames env sock groupJids names (s, w))) = s.
Proof.
  induction groupJids as [|jid rest IH]; intros names s w; [reflexivity|].
  cbn [Connection.fetchGroupNames]. unfold Connection.invoke. js_unfold.
  cbn [fst snd].
  destruct (transport env (length (transportCalls w)) (TGroupMetadata jid)) as [subject|m];
    cbn [fst snd]; apply IH.
Qed.


Lemma handleMessagesUpsert_this (env : Env) (messages : list WAMessage)
  (s : BaileysConnection) (w : World) :
  fst (snd (Connection.handleMessagesUpsert env messages (s, w))) = s.
Proof.
  unfold Connection.handleMessagesUpsert, Connection.sendToWebhook. js_unfold.
  cbn [fst snd].
  destruct (downloadMediaFromMessages env messages (includeMedia s)) as [media|m];
    cbn [fst snd]; [|reflexivity].
  destruct (Connection.collectGroupJids messages) as [|j l], (socket s) as [sock|];
    cbn [fst snd]; try reflexivity.
  pose proof (fetchGroupNames_this env sock (j :: l) [] s w) as H.
  destruct (Connection.fetchGroupNames env sock (j :: l) [] (s, w)) as [[names|e] [s1 w1]];
    cbn [fst snd] in *; exact H.
Qed.


(** C8 (amended): what an event does to [reconnectCount].  A connection
    update leaves it at [expectedCount]: one more on each entry into
    RECONNECTING (a reconnect signal, a close with a recoverable reason),
    0 when that exceeds the ceiling or the connection otherwise closes, 0
    when the update is forwarded with state "open" -- which an online
    ping is, whatever the state of the connection -- and unchanged
    otherwise.  No other event changes it. *)
Theorem reconnectCount_after_event (env : Env) (ev : Connection.TransportEvent)
  (s : BaileysConnection) (w : World) :
  reconnectCount (fst (snd (Connection.emit env ev (s, w)))) =
  match ev with
  | Connection.EvConnectionUpdate data => expectedCount env s data
  | _ => reconnectCount s
  end.
Proof.
  unfold Connection.emit.
  destruct ev as [data|creds|messages|data|data|data|event data];
    cbn [Connection.listener].
  - pose proof (withErrorHandling_this "handleConnectionUpdate"
                  (Connection.handleConnectionUpdate env data) (s, w)) as [Hok Hthis].
    destruct (Connection.withErrorHandling _ _ _) as [[[]|e] st']; cbn [fst snd] in *;
      try discriminate.
    rewrite Hthis. apply handleConnectionUpdate_count.
  - unfold Connection.saveCreds. js_unfold. cbn [fst snd].
    destruct (saveCreds_error env (phoneNumber s)); reflexivity.
  - pose proof (withErrorHandling_this "handleMessagesUpsert"
                  (Connection.handleMessagesUpsert env messages) (s, w)) as [Hok Hthis].
    destruct (Connection.withErrorHandling _ _ _) as [[[]|e] st']; cbn [fst snd] in *;
      try discriminate.
    rewrite Hthis, handleMessagesUpsert_this. reflexivity.
  - reflexivity.
  - reflexivity.
  - unfold Connection.withErrorHandling, Connection.handleMessagingHistorySet,
      Connection.sendToWebhook. js_unfold. cbn [fst snd].
    destruct (syncFullHistory s); reflexivity.
  - destruct (_ && _); reflexivity.
Qed.

(** C8, as stated, fails: an online ping -- an update with no
    [connection] field, which is no reconnect signal and after which the
    connection still holds the same socket -- resets a reconnect count
    of 3 to 0. *)
Lemma online_ping_resets_reconnectCount :
  let s := Session.set_reconnectCount 3 Sample.connected in
  let out := Connection.emit Sample.env
               (Connection.EvConnectionUpdate Sample.onlinePing)
               (s, Sample.world) in
  connection Sample.onlinePing = None /\
  Connection.isReconnecting s Sample.onlinePing = false /\
  socket (fst (snd out)) = socket s /\
  reconnectCount (fst (snd out)) <> reconnectCount s.
Proof.
  intros s out. split; [reflexivity|]. split; [reflexivity|].
  split; [vm_compute; reflexivity|]. vm_compute. discriminate.
Qed.

(** ** The reconnect ceiling *)

(** A reconnect signal that takes the count past the ceiling closes the
    connection and makes no socket. *)
Lemma ceiling_breach_on_signal_closes
  (env : Env) (data : ConnectionUpdate) (s : BaileysConnection) (w : World) :
  Connection.isReconnecting s data = true ->
  10 <= reconnectCount s ->
  let out := Connection.handleConnectionUpdate env data (s, w) in
  socket (fst (snd out)) = None /\
  socketsMade (snd (snd out)) = socketsMade w /\
  reconnectCount (fst (snd out)) = 0.
Proof.
  intros Hrec Hc out. subst out.
  rewrite hcu_reconnecting by exact Hrec. rewrite handleReconnecting_spec.
  cbn [reconnectCount Session.set_isReconnect].
  destruct (Nat.ltb_spec 10 (reconnectCount s + 1)) as [_|Hle]; [|lia].
  rewrite close_spec. cbn [fst snd]. split; [reflexivity|]. split; [|reflexivity].
  unfold closedWorld, firedWorld, clearedWorld. cbn.
  destruct (onConnectionClose s) as [cb|], (clearAuthState s) as [id|];
    try reflexivity;
    match goal with |- context [Connection.runCloseCallback cb ?x] =>
      destruct (runCloseCallback_frame cb x) as (_ & _ & _ & -> & _) end;
    reflexivity.
Qed.

(** A close with a recoverable reason that takes the count past the
    ceiling closes the connection as well -- and then makes a new socket
    for it. *)
Lemma ceiling_breach_on_close_reconnects
  (env : Env) (data : ConnectionUpdate) (error : DisconnectError)
  (s : BaileysConnection) (w : World) (sock' : Socket) :
  connection data = Some ConnClose ->
  lastDisconnect data ≫= ld_error = Some error ->
  to_bool (isNewLogin data) = false ->
  Connection.shouldReconnect error = true ->
  10 <= reconnectCount s ->
  makeWASocket env (socketsMade w) = Resolved sock' ->
  let out := Connection.handleConnectionUpdate env data (s, w) in
  socket (fst (snd out)) = Some sock' /\
  socketsMade (snd (snd out)) = S (socketsMade w) /\
  reconnectCount (fst (snd out)) = 0 /\
  (forall id, clearAuthState s = Some id -> authStore (snd (snd out)) !! id = None).
Proof.
  intros Hc He Hn Hr Hge Hmk out. subst out.
  assert (Hrec : Connection.isReconnecting s data = false).
  { rewrite isReconnecting_close by exact Hc. exact Hn. }
  rewrite (hcu_close_recoverable env data s w error Hrec Hc He Hr).
  rewrite handleReconnecting_spec.
  destruct (Nat.ltb_spec 10 (reconnectCount s + 1)) as [_|Hle]; [|lia].
  rewrite close_spec. cbn [fst snd]. rewrite connect_spec by reflexivity.
  set (w1 := set_logs _ w).
  assert (Hmade : socketsMade (closedWorld (Session.set_reconnectCount
                                               (reconnectCount s + 1) s) w1)
                  = socketsMade w).
  { unfold closedWorld, firedWorld, clearedWorld. cbn.
    destruct (onConnectionClose s) as [cb|], (clearAuthState s) as [id|];
      try reflexivity;
      match goal with |- context [Connection.runCloseCallback cb ?x] =>
        destruct (runCloseCallback_frame cb x) as (_ & _ & _ & -> & _) end;
      reflexivity. }
  rewrite Hmade, Hmk. cbn [fst snd]. repeat split.
  intros id Hid. cbn [authStore set_socketsMade].
  apply closedWorld_authStore. exact Hid.
Qed.

(** C2, at the failing input: a close with a recoverable reason arrives at
    a connection whose reconnect count is 10.  The count passes the
    ceiling and the connection is closed -- credentials cleared, registry
    entry removed, count back to 0 -- but the handler goes on to
    [this.connect()], and the connection ends up holding a second, newly
    made socket. *)
Lemma ceiling_breach_on_close_makes_socket :
  let out := Connection.handleConnectionUpdate Sample.env Sample.connectionClosed
               (Sample.atCeiling, Sample.world) in
  reconnectCount Sample.atCeiling = 10 /\
  socket Sample.atCeiling = Some (Sample.sock 0) /\
  connections Sample.world !! Sample.phone = Some 0 /\
  authStore (snd (snd out)) !! Sample.phone = None /\
  connections (snd (snd out)) !! Sample.phone = None /\
  reconnectCount (fst (snd out)) = 0 /\
  socket (fst (snd out)) = Some (Sample.sock 1) /\
  socketsMade (snd (snd out)) = S (socketsMade Sample.world).
Proof. vm_compute. repeat split; reflexivity. Qed.

(** ** Event listeners *)

Lemma withErrorHandling_settles (env : Env) (name : string)
  (h : M Connection.St unit) (st : Connection.St) :
  fst (Connection.withErrorHandling name h st) = Ok tt.
Proof. apply withErrorHandling_this. Qed.

(** Every listener other than the one for [creds.update] settles. *)
Lemma wrapped_listeners_settle (env : Env) (ev : Connection.TransportEvent)
  (st : Connection.St) :
  (forall creds, ev <> Connection.EvCredsUpdate creds) ->
  fst (Connection.emit env ev st) = Connection.Settled \/
  fst (Connection.emit env ev st) = Connection.NotSubscribed.
Proof.
  intros Hne. unfold Connection.emit.
  destruct ev as [data|creds|messages|data|data|data|event data];
    cbn [Connection.listener];
    try match goal with
        | |- context [Connection.withErrorHandling ?n ?h ?st] =>
            pose proof (withErrorHandling_settles env n h st) as Hok;
            destruct (Connection.withErrorHandling n h st) as [[[]|e] st'];
            cbn in Hok; try discriminate; left; reflexivity
        end.
  - exfalso. apply (Hne creds). reflexivity.
  - destruct (_ && _); [left|right]; reflexivity.
Qed.

(** A failing [saveCreds] leaves the session uncaught and unlogged. *)
Lemma saveCreds_failure_unhandled (env : Env) (creds message : string)
  (s : BaileysConnection) (w : World) :
  saveCreds_error env (phoneNumber s) = Some message ->
  Connection.emit env (Connection.EvCredsUpdate creds) (s, w)
  = (Connection.Unhandled (JsError message), (s, w)).
Proof.
  intros H. unfold Connection.emit. cbn [Connection.listener].
  unfold Connection.saveCreds. js_unfold. cbn [fst snd]. rewrite H. reflexivity.
Qed.

(** C5, at the failing input: a [creds.update] event arrives while saving
    credentials fails.  The listener is [saveCreds] itself, not wrapped by
    [withErrorHandling]: its rejection leaves the session unhandled, and
    nothing is logged.  (For comparison, a "close" update without an error
    makes [handleConnectionUpdate] throw; its listener is wrapped, settles,
    and the error is logged.) *)
Lemma creds_update_failure_escapes :
  Connection.emit Sample.envRedisDown (Connection.EvCredsUpdate "creds-v2")
    (Sample.connected, Sample.world)
  = (Connection.Unhandled (JsError "ECONNREFUSED"),
     (Sample.connected, Sample.world)) /\
  Connection.emit Sample.env (Connection.EvConnectionUpdate Sample.closeWithoutError)
    (Sample.connected, Sample.world)
  = (Connection.Settled,
     (Sample.connected,
      set_logs
        [LogError Sample.phone "handleConnectionUpdate"
           (TypeError "undefined is not an object (evaluating 'error.message')")]
        Sample.world)).
Proof.
  split.
  - apply saveCreds_failure_unhandled. reflexivity.
  - reflexivity.
Qed.

(** ** Two [connect] calls for one phone number *)

Lemma connect_begin_fresh (env : Env) (phone : string)
  (options : BaileysConnectionOptions) (w : World) :
  connections w !! phone = None ->
  Handler.connect_begin env phone options w
  = (Ok (Some (Handler.AwaitingConnect phone (nextObject w))),
     set_nextObject (S (nextObject w))
       (set_objects
          <[nextObject w := Session.new phone (Handler.withDeregister phone options)]>
          w)).
Proof.
  intros H. unfold Handler.connect_begin, bind, get. rewrite H. reflexivity.
Qed.

Lemma connect_resume_spec (env : Env) (phone : string) (ref : nat)
  (s : BaileysConnection) (w : World) :
  objects w !! ref = Some s ->
  Handler.connect_resume env (Handler.AwaitingConnect phone ref) w
  = (Ok tt,
     set_connections <[phone := ref]>
       (set_objects <[ref := fst (snd (Connection.connect env (s, w)))]>
          (snd (snd (Connection.connect env (s, w)))))).
Proof.
  intros H. cbn [Handler.connect_resume]. unfold bind, modify, Handler.call.
  rewrite H.
  destruct (Connection.connect env (s, w)) as [r [s' w']] eqn:E.
  apply connect_frame in E. destruct E as (-> & _). reflexivity.
Qed.

Lemma connect_result_frame (env : Env) (s : BaileysConnection) (w : World) :
  objects (snd (snd (Connection.connect env (s, w)))) = objects w /\
  nextObject (snd (snd (Connection.connect env (s, w)))) = nextObject w /\
  phoneNumber (fst (snd (Connection.connect env (s, w)))) = phoneNumber s.
Proof.
  destruct (Connection.connect env (s, w)) as [r [s' w']] eqn:E.
  apply connect_frame in E. cbn. tauto.
Qed.

(** C1 (amended): for a phone number with no registry entry.  The
    registry never holds two connections under one number.  When a second
    [connect] arrives after a first one has completed with a live
    connection, no second connection object is created: exactly one object
    was allocated and it is the one registered.  When the second call
    arrives while the first is still awaiting [connection.connect()], each
    call creates its own connection object for the number, and the
    registry ends up holding the one registered last. *)
Theorem connect_twice (env : Env) (phone : string)
  (options1 options2 : BaileysConnectionOptions) (w : World) :
  connections w !! phone = None ->
  (forall (w0 : World) (r1 r2 : nat),
     connections w0 !! phone = Some r1 -> connections w0 !! phone = Some r2 ->
     r1 = r2) /\
  (forall sock, makeWASocket env (socketsMade w) = Resolved sock ->
     let out := sequential env phone options1 options2 w in
     nextObject (snd out) = S (nextObject w) /\
     connections (snd out) !! phone = Some (nextObject w)) /\
  (exists (w' : World) (a b : BaileysConnection),
     overlapping env phone options1 options2 w = (Ok tt, w') /\
     nextObject w' = S (S (nextObject w)) /\
     objects w' !! nextObject w = Some a /\
     objects w' !! S (nextObject w) = Some b /\
     phoneNumber a = phone /\ phoneNumber b = phone /\
     connections w' !! phone = Some (S (nextObject w))).
Proof.
  intros Hnone. split; [intros w0 r1 r2 H1 H2; congruence|]. split.
  - intros sock Hmk out.
    set (a1 := Session.set_socket (Some sock)
                 (Session.set_clearAuthState (Some phone)
                    (Session.new phone (Handler.withDeregister phone options1)))).
    set (w1 := set_connections <[phone:=nextObject w]>
                 (set_objects <[nextObject w:=a1]>
                    (set_socketsMade (S (socketsMade w))
                       (set_nextObject (S (nextObject w))
                          (set_objects
                             <[nextObject w:=Session.new phone
                                               (Handler.withDeregister phone options1)]>
                             w))))).
    assert (Hfirst : Handler.connect env phone options1 w = (Ok tt, w1)).
    { unfold Handler.connect, bind.
      rewrite connect_begin_fresh by exact Hnone.
      erewrite connect_resume_spec by (cbn; apply lookup_insert_eq).
      rewrite connect_spec by reflexivity.
      cbn [socketsMade set_nextObject set_objects]. rewrite Hmk. reflexivity. }
    destruct (connect_on_entry env phone options2 w1 (nextObject w) a1)
      as [Hlive _].
    { cbn. apply lookup_insert_eq. }
    { cbn. apply lookup_insert_eq. }
    destruct Hlive as (Heq & _ & Hconn & Hnext & _).
    { eexists. reflexivity. }
    assert (Hout : out = probe env (nextObject w) options2 w1).
    { subst out. unfold sequential, bind. rewrite Hfirst. exact Heq. }
    rewrite Hout, Hconn, Hnext. cbn. split; [reflexivity|]. apply lookup_insert_eq.
  - unfold overlapping, bind.
    rewrite connect_begin_fresh by exact Hnone.
    rewrite connect_begin_fresh by exact Hnone.
    cbn [resume nextObject set_nextObject set_objects].
    set (a0 := Session.new phone (Handler.withDeregister phone options1)).
    set (b0 := Session.new phone (Handler.withDeregister phone options2)).
    erewrite (connect_resume_spec env phone (nextObject w) a0).
    2:{ cbn [objects set_nextObject set_objects].
        rewrite lookup_insert_ne by lia. apply lookup_insert_eq. }
    destruct (Connection.connect env (a0, _)) as [r1 [a1 w3]] eqn:E1.
    apply connect_frame in E1.
    destruct E1 as (_ & Ho1 & Hn1 & _ & Hp1 & _).
    cbn [fst snd objects nextObject set_nextObject set_objects] in Ho1, Hn1 |- *.
    erewrite (connect_resume_spec env phone (S (nextObject w)) b0).
    2:{ cbn [objects set_connections set_objects].
        rewrite lookup_insert_ne by lia. rewrite Ho1. apply lookup_insert_eq. }
    destruct (Connection.connect env (b0, _)) as [r2 [b1 w4]] eqn:E2.
    apply connect_frame in E2.
    destruct E2 as (_ & Ho2 & Hn2 & _ & Hp2 & _).
    cbn [fst snd objects nextObject set_connections set_objects] in Ho2, Hn2 |- *.
    exists (set_connections <[phone:=S (nextObject w)]>
              (set_objects <[S (nextObject w):=b1]> w4)), a1, b1.
    split; [reflexivity|].
    cbn [nextObject objects connections set_connections set_objects].
    split; [rewrite Hn2, Hn1; reflexivity|].
    split.
    { rewrite lookup_insert_ne by lia. rewrite Ho2. apply lookup_insert_eq. }
    split; [apply lookup_insert_eq|].
    split; [exact Hp1|]. split; [exact Hp2|]. apply lookup_insert_eq.
Qed.

Lemma connect_twice_witness :
  connections emptyWorld !! Sample.phone = None /\
  exists w',
    overlapping Sample.env Sample.phone Sample.options Sample.options emptyWorld
    = (Ok tt, w') /\
    nextObject w' = 2 /\
    connections w' !! Sample.phone = Some 1.
Proof.
  assert (H : connections emptyWorld !! Sample.phone = None) by reflexivity.
  split; [exact H|].
  destruct (connect_twice Sample.env Sample.phone Sample.options Sample.options
              emptyWorld H) as (_ & _ & w' & a & b & Heq & Hn & _ & _ & _ & _ & Hc).
  exists w'. split; [exact Heq|]. split; [exact Hn | exact Hc].
Defined.

(** C1, as stated, fails: two overlapping [connect] calls for one number
    end with two distinct connection objects for it, each holding a socket
    of its own; the registry points to the second. *)
Lemma overlapping_connects_create_two_sessions :
  let out := overlapping Sample.env Sample.phone Sample.options Sample.options
               emptyWorld in
  fst out = Ok tt /\
  phoneNumber <$> objects (snd out) !! 0 = Some Sample.phone /\
  phoneNumber <$> objects (snd out) !! 1 = Some Sample.phone /\
  socket <$> objects (snd out) !! 0 = Some (Some (Sample.sock 0)) /\
  socket <$> objects (snd out) !! 1 = Some (Some (Sample.sock 1)) /\
  connections (snd out) !! Sample.phone = Some 1.
Proof. vm_compute. repeat split; reflexivity. Qed.

(** ** Invariants of the registry *)

Section Keeps.

Context {A B : Type}.

Lemma keeps_ret (a : A) : keeps (ret a).
Proof. intros s w. cbn. repeat split; reflexivity. Qed.

Lemma keeps_throw (e : Error) : keeps (throw e : M Connection.St A).
Proof. intros s w. cbn. repeat split; reflexivity. Qed.

Lemma keeps_bind (m : M Connection.St A) (k : A -> M Connection.St B) :
  keeps m -> (forall a, keeps (k a)) -> keeps (bind m k).
Proof.
  intros Hm Hk s w. unfold bind. specialize (Hm s w).
  destruct (m (s, w)) as [[a|e] [s1 w1]]; cbn [fst snd] in *.
  - specialize (Hk a s1 w1). destruct (k a (s1, w1)) as [r [s2 w2]].
    cbn [fst snd] in *. destruct Hm as (H1 & H2 & H3 & H4), Hk as (K1 & K2 & K3 & K4).
    repeat split; try congruence. etrans; eassumption.
  - exact Hm.
Qed.

Lemma keeps_try_catch (m : M Connection.St A) (h : Error -> M Connection.St A) :
  keeps m -> (forall e, keeps (h e)) -> keeps (try_catch m h).
Proof.
  intros Hm Hh s w. unfold try_catch. specialize (Hm s w).
  destruct (m (s, w)) as [[a|e] [s1 w1]]; cbn [fst snd] in *.
  - exact Hm.
  - specialize (Hh e s1 w1). destruct (h e (s1, w1)) as [r [s2 w2]].
    cbn [fst snd] in *. destruct Hm as (H1 & H2 & H3 & H4), Hh as (K1 & K2 & K3 & K4).
    repeat split; try congruence. etrans; eassumption.
Qed.

End Keeps.

Lemma keeps_this : keeps Connection.this.
Proof. intros s w. cbn. repeat split; reflexivity. Qed.

Lemma keeps_getWorld : keeps Connection.getWorld.
Proof. intros s w. cbn. repeat split; reflexivity. Qed.

Lemma keeps_lift {A} (r : Outcome A) : keeps (Connection.lift r).
Proof. destruct r; [apply keeps_ret | apply keeps_throw]. Qed.

Lemma keeps_setThis (f : BaileysConnection -> BaileysConnection) :
  (forall s, phoneNumber (f s) = phoneNumber s) -> keeps (Connection.setThis f).
Proof. intros Hf s w. cbn. rewrite Hf. repeat split; reflexivity. Qed.

Lemma keeps_world (f : World -> World) :
  (forall w, objects (f w) = objects w /\ nextObject (f w) = nextObject w /\
             connections (f w) ⊆ connections w) ->
  keeps (Connection.world f).
Proof. intros Hf s w. cbn. destruct (Hf w) as (H1 & H2 & H3). repeat split; assumption. Qed.

Lemma keeps_log (e : LogEntry) : keeps (Connection.log e).
Proof. apply keeps_world. intros w. cbn. repeat split; reflexivity. Qed.

Lemma runCloseCallback_shrinks (cb : CloseCallback) :
  forall w, connections (Connection.runCloseCallback cb w) ⊆ connections w.
Proof.
  revert cb. fix IH 1. intros [phone [inner|]|id|tag] w; simpl.
  - etrans; [apply IH|]. cbn. apply delete_subseteq.
  - apply delete_subseteq.
  - apply delete_subseteq.
  - reflexivity.
Qed.

Ltac keeps_step :=
  first
    [ apply keeps_ret | apply keeps_throw | apply keeps_this
    | apply keeps_getWorld | apply keeps_lift | apply keeps_log
    | apply keeps_setThis; intros []; reflexivity
    | apply keeps_world; intros ?; cbn; repeat split; (reflexivity || apply delete_subseteq)
    | apply keeps_bind; [|intros ?]
    | apply keeps_try_catch; [|intros ?]
    | match goal with
      | |- keeps (match ?x with _ => _ end) => destruct x
      end ].

Ltac keeps_auto := repeat keeps_step.

Lemma keeps_callOnConnectionClose : keeps Connection.callOnConnectionClose.
Proof.
  unfold Connection.callOnConnectionClose. apply keeps_bind; [apply keeps_this|].
  intros s. destruct (onConnectionClose s) as [cb|]; [|apply keeps_ret].
  apply keeps_world. intros w.
  destruct (runCloseCallback_frame cb w) as (H1 & H2 & _).
  repeat split; try assumption. apply runCloseCallback_shrinks.
Qed.

Lemma keeps_sendToWebhook (event : string) (data : WebhookData) (a : option bool) :
  keeps (Connection.sendToWebhook event data a).
Proof. unfold Connection.sendToWebhook. keeps_auto. Qed.

Lemma keeps_safeSocket : keeps Connection.safeSocket.
Proof. unfold Connection.safeSocket. keeps_auto. Qed.

Lemma keeps_close : keeps Connection.close.
Proof.
  unfold Connection.close.
  repeat first [apply keeps_callOnConnectionClose | keeps_step].
Qed.

Lemma keeps_invoke (env : Env) (sock : Socket) (c : TransportCall) :
  keeps (Connection.invoke env sock c).
Proof. unfold Connection.invoke. keeps_auto. Qed.

Ltac keeps_more env :=
  repeat first
    [ apply keeps_callOnConnectionClose | apply keeps_sendToWebhook
    | apply keeps_safeSocket | apply keeps_close | apply (keeps_invoke env)
    | keeps_step ].

Lemma keeps_connect (env : Env) : keeps (Connection.connect env).
Proof. unfold Connection.connect. keeps_more env. Qed.

Lemma keeps_logout (env : Env) : keeps (Connection.logout env).
Proof. unfold Connection.logout. keeps_more env. Qed.

Lemma keeps_sendPresenceUpdate (env : Env) (t : WAPresence) (j : option string) :
  keeps (Connection.sendPresenceUpdate env t j).
Proof. unfold Connection.sendPresenceUpdate. keeps_more env. Qed.

Lemma keeps_sendMessage (env : Env) (jid : string) (mc : AnyMessageContent) :
  keeps (Connection.sendMessage env jid mc).
Proof. unfold Connection.sendMessage, Connection.prepareAudio. keeps_more env. Qed.

Lemma keeps_perform (env : Env) (op : Handler.Operation) :
  keeps (Handler.perform env op).
Proof.
  destruct op; unfold Handler.perform, Connection.readMessages,
    Connection.chatModify, Connection.fetchMessageHistory,
    Connection.sendReceipts, Connection.profilePictureUrl, Connection.onWhatsApp;
    repeat first [ apply keeps_sendPresenceUpdate | apply keeps_sendMessage
                 | apply keeps_safeSocket | apply (keeps_invoke env) | keeps_step ].
Qed.

Lemma keeps_handleReconnecting : keeps Connection.handleReconnecting.
Proof.
  unfold Connection.handleReconnecting.
  repeat first [apply keeps_close | apply keeps_sendToWebhook | keeps_step].
Qed.

Lemma keeps_handleWrongPhoneNumber (env : Env) :
  keeps (Connection.handleWrongPhoneNumber env).
Proof.
  unfold Connection.handleWrongPhoneNumber.
  repeat first [ apply keeps_logout | apply keeps_sendToWebhook | keeps_step ].
Qed.

Lemma keeps_handleClose (env : Env) (data : ConnectionUpdate) :
  keeps (Connection.handleClose env data).
Proof.
  unfold Connection.handleClose.
  repeat first [ apply keeps_handleReconnecting | apply keeps_connect
               | apply keeps_close | keeps_step ].
Qed.

Lemma keeps_forwardUpdate (env : Env) (data : ConnectionUpdate) :
  keeps (Connection.forwardUpdate env data).
Proof.
  unfold Connection.forwardUpdate.
  repeat first [ apply keeps_handleWrongPhoneNumber | apply keeps_sendToWebhook
               | keeps_step ].
Qed.

Lemma keeps_handleConnectionUpdate (env : Env) (data : ConnectionUpdate) :
  keeps (Connection.handleConnectionUpdate env data).
Proof.
  unfold Connection.handleConnectionUpdate.
  repeat first [ apply keeps_handleReconnecting | apply keeps_handleClose
               | apply keeps_forwardUpdate | keeps_step ].
Qed.

Lemma keeps_fetchGroupNames (env : Env) (sock : Socket) (groupJids : list string) :
  forall names, keeps (Connection.fetchGroupNames env sock groupJids names).
Proof.
  induction groupJids as [|jid rest IH]; intros names; cbn [Connection.fetchGroupNames].
  - apply keeps_ret.
  - apply keeps_bind; [|intros a; apply IH].
    repeat first [ apply (keeps_invoke env) | keeps_step ].
Qed.

Lemma keeps_handleMessagesUpsert (env : Env) (messages : list WAMessage) :
  keeps (Connection.handleMessagesUpsert env messages).
Proof.
  unfold Connection.handleMessagesUpsert.
  repeat first [ apply keeps_fetchGroupNames | apply keeps_sendToWebhook | keeps_step ].
Qed.

Lemma keeps_withErrorHandling (name : string) (h : M Connection.St unit) :
  keeps h -> keeps (Connection.withErrorHandling name h).
Proof. intros H. unfold Connection.withErrorHandling. keeps_auto. exact H. Qed.

Lemma keeps_saveCreds (env : Env) (creds : string) :
  keeps (Connection.saveCreds env creds).
Proof. unfold Connection.saveCreds. keeps_auto. Qed.

Lemma keeps_listener (env : Env) (ev : Connection.TransportEvent) (h : M Connection.St unit) :
  Connection.listener env ev = Some h -> keeps h.
Proof.
  destruct ev; cbn [Connection.listener]; try (intros [= <-]).
  - apply keeps_withErrorHandling, keeps_handleConnectionUpdate.
  - apply keeps_saveCreds.
  - apply keeps_withErrorHandling, keeps_handleMessagesUpsert.
  - apply keeps_withErrorHandling. unfold Connection.handleMessagesUpdate.
    apply keeps_sendToWebhook.
  - apply keeps_withErrorHandling. unfold Connection.handleMessageReceiptUpdate.
    apply keeps_sendToWebhook.
  - apply keeps_withErrorHandling. unfold Connection.handleMessagingHistorySet.
    repeat first [apply keeps_sendToWebhook | keeps_step].
  - destruct (_ && _); [|discriminate]. intros [= <-]. apply keeps_sendToWebhook.
Qed.

Lemma keeps_fireTimer (env : Env) (h : nat) : keeps (Connection.fireTimer env h).
Proof.
  unfold Connection.fireTimer.
  repeat first [ apply (keeps_invoke env) | keeps_step ].
Qed.

Lemma extends_refl (w : World) : extends w w.
Proof. intros ref s H. eauto. Qed.

Lemma extends_trans (w1 w2 w3 : World) :
  extends w1 w2 -> extends w2 w3 -> extends w1 w3.
Proof.
  intros H12 H23 ref s H. destruct (H12 ref s H) as (s2 & H2 & E2).
  destruct (H23 ref s2 H2) as (s3 & H3 & E3). exists s3. split; congruence.
Qed.

Lemma pendingOk_extends (w w' : World) (p : Handler.Pending) :
  extends w w' -> pendingOk w p -> pendingOk w' p.
Proof.
  intros He. destruct p as [phone ref]. intros (s & Hs & Hp).
  destruct (He ref s Hs) as (s' & Hs' & Hp'). exists s'. split; congruence.
Qed.

Lemma call_invariant {A} (ref : nat) (m : M Connection.St A) (w : World) :
  keeps m -> wellFormed w ->
  wellFormed (snd (Handler.call ref m w)) /\ extends w (snd (Handler.call ref m w)) /\
  connections (snd (Handler.call ref m w)) ⊆ connections w /\
  nextObject (snd (Handler.call ref m w)) = nextObject w.
Proof.
  intros Hm [Hreg Hall]. unfold Handler.call.
  destruct (objects w !! ref) as [s|] eqn:Ho.
  - specialize (Hm s w). destruct (m (s, w)) as [r [s' w']].
    cbn [fst snd] in *. destruct Hm as (Hp & Hobj & Hn & Hc).
    assert (Hext : extends w (set_objects <[ref:=s']> w')).
    { intros r0 s0 H0. cbn. rewrite Hobj.
      destruct (decide (r0 = ref)) as [->|Hne].
      - rewrite lookup_insert_eq. exists s'. split; [reflexivity|]. congruence.
      - rewrite lookup_insert_ne by congruence. eauto. }
    split; [split|split; [exact Hext|split; [exact Hc|exact Hn]]].
    + intros id r0 Hid. cbn in Hid.
      eapply lookup_weaken in Hid; [|exact Hc].
      destruct (Hreg id r0 Hid) as (s0 & H0 & E0).
      destruct (Hext r0 s0 H0) as (s1 & H1 & E1). exists s1. split; congruence.
    + intros r0 Hr0. cbn in *. rewrite Hobj. rewrite Hn in Hr0.
      rewrite lookup_insert_ne; [apply Hall; exact Hr0|].
      intros ->. rewrite (Hall r0 Hr0) in Ho. discriminate.
  - cbn. repeat split; try assumption; try reflexivity. apply extends_refl.
Qed.

Lemma alloc_invariant (s : BaileysConnection) (w : World) :
  wellFormed w ->
  wellFormed (snd (Handler.alloc s w)) /\ extends w (snd (Handler.alloc s w)) /\
  objects (snd (Handler.alloc s w)) !! nextObject w = Some s /\
  connections (snd (Handler.alloc s w)) = connections w.
Proof.
  intros [Hreg Hall]. unfold Handler.alloc. cbn.
  assert (Hext : forall ref s0, objects w !! ref = Some s0 ->
                   <[nextObject w:=s]> (objects w) !! ref = Some s0).
  { intros ref s0 H0. rewrite lookup_insert_ne; [exact H0|].
    intros <-. rewrite (Hall (nextObject w)) in H0 by lia. discriminate. }
  split; [split|split; [|split]].
  - intros id ref Hid. destruct (Hreg id ref Hid) as (s0 & H0 & E0).
    exists s0. split; [apply Hext; exact H0 | exact E0].
  - intros ref Hr. cbn in *. rewrite lookup_insert_ne by lia. apply Hall. lia.
  - intros ref s0 H0. exists s0. split; [apply Hext; exact H0 | reflexivity].
  - apply lookup_insert_eq.
  - reflexivity.
Qed.

Lemma register_invariant (phone : string) (ref : nat) (w : World) :
  wellFormed w -> pendingOk w (Handler.AwaitingConnect phone ref) ->
  wellFormed (set_connections <[phone := ref]> w).
Proof.
  intros [Hreg Hall] (s & Hs & Hp). split.
  - intros id r0 Hid. cbn in *.
    destruct (decide (id = phone)) as [->|Hne].
    + rewrite lookup_insert_eq in Hid. injection Hid as <-. eauto.
    + rewrite lookup_insert_ne in Hid by congruence. apply Hreg. exact Hid.
  - exact Hall.
Qed.

Lemma shrink_invariant (f : gmap string nat -> gmap string nat) (w : World) :
  (forall m, f m ⊆ m) -> wellFormed w -> wellFormed (set_connections f w).
Proof.
  intros Hf [Hreg Hall]. split; [|exact Hall].
  intros id ref Hid. cbn in Hid. eapply lookup_weaken in Hid; [|apply Hf].
  apply Hreg. exact Hid.
Qed.

Lemma create_invariant (phone : string) (options : BaileysConnectionOptions) (w : World) :
  wellFormed w ->
  invariant_step w (snd (Handler.create phone options w)) /\
  exists p, fst (Handler.create phone options w) = Ok (Some p) /\
            pendingOk (snd (Handler.create phone options w)) p.
Proof.
  intros Hwf. unfold Handler.create, bind, ret.
  destruct (alloc_invariant (Session.new phone (Handler.withDeregister phone options)) w Hwf)
    as (H1 & H2 & H3 & H4).
  unfold Handler.alloc in *. cbn [fst snd] in *.
  split; [split; assumption|].
  eexists. split; [reflexivity|]. cbn. eexists. split; [exact H3|reflexivity].
Qed.

Lemma connect_begin_invariant (env : Env) (phone : string)
  (options : BaileysConnectionOptions) (w : World) :
  wellFormed w ->
  invariant_step w (snd (Handler.connect_begin env phone options w)) /\
  forall p, fst (Handler.connect_begin env phone options w) = Ok (Some p) ->
            pendingOk (snd (Handler.connect_begin env phone options w)) p.
Proof.
  intros Hwf. unfold Handler.connect_begin, bind, get.
  destruct (connections w !! phone) as [ref|] eqn:Hc.
  - destruct (call_invariant ref (Connection.setThis (Session.updateOptions options)) w)
      as (Hwf1 & He1 & _); [apply keeps_setThis; intros []; reflexivity | exact Hwf |].
    destruct (Handler.call ref (Connection.setThis (Session.updateOptions options)) w)
      as [r1 w1]. cbn [fst snd] in *.
    destruct r1 as [[]|e1].
    + unfold try_catch, bind.
      destruct (call_invariant ref (Connection.sendPresenceUpdate env available None) w1)
        as (Hwf2 & He2 & _); [apply keeps_sendPresenceUpdate | exact Hwf1 |].
      destruct (Handler.call ref (Connection.sendPresenceUpdate env available None) w1)
        as [r2 w2]. cbn [fst snd] in *.
      destruct r2 as [[]|e2]; cbn [fst snd].
      * split; [split; [exact Hwf2 | eapply extends_trans; eassumption]|].
        intros p [=].
      * destruct (instanceof_BaileysNotConnectedError e2); cbn [negb].
        -- unfold modify.
           assert (Hwf3 : wellFormed (set_connections (delete phone) w2)).
           { apply shrink_invariant; [intros m; apply delete_subseteq | exact Hwf2]. }
           destruct (create_invariant phone options _ Hwf3) as ([Hwf4 He4] & p & Hp & Hok).
           destruct (Handler.create phone options _) as [r4 w4]. cbn [fst snd] in *.
           split.
           ++ split; [exact Hwf4|].
              eapply extends_trans; [exact He1|].
              eapply extends_trans; [exact He2|]. exact He4.
           ++ intros p' Hp'. rewrite Hp in Hp'. injection Hp' as <-. exact Hok.
        -- cbn. split; [split; [exact Hwf2 | eapply extends_trans; eassumption]|].
           intros p [=].
    + unfold try_catch, bind. cbn.
      split; [split; assumption|]. intros p [=].
  - destruct (create_invariant phone options w Hwf) as (Hinv & p & Hp & Hok).
    split; [exact Hinv|]. intros p' Hp'. rewrite Hp in Hp'. injection Hp' as <-. exact Hok.
Qed.

Lemma connect_resume_invariant (env : Env) (p : Handler.Pending) (w : World) :
  wellFormed w -> pendingOk w p ->
  invariant_step w (snd (Handler.connect_resume env p w)).
Proof.
  intros Hwf Hp. destruct p as [phone ref]. cbn [Handler.connect_resume].
  unfold bind, modify.
  destruct (call_invariant ref (Connection.connect env) w (keeps_connect env) Hwf)
    as (Hwf1 & He1 & _).
  destruct (Handler.call ref (Connection.connect env) w) as [[[]|e] w1];
    cbn [fst snd] in *.
  - split; [|intros r s H; apply He1 in H; exact H].
    apply register_invariant; [exact Hwf1|].
    eapply pendingOk_extends; eassumption.
  - split; assumption.
Qed.

Lemma connect_invariant (env : Env) (phone : string)
  (options : BaileysConnectionOptions) (w : World) :
  wellFormed w -> invariant_step w (snd (Handler.connect env phone options w)).
Proof.
  intros Hwf. unfold Handler.connect, bind.
  destruct (connect_begin_invariant env phone options w Hwf) as ([Hwf1 He1] & Hp).
  destruct (Handler.connect_begin env phone options w) as [[[p|]|e] w1];
    cbn [fst snd] in *.
  - destruct (connect_resume_invariant env p w1 Hwf1 (Hp p eq_refl)) as [Hwf2 He2].
    split; [exact Hwf2 | eapply extends_trans; eassumption].
  - split; assumption.
  - split; assumption.
Qed.

Lemma dispatch_invariant (env : Env) (phone : string) (op : Handler.Operation)
  (w : World) :
  wellFormed w -> invariant_step w (snd (Handler.dispatch env phone op w)).
Proof.
  intros Hwf. unfold Handler.dispatch, Handler.getConnection, bind, get.
  destruct (connections w !! phone) as [ref|]; cbn.
  - destruct (call_invariant ref (Handler.perform env op) w (keeps_perform env op) Hwf)
      as (H1 & H2 & _). split; assumption.
  - split; [exact Hwf | apply extends_refl].
Qed.

Lemma logout_invariant (env : Env) (phone : string) (w : World) :
  wellFormed w -> invariant_step w (snd (Handler.logout env phone w)).
Proof.
  intros Hwf. unfold Handler.logout, Handler.getConnection, bind, get.
  destruct (connections w !! phone) as [ref|]; cbn.
  - destruct (call_invariant ref (Connection.logout env) w (keeps_logout env) Hwf)
      as (H1 & H2 & _).
    destruct (Handler.call ref (Connection.logout env) w) as [[[]|e] w1];
      cbn [fst snd] in *.
    + split; [|exact H2]. unfold modify. cbn.
      apply shrink_invariant; [intros m; apply delete_subseteq | exact H1].
    + split; assumption.
  - split; [exact Hwf | apply extends_refl].
Qed.

Lemma logoutEach_invariant (env : Env) (refs : list nat) :
  forall w, wellFormed w -> invariant_step w (snd (Handler.logoutEach env refs w)).
Proof.
  induction refs as [|c rest IH]; intros w Hwf; cbn [Handler.logoutEach].
  - split; [exact Hwf | apply extends_refl].
  - unfold bind, Handler.settled. cbn [fst snd].
    destruct (call_invariant c (Connection.logout env) w (keeps_logout env) Hwf)
      as (H1 & H2 & _).
    destruct (IH _ H1) as [H3 H4].
    split; [exact H3 | eapply extends_trans; eassumption].
Qed.

Lemma logoutAll_invariant (env : Env) (keys : list string) (w : World) :
  wellFormed w -> invariant_step w (snd (Handler.logoutAll env keys w)).
Proof.
  intros Hwf. unfold Handler.logoutAll, bind, get.
  destruct (logoutEach_invariant env (omap (fun k => connections w !! k) keys) w Hwf)
    as [H1 H2].
  destruct (Handler.logoutEach env _ w) as [[[]|e] w1]; cbn [fst snd] in *.
  - split; [|exact H2]. unfold modify. cbn.
    apply shrink_invariant; [intros m; apply map_empty_subseteq | exact H1].
  - split; assumption.
Qed.

Lemma restoreEach_invariant (env : Env)
  (saved : list (string * BaileysConnectionOptions)) :
  forall w, wellFormed w -> invariant_step w (snd (Handler.restoreEach env saved w)).
Proof.
  induction saved as [|[id metadata] rest IH]; intros w Hwf; cbn [Handler.restoreEach].
  - split; [exact Hwf | apply extends_refl].
  - unfold bind, modify.
    destruct (alloc_invariant (Session.new id (Handler.restoreOptions id metadata)) w Hwf)
      as (H1 & H2 & H3 & H4).
    unfold Handler.alloc in *. cbn [fst snd] in *.
    match goal with |- context [Handler.call (nextObject w) _ ?w1] =>
      assert (Hwf1 : wellFormed w1) end.
    { apply register_invariant; [exact H1|]. eexists. split; [exact H3|reflexivity]. }
    match goal with |- context [Handler.call (nextObject w) ?m ?w1] =>
      destruct (call_invariant (nextObject w) m w1 (keeps_connect env) Hwf1)
        as (H5 & H6 & _);
      destruct (Handler.call (nextObject w) m w1) as [[[]|e] w2]
    end; cbn [fst snd] in *.
    + destruct (IH _ H5) as [H7 H8]. split; [exact H7|].
      eapply extends_trans; [|exact H8].
      eapply extends_trans; [exact H2|]. exact H6.
    + split; [exact H5|]. eapply extends_trans; [exact H2|]. exact H6.
Qed.

Lemma reconnectFromAuthStore_invariant (env : Env)
  (saved : list (string * BaileysConnectionOptions)) (w : World) :
  wellFormed w -> invariant_step w (snd (Handler.reconnectFromAuthStore env saved w)).
Proof.
  intros Hwf. unfold Handler.reconnectFromAuthStore.
  destruct saved as [|x rest]; [split; [exact Hwf | apply extends_refl]|].
  apply restoreEach_invariant. exact Hwf.
Qed.

Lemma emit_invariant (env : Env) (ref : nat) (ev : Connection.TransportEvent)
  (w : World) :
  wellFormed w -> invariant_step w (snd (Handler.emit env ref ev w)).
Proof.
  intros Hwf. unfold Handler.emit, Connection.emit.
  destruct (objects w !! ref) as [s|] eqn:Ho; [|split; [exact Hwf | apply extends_refl]].
  destruct (Connection.listener env ev) as [h|] eqn:Hl.
  - pose proof (call_invariant ref h w (keeps_listener env ev h Hl) Hwf) as (H1 & H2 & _).
    unfold Handler.call in H1, H2. rewrite Ho in H1, H2.
    destruct (h (s, w)) as [[[]|e] [s' w']]; cbn [fst snd] in *; split; assumption.
  - cbn [fst snd]. rewrite set_objects_insert_id by exact Ho.
    split; [exact Hwf | apply extends_refl].
Qed.

Lemma step_consistent (env : Env) (st : Step) (sch : World * list Handler.Pending) :
  consistent sch -> consistent (step env st sch).
Proof.
  destruct sch as [w pool]. intros [Hwf Hpool]. cbn [fst snd] in *.
  assert (Hkeep : forall w', invariant_step w w' -> consistent (w', pool)).
  { intros w' [H1 H2]. split; [exact H1|]. cbn.
    eapply Forall_impl; [exact Hpool|]. intros p. apply pendingOk_extends. exact H2. }
  destruct st as [phone options|i|phone op|phone|keys|saved|ref ev|ref h];
    cbn [step fst snd].
  - destruct (connect_begin_invariant env phone options w Hwf) as ([H1 H2] & Hp).
    destruct (Handler.connect_begin env phone options w) as [[[p|]|e] w'];
      cbn [fst snd] in *; try (apply Hkeep; split; assumption).
    split; [exact H1|]. cbn. apply Forall_app. split.
    + eapply Forall_impl; [exact Hpool|]. intros q. apply pendingOk_extends. exact H2.
    + constructor; [apply Hp; reflexivity | constructor].
  - destruct (pool !! i) as [p|] eqn:Hi; [|split; assumption].
    assert (Hp : pendingOk w p).
    { eapply Forall_lookup_1; eassumption. }
    destruct (connect_resume_invariant env p w Hwf Hp) as [H1 H2].
    split; [exact H1|]. cbn. apply Forall_delete.
    eapply Forall_impl; [exact Hpool|]. intros q. apply pendingOk_extends. exact H2.
  - apply Hkeep, dispatch_invariant, Hwf.
  - apply Hkeep, logout_invariant, Hwf.
  - apply Hkeep, logoutAll_invariant, Hwf.
  - apply Hkeep, reconnectFromAuthStore_invariant, Hwf.
  - apply Hkeep, emit_invariant, Hwf.
  - apply Hkeep.
    destruct (call_invariant ref (Connection.fireTimer env h) w (keeps_fireTimer env h) Hwf)
      as (H1 & H2 & _). split; assumption.
Qed.

Lemma run_consistent (env : Env) (steps : list Step) :
  forall sch, consistent sch -> consistent (run env steps sch).
Proof.
  induction steps as [|st rest IH]; intros sch H; [exact H|].
  cbn. apply IH, step_consistent, H.
Qed.

Lemma emptyWorld_consistent : consistent (emptyWorld, []).
Proof.
  split; [split|constructor].
  - intros id ref H. cbn in H. rewrite lookup_empty in H. discriminate.
  - intros ref _. cbn. apply lookup_empty.
Qed.

(** X1: whatever calls, events and timers a process has gone through --
    overlapping [connect] calls included -- every registry entry leads to
    an existing connection object whose phone number is the key it is
    registered under; no connection object is registered under two
    numbers; no reference beyond the allocation counter is in use; and
    every suspended [connect] still holds its object. *)
Theorem reachable_consistent (env : Env) (steps : list Step) :
  let w := fst (run env steps (emptyWorld, [])) in
  (forall id ref, connections w !! id = Some ref ->
     exists s, objects w !! ref = Some s /\ phoneNumber s = id) /\
  (forall id1 id2 ref, connections w !! id1 = Some ref ->
     connections w !! id2 = Some ref -> id1 = id2) /\
  (forall ref, nextObject w <= ref -> objects w !! ref = None) /\
  Forall (pendingOk w) (snd (run env steps (emptyWorld, []))).
Proof.
  destruct (run_consistent env steps _ emptyWorld_consistent) as [[Hreg Hall] Hp].
  cbn zeta. split; [exact Hreg|]. split; [|split; assumption].
  intros id1 id2 ref H1 H2.
  destruct (Hreg id1 ref H1) as (s1 & Hs1 & E1).
  destruct (Hreg id2 ref H2) as (s2 & Hs2 & E2). congruence.
Qed.

(** ** Lookups, logging out and restoring *)

(** X2: a call for a phone number that has no registry entry -- any of the
    forwarded operations, or [logout] -- throws
    [BaileysNotConnectedError] and leaves the world as it was. *)
Theorem unregistered_number_not_connected (env : Env) (phone : string) (w : World) :
  connections w !! phone = None ->
  (forall op, Handler.dispatch env phone op w = (Throw BaileysNotConnectedError, w)) /\
  Handler.logout env phone w = (Throw BaileysNotConnectedError, w).
Proof.
  intros H. split; [intros op|];
    unfold Handler.dispatch, Handler.logout, Handler.getConnection, bind, get;
    rewrite H; reflexivity.
Qed.

Lemma unregistered_number_not_connected_witness :
  connections emptyWorld !! Sample.phone = None /\
  Handler.logout Sample.env Sample.phone emptyWorld
  = (Throw BaileysNotConnectedError, emptyWorld).
Proof.
  assert (H : connections emptyWorld !! Sample.phone = None) by reflexivity.
  split; [exact H|].
  apply (unregistered_number_not_connected Sample.env Sample.phone emptyWorld H).
Defined.

(** The world in which [Connection.logout] hands over to [close]: the
    logout call on the socket has been recorded, or the failure to make it
    has been logged. *)
Lemma logout_eq (env : Env) (s : BaileysConnection) (w : World) :
  Connection.logout env (s, w)
  = Connection.close
      (s, match socket s with
          | Some sock =>
              match transport env (length (transportCalls w)) TLogout with
              | Resolved _ =>
                  set_transportCalls (transportCalls w ++ [(sock_handle sock, TLogout)]) w
              | Rejected m =>
                  set_logs (logs w ++ [LogError (phoneNumber s) "LOGOUT" (JsError m)])
                    (set_transportCalls
                       (transportCalls w ++ [(sock_handle sock, TLogout)]) w)
              end
          | None =>
              set_logs (logs w ++ [LogError (phoneNumber s) "LOGOUT"
                                     BaileysNotConnectedError]) w
          end).
Proof.
  unfold Connection.logout, Connection.safeSocket, Connection.invoke. js_unfold.
  cbn [fst snd].
  destruct (socket s) as [sock|]; cbn [fst snd]; [|reflexivity].
  destruct (transport env (length (transportCalls w)) TLogout); reflexivity.
Qed.

Lemma runCloseCallback_timers (cb : CloseCallback) :
  forall w, timers (Connection.runCloseCallback cb w) = timers w.
Proof.
  revert cb. fix IH 1.
  intros [phone [inner|]|id|tag] w; simpl; [rewrite IH|..]; reflexivity.
Qed.

Lemma closedWorld_frame (s : BaileysConnection) (w : World) :
  timers (closedWorld s w) = timers w /\
  transportCalls (closedWorld s w) = transportCalls w /\
  socketsMade (closedWorld s w) = socketsMade w /\
  objects (closedWorld s w) = objects w /\
  nextObject (closedWorld s w) = nextObject w /\
  webhooks (closedWorld s w) = webhooks w /\
  authStore (closedWorld s w) = authStore (clearedWorld s w).
Proof.
  unfold closedWorld, firedWorld.
  assert (Hc : timers (clearedWorld s w) = timers w /\
               transportCalls (clearedWorld s w) = transportCalls w /\
               socketsMade (clearedWorld s w) = socketsMade w /\
               objects (clearedWorld s w) = objects w /\
               nextObject (clearedWorld s w) = nextObject w /\
               webhooks (clearedWorld s w) = webhooks w).
  { unfold clearedWorld. destruct (clearAuthState s); repeat split. }
  destruct Hc as (C1 & C2 & C3 & C4 & C5 & C6).
  destruct (onConnectionClose s) as [cb|]; [|repeat split; assumption].
  destruct (runCloseCallback_frame cb (clearedWorld s w)) as (H1 & H2 & H3 & H4 & H5 & H6).
  pose proof (runCloseCallback_timers cb (clearedWorld s w)) as Ht.
  repeat split; congruence.
Qed.

(** X3: [logout] for a registered phone number always resolves, whatever
    the socket answers to the logout call (and also when the connection
    has no socket).  Afterwards the number is not registered, the
    connection object is closed (no socket, no credential handle, no
    reconnects counted), and the credentials its handle pointed to are
    gone.  The socket was asked to log out exactly when there was one.  A
    pending presence timer is not cancelled: all timers are still pending. *)
Theorem logout_closes_and_deregisters
  (env : Env) (phone : string) (w : World) (ref : nat) (s : BaileysConnection) :
  connections w !! phone = Some ref ->
  objects w !! ref = Some s ->
  exists w',
    Handler.logout env phone w = (Ok tt, w') /\
    connections w' !! phone = None /\
    objects w' !! ref = Some (closed s) /\
    (forall id, clearAuthState s = Some id -> authStore w' !! id = None) /\
    transportCalls w' =
      (transportCalls w ++
       match socket s with
       | Some sock => [(sock_handle sock, TLogout)]
       | None => []
       end)%list /\
    timers w' = timers w.
Proof.
  intros Hc Ho.
  unfold Handler.logout, Handler.getConnection, bind, get. rewrite Hc.
  cbn [ret]. unfold Handler.call. rewrite Ho.
  rewrite logout_eq, close_spec. unfold modify. cbn [fst snd].
  eexists. split; [reflexivity|].
  match goal with |- context [closedWorld s ?w1] =>
    destruct (closedWorld_frame s w1) as (Ht & Hcalls & _ & Hobj & _ & _ & Hauth);
    set (wc := closedWorld s w1) in * end.
  cbn [connections objects authStore transportCalls timers set_connections set_objects].
  split; [apply lookup_delete_eq|]. split; [apply lookup_insert_eq|].
  split.
  { intros id Hid. rewrite Hauth. unfold clearedWorld. rewrite Hid. cbn.
    apply lookup_delete_eq. }
  rewrite Ht, Hcalls.
  destruct (socket s) as [sock|].
  - destruct (transport env (length (transportCalls w)) TLogout); split; reflexivity.
  - cbn. rewrite app_nil_r. split; reflexivity.
Qed.

Lemma logout_closes_and_deregisters_witness :
  connections Sample.world !! Sample.phone = Some 0 /\
  objects Sample.world !! 0 = Some Sample.connected /\
  exists w',
    Handler.logout Sample.env Sample.phone Sample.world = (Ok tt, w') /\
    connections w' !! Sample.phone = None /\
    authStore w' !! Sample.phone = None.
Proof.
  assert (H1 : connections Sample.world !! Sample.phone = Some 0)
    by (vm_compute; reflexivity).
  assert (H2 : objects Sample.world !! 0 = Some Sample.connected)
    by (vm_compute; reflexivity).
  split; [exact H1|]. split; [exact H2|].
  destruct (logout_closes_and_deregisters Sample.env Sample.phone Sample.world 0
              Sample.connected H1 H2) as (w' & Heq & Hc & _ & Ha & _).
  exists w'. split; [exact Heq|]. split; [exact Hc|]. apply Ha. reflexivity.
Defined.

Lemma closed_idempotent (s : BaileysConnection) : closed (closed s) = closed s.
Proof. destruct s; reflexivity. Qed.

Lemma call_logout_effect (env : Env) (c : nat) (w : World) :
  let w' := snd (Handler.call c (Connection.logout env) w) in
  objects w' = match objects w !! c with
               | Some s => <[c := closed s]> (objects w)
               | None => objects w
               end /\
  authStore w' ⊆ authStore w /\
  (forall s id, objects w !! c = Some s -> clearAuthState s = Some id ->
     authStore w' !! id = None).
Proof.
  unfold Handler.call. destruct (objects w !! c) as [s|] eqn:Ho; cbn zeta.
  - rewrite logout_eq, close_spec. cbn [fst snd].
    match goal with |- context [closedWorld s ?w1] =>
      destruct (closedWorld_frame s w1) as (_ & _ & _ & Hobj & _ & _ & Hauth);
      assert (Hw1o : objects w1 = objects w)
        by (destruct (socket s); [destruct (transport env _ _)|]; reflexivity);
      assert (Hw1a : authStore w1 = authStore w)
        by (destruct (socket s); [destruct (transport env _ _)|]; reflexivity);
      set (wc := closedWorld s w1) in * end.
    cbn [objects authStore set_objects]. rewrite Hobj, Hw1o, Hauth.
    split; [reflexivity|].
    unfold clearedWorld. destruct (clearAuthState s) as [cid|] eqn:Hcas; cbn;
      rewrite Hw1a.
    + split; [apply delete_subseteq|]. intros s0 id [= <-] Hid.
      rewrite Hcas in Hid. injection Hid as <-. apply lookup_delete_eq.
    + split; [reflexivity|]. intros s0 id [= <-] Hid. congruence.
  - cbn. split; [reflexivity|]. split; [reflexivity|]. intros s id [=].
Qed.

Lemma logoutEach_effect (env : Env) (refs : list nat) :
  forall w,
    let out := Handler.logoutEach env refs w in
    fst out = Ok tt /\
    (forall r, objects (snd out) !! r
               = if bool_decide (r ∈ refs) then closed <$> objects w !! r
                 else objects w !! r) /\
    authStore (snd out) ⊆ authStore w /\
    (forall r s id, r ∈ refs -> objects w !! r = Some s ->
       clearAuthState s = Some id -> authStore (snd out) !! id = None).
Proof.
  induction refs as [|c rest IH]; intros w; cbn [Handler.logoutEach].
  - cbn. split; [reflexivity|]. split; [intros r; reflexivity|].
    split; [reflexivity|]. intros r s id Hr. inversion Hr.
  - unfold bind, Handler.settled. cbn [fst snd].
    destruct (call_logout_effect env c w) as (Hobj & Hsub & Hclr).
    set (w1 := snd (Handler.call c (Connection.logout env) w)) in *.
    destruct (IH w1) as (Hok & Hobj' & Hsub' & Hclr').
    split; [exact Hok|]. split; [|split].
    + intros r. rewrite Hobj', Hobj.
      destruct (decide (r = c)) as [->|Hne].
      * rewrite (bool_decide_eq_true_2 (c ∈ c :: rest)) by (left).
        destruct (objects w !! c) as [s|] eqn:Ho.
        -- rewrite lookup_insert_eq. cbn.
           destruct (bool_decide (c ∈ rest)); cbn; [rewrite closed_idempotent|];
             reflexivity.
        -- rewrite Ho. destruct (bool_decide (c ∈ rest)); reflexivity.
      * assert (Hl : match objects w !! c with
                     | Some s => <[c:=closed s]> (objects w)
                     | None => objects w
                     end !! r = objects w !! r).
        { destruct (objects w !! c); [apply lookup_insert_ne; congruence|reflexivity]. }
        rewrite Hl.
        destruct (decide (r ∈ rest)) as [Hin|Hnin].
        -- rewrite !bool_decide_eq_true_2; [reflexivity| right; exact Hin | exact Hin].
        -- rewrite !bool_decide_eq_false_2; [reflexivity| |exact Hnin].
           intros Hin. apply elem_of_cons in Hin as [?|?]; contradiction.
    + etrans; eassumption.
    + intros r s id Hr Ho Hid.
      destruct (decide (r = c)) as [->|Hne].
      * eapply lookup_weaken_None; [|exact Hsub']. eapply Hclr; eassumption.
      * apply elem_of_cons in Hr as [?|Hr]; [contradiction|].
        apply (Hclr' r s id Hr); [|exact Hid].
        rewrite Hobj. destruct (objects w !! c); [|exact Ho].
        rewrite lookup_insert_ne by congruence. exact Ho.
Qed.

(** X4: [logoutAll], going through all the keys of the registry, always
    resolves, whatever the sockets answer; it leaves the registry empty,
    every connection object that was registered closed, and the
    credentials those objects had a handle on removed.  Objects that were
    not registered are not touched. *)
Theorem logoutAll_closes_everything
  (env : Env) (keys : list string) (w : World) :
  (forall id, is_Some (connections w !! id) -> id ∈ keys) ->
  exists w',
    Handler.logoutAll env keys w = (Ok tt, w') /\
    connections w' = ∅ /\
    (forall id ref, connections w !! id = Some ref ->
       objects w' !! ref = closed <$> objects w !! ref) /\
    (forall id ref s cid, connections w !! id = Some ref ->
       objects w !! ref = Some s -> clearAuthState s = Some cid ->
       authStore w' !! cid = None) /\
    (forall ref, (forall id, connections w !! id <> Some ref) ->
       objects w' !! ref = objects w !! ref).
Proof.
  intros Hkeys. unfold Handler.logoutAll, bind, get.
  set (refs := omap (fun k => connections w !! k) keys).
  destruct (logoutEach_effect env refs w) as (Hok & Hobj & _ & Hclr).
  destruct (Handler.logoutEach env refs w) as [r w1]. cbn [fst snd] in *. subst r.
  unfold modify. eexists. split; [reflexivity|].
  cbn [connections objects authStore set_connections].
  assert (Hin : forall id ref, connections w !! id = Some ref -> ref ∈ refs).
  { intros id ref H. apply list_elem_of_omap. exists id. split; [|exact H].
    apply Hkeys. eauto. }
  split; [reflexivity|]. split; [|split].
  - intros id ref H. rewrite Hobj. rewrite bool_decide_eq_true_2; [reflexivity|].
    eapply Hin; eassumption.
  - intros id ref s cid H Ho Hcid. eapply Hclr; [eapply Hin| |]; eassumption.
  - intros ref Hno. rewrite Hobj. rewrite bool_decide_eq_false_2; [reflexivity|].
    intros Hr. apply list_elem_of_omap in Hr as (id & _ & Hid). exact (Hno id Hid).
Qed.

Lemma logoutAll_closes_everything_witness :
  (forall id, is_Some (connections Sample.world !! id) -> id ∈ [Sample.phone]) /\
  exists w',
    Handler.logoutAll Sample.env [Sample.phone] Sample.world = (Ok tt, w') /\
    connections w' = ∅ /\
    objects w' !! 0 = Some (closed Sample.connected).
Proof.
  assert (H : forall id, is_Some (connections Sample.world !! id) ->
                         id ∈ [Sample.phone]).
  { intros id [r Hr]. destruct (decide (id = Sample.phone)) as [->|Hne]; [left|].
    cbn in Hr. rewrite lookup_insert_ne in Hr by congruence.
    rewrite lookup_empty in Hr. discriminate. }
  split; [exact H|].
  destruct (logoutAll_closes_everything Sample.env [Sample.phone] Sample.world H)
    as (w' & Heq & Hc & Ho & _).
  exists w'. split; [exact Heq|]. split; [exact Hc|].
  rewrite (Ho Sample.phone 0) by (vm_compute; reflexivity).
  vm_compute. reflexivity.
Defined.

(** One round of the restore loop. *)
Lemma restore_round (env : Env) (id : string) (metadata : BaileysConnectionOptions)
  (rest : list (string * BaileysConnectionOptions)) (w : World) :
  exists w1,
    Handler.restoreEach env ((id, metadata) :: rest) w = Handler.restoreEach env rest w1 /\
    socketsMade w1 = S (socketsMade w) /\
    nextObject w1 = S (nextObject w) /\
    connections w1 =
      match makeWASocket env (socketsMade w) with
      | Resolved _ => <[id := nextObject w]> (connections w)
      | Rejected _ => delete id (connections w)
      end /\
    (forall r, r <> nextObject w -> objects w1 !! r = objects w !! r) /\
    exists s, objects w1 !! nextObject w = Some s /\ phoneNumber s = id /\
              isReconnect s = default true (opt_isReconnect metadata) /\
              socket s = match makeWASocket env (socketsMade w) with
                         | Resolved sock => Some sock
                         | Rejected _ => None
                         end.
Proof.
  cbn [Handler.restoreEach]. unfold bind, Handler.alloc, modify. cbn [fst snd].
  unfold Handler.call. cbn [objects set_connections set_nextObject set_objects].
  rewrite lookup_insert_eq. rewrite connect_spec by reflexivity.
  cbn [socketsMade set_connections set_nextObject set_objects].
  destruct (makeWASocket env (socketsMade w)) as [sock|m]; cbn [fst snd].
  - eexists. split; [reflexivity|]. cbn.
    split; [reflexivity|]. split; [reflexivity|]. split; [reflexivity|]. split.
    + intros r Hr. rewrite !lookup_insert_ne by congruence. reflexivity.
    + eexists. split; [apply lookup_insert_eq|]. cbn.
      destruct (opt_isReconnect metadata); repeat split.
  - eexists. split; [reflexivity|]. cbn.
    split; [reflexivity|]. split; [reflexivity|]. split.
    + rewrite delete_insert_eq. reflexivity.
    + split.
      * intros r Hr. rewrite !lookup_insert_ne by congruence. reflexivity.
      * eexists. split; [apply lookup_insert_eq|]. cbn.
        destruct (opt_isReconnect metadata); repeat split.
Qed.

Lemma restoreEach_effect (env : Env) (saved : list (string * BaileysConnectionOptions)) :
  forall w,
    NoDup (saved.*1) ->
    let out := Handler.restoreEach env saved w in
    fst out = Ok tt /\
    socketsMade (snd out) = socketsMade w + length saved /\
    nextObject (snd out) = nextObject w + length saved /\
    (forall r, r < nextObject w -> objects (snd out) !! r = objects w !! r) /\
    (forall k, k ∉ saved.*1 -> connections (snd out) !! k = connections w !! k) /\
    (forall i id metadata, saved !! i = Some (id, metadata) ->
       connections (snd out) !! id =
         match makeWASocket env (socketsMade w + i) with
         | Resolved _ => Some (nextObject w + i)
         | Rejected _ => None
         end /\
       exists s, objects (snd out) !! (nextObject w + i) = Some s /\
                 phoneNumber s = id /\
                 isReconnect s = default true (opt_isReconnect metadata) /\
                 socket s = match makeWASocket env (socketsMade w + i) with
                            | Resolved sock => Some sock
                            | Rejected _ => None
                            end).
Proof.
  induction saved as [|[id metadata] rest IH]; intros w Hnd.
  - cbn. split; [reflexivity|]. split; [lia|]. split; [lia|].
    split; [reflexivity|]. split; [reflexivity|]. intros i id md H. inversion H.
  - cbn zeta.
    destruct (restore_round env id metadata rest w)
      as (w1 & -> & Hmade & Hnext & Hconn & Hobj & s & Hs & Hp & Hr & Hsock).
    apply NoDup_cons in Hnd as [Hnotin Hnd].
    destruct (IH w1 Hnd) as (Hok & Hmade' & Hnext' & Hobj' & Hother & Hsaved).
    split; [exact Hok|]. cbn [length].
    split; [lia|]. split; [lia|]. split; [|split].
    + intros r Hr0. rewrite Hobj' by lia. apply Hobj. lia.
    + intros k Hk. cbn in Hk. apply not_elem_of_cons in Hk as [Hne Hk].
      rewrite Hother by exact Hk. rewrite Hconn.
      destruct (makeWASocket env (socketsMade w));
        [apply lookup_insert_ne | apply lookup_delete_ne]; congruence.
    + intros i id' md' Hi. destruct i as [|i]; cbn in Hi.
      * injection Hi as <- <-. rewrite !Nat.add_0_r. split.
        -- rewrite Hother by exact Hnotin. rewrite Hconn.
           destruct (makeWASocket env (socketsMade w));
             [apply lookup_insert_eq | apply lookup_delete_eq].
        -- exists s. rewrite Hobj' by lia. repeat split; assumption.
      * destruct (Hsaved i id' md' Hi) as (Hc & s' & Hs' & Hrest).
        rewrite Hmade, Hnext in *.
        replace (socketsMade w + S i) with (S (socketsMade w) + i) by lia.
        replace (nextObject w + S i) with (S (nextObject w) + i) by lia.
        split; [exact Hc|]. exists s'. split; [exact Hs'|exact Hrest].
Qed.

(** X5: restoring saved connections whose identities are all different
    resolves (the credential store, which is outside the embedded sources,
    is taken to load).  One socket is made per saved identity, one after the
    other.  An identity ends up registered exactly when its socket could be
    made (the entry is written before [connect], so the close callback of
    a failed one removes it again); either way its connection object
    exists, carries the identity and has [isReconnect] set unless the saved
    metadata says otherwise.  Entries of other identities are not
    touched. *)
Theorem restore_registers_the_connectable
  (env : Env) (saved : list (string * BaileysConnectionOptions)) (w : World) :
  NoDup (saved.*1) ->
  let out := Handler.reconnectFromAuthStore env saved w in
  fst out = Ok tt /\
  socketsMade (snd out) = socketsMade w + length saved /\
  (forall k, k ∉ saved.*1 -> connections (snd out) !! k = connections w !! k) /\
  (forall i id metadata, saved !! i = Some (id, metadata) ->
     connections (snd out) !! id =
       match makeWASocket env (socketsMade w + i) with
       | Resolved _ => Some (nextObject w + i)
       | Rejected _ => None
       end /\
     exists s, objects (snd out) !! (nextObject w + i) = Some s /\
               phoneNumber s = id /\
               isReconnect s = default true (opt_isReconnect metadata) /\
               socket s = match makeWASocket env (socketsMade w + i) with
                          | Resolved sock => Some sock
                          | Rejected _ => None
                          end).
Proof.
  intros Hnd out.
  assert (Heq : out = Handler.restoreEach env saved w).
  { subst out. unfold Handler.reconnectFromAuthStore. destruct saved; reflexivity. }
  rewrite Heq.
  destruct (restoreEach_effect env saved w Hnd) as (H1 & H2 & _ & _ & H5 & H6).
  split; [exact H1|]. split; [exact H2|]. split; [exact H5|exact H6].
Qed.

Lemma restore_registers_the_connectable_witness :
  NoDup ([(Sample.phone, Sample.options)].*1) /\
  connections (snd (Handler.reconnectFromAuthStore Sample.env
                      [(Sample.phone, Sample.options)] emptyWorld)) !! Sample.phone
  = Some 0 /\
  connections (snd (Handler.reconnectFromAuthStore Sample.envNoSocket
                      [(Sample.phone, Sample.options)] emptyWorld)) !! Sample.phone
  = None.
Proof.
  assert (Hnd : NoDup ([(Sample.phone, Sample.options)].*1))
    by (cbn; apply NoDup_singleton).
  split; [exact Hnd|]. split.
  - destruct (restore_registers_the_connectable Sample.env
                [(Sample.phone, Sample.options)] emptyWorld Hnd) as (_ & _ & _ & H).
    destruct (H 0 Sample.phone Sample.options eq_refl) as [Hc _].
    rewrite Hc. vm_compute. reflexivity.
  - destruct (restore_registers_the_connectable Sample.envNoSocket
                [(Sample.phone, Sample.options)] emptyWorld Hnd) as (_ & _ & _ & H).
    destruct (H 0 Sample.phone Sample.options eq_refl) as [Hc _].
    rewrite Hc. vm_compute. reflexivity.
Defined.

(** ** Sending a message *)

Lemma sameButCallsAndLogs_refl (w : World) : sameButCallsAndLogs w w.
Proof. repeat split. Qed.

Lemma prepareAudio_spec (env : Env) (mc : AnyMessageContent)
  (s : BaileysConnection) (w : World) :
  exists c wv w1,
    Connection.prepareAudio env mc (s, w) = (Ok (c, wv), (s, w1)) /\
    sameButCallsAndLogs w w1 /\ transportCalls w1 = transportCalls w /\
    body c = body mc /\ ptt c = ptt mc /\
    (audio mc = None -> c = mc /\ wv = None /\ w1 = w) /\
    (forall a m, audio mc = Some a ->
       preprocessAudio env a (if ptt mc then OggLow else Mp3High) = Rejected m \/
       (ptt mc = true /\ preprocessAudio env a Wav = Rejected m) ->
       c = mc /\ wv = None /\
       exists m', logs w1 = (logs w ++ [LogError (phoneNumber s) "sendMessage"
                                         (JsError m')])%list).
Proof.
  unfold Connection.prepareAudio. destruct (audio mc) as [a|] eqn:Ha.
  - destruct (preprocessAudio env a (if ptt mc then OggLow else Mp3High))
      as [a'|m1] eqn:H1.
    + destruct (ptt mc) eqn:Hp.
      * destruct (preprocessAudio env a Wav) as [x|m2] eqn:H2.
        -- js_unfold. cbn.
           eexists _, _, _. split; [reflexivity|].
           split; [apply sameButCallsAndLogs_refl|]. split; [reflexivity|].
           split; [reflexivity|]. split; [done|]. split; [discriminate|].
           intros a0 m [= <-] [Hr|[_ Hr]]; congruence.
        -- js_unfold. cbn.
           eexists _, _, _. split; [reflexivity|].
           split; [repeat split|]. split; [reflexivity|].
           split; [reflexivity|]. split; [done|]. split; [discriminate|].
           intros a0 m _ _. split; [reflexivity|]. split; [reflexivity|].
           eexists. reflexivity.
      * js_unfold. cbn.
        eexists _, _, _. split; [reflexivity|].
        split; [apply sameButCallsAndLogs_refl|]. split; [reflexivity|].
        split; [reflexivity|]. split; [done|]. split; [discriminate|].
        intros a0 m [= <-] [Hr|[Hr _]]; congruence.
    + js_unfold. cbn.
      eexists _, _, _. split; [reflexivity|].
      split; [repeat split|]. split; [reflexivity|].
      split; [reflexivity|]. split; [done|]. split; [discriminate|].
      intros a0 m _ _. split; [reflexivity|]. split; [reflexivity|].
      eexists. reflexivity.
  - js_unfold. cbn [fst snd].
    eexists _, _, _. split; [reflexivity|].
    split; [apply sameButCallsAndLogs_refl|]. split; [reflexivity|].
    split; [reflexivity|]. split; [reflexivity|].
    split; [intros _; repeat split|]. intros a m H. discriminate.
Qed.

Lemma sendMessage_not_ready (env : Env) (jid : string) (mc : AnyMessageContent)
  (s : BaileysConnection) (w : World) :
  readyToSend s jid = None ->
  exists e, Connection.sendMessage env jid mc (s, w) = (Throw e, (s, w)) /\
            (e = BaileysNotConnectedError <-> socket s = None).
Proof.
  unfold readyToSend, Connection.sendMessage, Connection.safeSocket.
  js_unfold. cbn [fst snd].
  destruct (socket s) as [sock|]; cbn.
  - destruct (Str.includes jid "@g.us@s.whatsapp.net" ||
              Str.includes jid "@s.whatsapp.net@g.us"); cbn.
    + intros _. eexists. split; [reflexivity|]. unfold Connection.invalidJid.
      split; discriminate.
    + destruct (Connection.truthy_opt (sock_user_id sock)); [discriminate|].
      intros _. eexists. split; [reflexivity|]. split; discriminate.
  - intros _. eexists. split; [reflexivity|]. split; reflexivity.
Qed.

Lemma sendMessage_ready (env : Env) (jid : string) (mc : AnyMessageContent)
  (s : BaileysConnection) (w : World) (sock : Socket) :
  readyToSend s jid = Some sock ->
  exists c wv w1,
    Connection.prepareAudio env mc (s, w) = (Ok (c, wv), (s, w1)) /\
    Connection.sendMessage env jid mc (s, w) =
      (match transport env (length (transportCalls w)) (TSendMessage jid c wv) with
       | Resolved ack => Ok ack
       | Rejected m => Throw (sendFailure env m)
       end,
       (s, set_transportCalls
             (transportCalls w ++ [(sock_handle sock, TSendMessage jid c wv)]) w1)).
Proof.
  intros Hready.
  destruct (prepareAudio_spec env mc s w) as (c & wv & w1 & Hp & _ & Hcalls & _).
  exists c, wv, w1. split; [exact Hp|].
  unfold readyToSend in Hready.
  unfold Connection.sendMessage, Connection.safeSocket, bind at 1 2.
  unfold Connection.this at 1. cbn [fst snd].
  destruct (socket s) as [sock'|]; [|discriminate]. unfold ret at 1.
  destruct (Str.includes jid "@g.us@s.whatsapp.net" ||
            Str.includes jid "@s.whatsapp.net@g.us"); [discriminate|].
  destruct (Connection.truthy_opt (sock_user_id sock')); [|discriminate].
  injection Hready as ->. cbn [negb].
  unfold bind at 1. rewrite Hp. cbn [fst snd].
  unfold Connection.invoke, sendFailure. js_unfold. cbn [fst snd]. rewrite Hcalls.
  destruct (transport env (length (transportCalls w)) (TSendMessage jid c wv))
    as [ack|m]; cbn; [reflexivity|].
  destruct (Str.includes (errorToString env (JsError m)) "Connection Closed" ||
            Str.includes (errorToString env (JsError m)) "428"); reflexivity.
Qed.

(** X6: whatever it is given, [sendMessage] leaves its connection object
    as it was and touches nothing of the world but the record of socket
    calls and the log.  It calls the socket only when it has one that
    reports a user and the address does not stack the two suffixes, and then
    exactly once, with the address it was given; otherwise it throws without
    a call.  It throws [BaileysNotConnectedError] exactly when the
    connection has no socket. *)
Theorem sendMessage_effects (env : Env) (jid : string) (mc : AnyMessageContent)
  (s : BaileysConnection) (w : World) :
  let out := Connection.sendMessage env jid mc (s, w) in
  fst (snd out) = s /\
  sameButCallsAndLogs w (snd (snd out)) /\
  (fst out = Throw BaileysNotConnectedError <-> socket s = None) /\
  match readyToSend s jid with
  | Some sock =>
      exists c wv,
        transportCalls (snd (snd out))
        = (transportCalls w ++ [(sock_handle sock, TSendMessage jid c wv)])%list /\
        body c = body mc /\ ptt c = ptt mc
  | None =>
      transportCalls (snd (snd out)) = transportCalls w /\
      logs (snd (snd out)) = logs w /\
      exists e, fst out = Throw e
  end.
Proof.
  cbn zeta. destruct (readyToSend s jid) as [sock|] eqn:Hready.
  - destruct (sendMessage_ready env jid mc s w sock Hready)
      as (c & wv & w1 & Hp & ->).
    destruct (prepareAudio_spec env mc s w) as (c0 & wv0 & w0 & Hp0 & Hsame & _ & Hb & Hptt & _).
    rewrite Hp in Hp0. injection Hp0 as <- <- <-.
    cbn [fst snd]. split; [reflexivity|]. split.
    { destruct Hsame as (?&?&?&?&?&?&?&?&?). repeat split; assumption. }
    split.
    { revert Hready. unfold readyToSend. destruct (socket s); [intros _|discriminate].
      split; [|discriminate].
      destruct (transport env _ _); [discriminate|].
      unfold sendFailure, Connection.closedOrNotReady.
      destruct (_ || _); discriminate. }
    exists c, wv. split; [reflexivity|]. split; assumption.
  - destruct (sendMessage_not_ready env jid mc s w Hready) as (e & -> & He).
    cbn [fst snd]. split; [reflexivity|].
    split; [apply sameButCallsAndLogs_refl|]. split.
    { rewrite <- He. split; [intros [= ->]; reflexivity | intros ->; reflexivity]. }
    split; [reflexivity|]. split; [reflexivity|]. exists e. reflexivity.
Qed.

(** X7: a failure to transcode the audio of a message does not stop the
    send.  When the connection is ready to send and a transcoding of the
    audio is rejected, the error is logged and the message goes to the
    socket as it was given, without a waveform proxy; the caller gets the
    socket's acknowledgement, or the socket's error (replaced by the
    "closed or not ready" error when its text mentions "Connection Closed"
    or "428"). *)
Theorem sendMessage_survives_transcoding_failure
  (env : Env) (jid : string) (mc : AnyMessageContent)
  (s : BaileysConnection) (w : World) (sock : Socket) (a m : string) :
  readyToSend s jid = Some sock ->
  audio mc = Some a ->
  preprocessAudio env a (if ptt mc then OggLow else Mp3High) = Rejected m \/
  (ptt mc = true /\ preprocessAudio env a Wav = Rejected m) ->
  let out := Connection.sendMessage env jid mc (s, w) in
  fst out = match transport env (length (transportCalls w)) (TSendMessage jid mc None) with
            | Resolved ack => Ok ack
            | Rejected m' => Throw (sendFailure env m')
            end /\
  transportCalls (snd (snd out))
  = (transportCalls w ++ [(sock_handle sock, TSendMessage jid mc None)])%list /\
  exists m', logs (snd (snd out))
             = (logs w ++ [LogError (phoneNumber s) "sendMessage" (JsError m')])%list.
Proof.
  intros Hready Ha Hfail. cbn zeta.
  destruct (sendMessage_ready env jid mc s w sock Hready)
    as (c & wv & w1 & Hp & ->).
  destruct (prepareAudio_spec env mc s w)
    as (c0 & wv0 & w0 & Hp0 & _ & _ & _ & _ & _ & Hrej).
  rewrite Hp in Hp0. injection Hp0 as <- <- <-.
  destruct (Hrej a m Ha Hfail) as (-> & -> & m' & Hlogs).
  cbn [fst snd]. split; [reflexivity|]. split; [reflexivity|].
  exists m'. exact Hlogs.
Qed.

Lemma sendMessage_survives_transcoding_failure_witness :
  let jid := "15550002@s.whatsapp.net" in
  let out := Connection.sendMessage envNoFfmpeg jid voiceNote
               (Sample.connected, Sample.world) in
  readyToSend Sample.connected jid = Some (Sample.sock 0) /\
  audio voiceNote = Some "RIFF" /\
  preprocessAudio envNoFfmpeg "RIFF" OggLow = Rejected "spawn ffmpeg ENOENT" /\
  fst out = Ok "ok" /\
  transportCalls (snd (snd out)) = [(0, TSendMessage jid voiceNote None)].
Proof.
  cbn zeta.
  assert (H1 : readyToSend Sample.connected "15550002@s.whatsapp.net"
               = Some (Sample.sock 0)) by (vm_compute; reflexivity).
  assert (H2 : audio voiceNote = Some "RIFF") by reflexivity.
  assert (H3 : preprocessAudio envNoFfmpeg "RIFF" (if ptt voiceNote then OggLow else Mp3High)
               = Rejected "spawn ffmpeg ENOENT") by reflexivity.
  split; [exact H1|]. split; [exact H2|]. split; [exact H3|].
  destruct (sendMessage_survives_transcoding_failure envNoFfmpeg
              "15550002@s.whatsapp.net" voiceNote Sample.connected Sample.world
              (Sample.sock 0) "RIFF" "spawn ffmpeg ENOENT" H1 H2 (or_introl H3))
    as (Hr & Hc & _).
  split; [rewrite Hr; reflexivity | rewrite Hc; reflexivity].
Defined.

(** ** The presence reset *)

Section Preserves.

Context (R : relation Connection.St) `{!PreOrder R}.
Context {A B : Type}.

Lemma preserves_ret (a : A) : preserves R (ret a).
Proof. intros st. reflexivity. Qed.

Lemma preserves_throw (e : Error) : preserves R (throw e : M Connection.St A).
Proof. intros st. reflexivity. Qed.

Lemma preserves_bind (m : M Connection.St A) (k : A -> M Connection.St B) :
  preserves R m -> (forall a, preserves R (k a)) -> preserves R (bind m k).
Proof.
  intros Hm Hk st. unfold bind. specialize (Hm st).
  destruct (m st) as [[a|e] st1]; cbn [fst snd] in *; [|exact Hm].
  etrans; [exact Hm | apply Hk].
Qed.

Lemma preserves_try_catch (m : M Connection.St A) (h : Error -> M Connection.St A) :
  preserves R m -> (forall e, preserves R (h e)) -> preserves R (try_catch m h).
Proof.
  intros Hm Hh st. unfold try_catch. specialize (Hm st).
  destruct (m st) as [[a|e] st1]; cbn [fst snd] in *; [exact Hm|].
  etrans; [exact Hm | apply Hh].
Qed.

Lemma preserves_lift (r : Outcome A) : preserves R (Connection.lift r).
Proof. destruct r; intros st; reflexivity. Qed.

End Preserves.

Section PreservesState.

Context (R : relation Connection.St) `{!PreOrder R}.

Lemma preserves_this : preserves R Connection.this.
Proof. intros st. reflexivity. Qed.

Lemma preserves_getWorld : preserves R Connection.getWorld.
Proof. intros st. reflexivity. Qed.

Lemma preserves_setThis (f : BaileysConnection -> BaileysConnection) :
  (forall s w, R (s, w) (f s, w)) -> preserves R (Connection.setThis f).
Proof. intros Hf [s w]. apply Hf. Qed.

Lemma preserves_world (f : World -> World) :
  (forall s w, R (s, w) (s, f w)) -> preserves R (Connection.world f).
Proof. intros Hf [s w]. apply Hf. Qed.

End PreservesState.

#[local] Instance sameTimers_preorder : PreOrder sameTimers.
Proof.
  split.
  - intros st. split; reflexivity.
  - intros a b c [H1 H2] [H3 H4]. split; congruence.
Qed.

Ltac preserves_side :=
  repeat split; cbn; first [reflexivity | apply runCloseCallback_timers].

Ltac preserves_step :=
  first
    [ apply preserves_ret; tc_solve | apply preserves_throw; tc_solve
    | apply preserves_this; tc_solve | apply preserves_getWorld; tc_solve
    | apply preserves_lift; tc_solve
    | apply preserves_setThis; intros ? ?; preserves_side
    | apply preserves_world; intros ? ?; preserves_side
    | apply preserves_bind; [tc_solve | | intros ?]
    | apply preserves_try_catch; [tc_solve | | intros ?]
    | match goal with
      | |- preserves _ (match ?x with _ => _ end) => destruct x
      end ].

Ltac preserves_auto :=
  unfold Connection.log, Connection.callOnConnectionClose, Connection.sendToWebhook,
    Connection.safeSocket, Connection.invoke;
  repeat preserves_step.

Lemma sameTimers_close : preserves sameTimers Connection.close.
Proof. unfold Connection.close. preserves_auto. Qed.

Lemma sameTimers_connect (env : Env) : preserves sameTimers (Connection.connect env).
Proof. unfold Connection.connect. preserves_auto. Qed.

Lemma sameTimers_logout (env : Env) : preserves sameTimers (Connection.logout env).
Proof.
  unfold Connection.logout.
  apply preserves_bind; [tc_solve | preserves_auto | intros _; apply sameTimers_close].
Qed.

Lemma sameTimers_sendMessage (env : Env) (jid : string) (mc : AnyMessageContent) :
  preserves sameTimers (Connection.sendMessage env jid mc).
Proof. unfold Connection.sendMessage, Connection.prepareAudio. preserves_auto. Qed.

Lemma sameTimers_handleReconnecting : preserves sameTimers Connection.handleReconnecting.
Proof.
  unfold Connection.handleReconnecting.
  repeat first [apply sameTimers_close | preserves_step]; preserves_auto.
Qed.

Lemma sameTimers_handleWrongPhoneNumber (env : Env) :
  preserves sameTimers (Connection.handleWrongPhoneNumber env).
Proof.
  unfold Connection.handleWrongPhoneNumber.
  repeat first [apply sameTimers_logout | preserves_step]; preserves_auto.
Qed.

Lemma sameTimers_handleConnectionUpdate (env : Env) (data : ConnectionUpdate) :
  preserves sameTimers (Connection.handleConnectionUpdate env data).
Proof.
  unfold Connection.handleConnectionUpdate, Connection.handleClose,
    Connection.forwardUpdate.
  repeat first [ apply sameTimers_close | apply sameTimers_connect
               | apply sameTimers_handleReconnecting
               | apply sameTimers_handleWrongPhoneNumber | preserves_step ];
    preserves_auto.
Qed.

Lemma sameTimers_fetchGroupNames (env : Env) (sock : Socket) (groupJids : list string) :
  forall names, preserves sameTimers (Connection.fetchGroupNames env sock groupJids names).
Proof.
  induction groupJids as [|j rest IH]; intros names; cbn [Connection.fetchGroupNames].
  - apply preserves_ret; tc_solve.
  - apply preserves_bind; [tc_solve | preserves_auto | intros names'; apply IH].
Qed.

Lemma sameTimers_handleMessagesUpsert (env : Env) (messages : list WAMessage) :
  preserves sameTimers (Connection.handleMessagesUpsert env messages).
Proof.
  unfold Connection.handleMessagesUpsert.
  repeat first [apply sameTimers_fetchGroupNames | preserves_step]; preserves_auto.
Qed.

Lemma sameTimers_listener (env : Env) (ev : Connection.TransportEvent)
  (handler : M Connection.St unit) :
  Connection.listener env ev = Some handler -> preserves sameTimers handler.
Proof.
  destruct ev; cbn [Connection.listener].
  - intros [= <-]. unfold Connection.withErrorHandling.
    apply preserves_try_catch; [tc_solve | apply sameTimers_handleConnectionUpdate|].
    intros e. preserves_auto.
  - intros [= <-]. unfold Connection.saveCreds. preserves_auto.
  - intros [= <-]. unfold Connection.withErrorHandling.
    apply preserves_try_catch; [tc_solve | apply sameTimers_handleMessagesUpsert|].
    intros e. preserves_auto.
  - intros [= <-]. unfold Connection.withErrorHandling, Connection.handleMessagesUpdate.
    preserves_auto.
  - intros [= <-]. unfold Connection.withErrorHandling,
      Connection.handleMessageReceiptUpdate. preserves_auto.
  - intros [= <-]. unfold Connection.withErrorHandling,
      Connection.handleMessagingHistorySet. preserves_auto.
  - destruct (_ && _); [|discriminate]. intros [= <-]. preserves_auto.
Qed.

Lemma sameTimers_emit (env : Env) (ev : Connection.TransportEvent) (st : Connection.St) :
  sameTimers st (snd (Connection.emit env ev st)).
Proof.
  unfold Connection.emit.
  destruct (Connection.listener env ev) as [handler|] eqn:Hl; [|reflexivity].
  pose proof (sameTimers_listener env ev handler Hl st) as H.
  destruct (handler st) as [[[]|e] st']; exact H.
Qed.

Ltac decide_presence :=
  repeat first [ rewrite bool_decide_eq_true_2 by reflexivity
               | rewrite bool_decide_eq_false_2 by discriminate ].

Lemma sameTimers_tracked (st st' : Connection.St) :
  sameTimers st st' -> timerTracked st -> timerTracked st'.
Proof. intros [H1 H2] Ht h. rewrite H1, H2. apply Ht. Qed.

Lemma sendPresenceUpdate_tracked (env : Env) (type : WAPresence)
  (toJid : option string) (st : Connection.St) :
  timerTracked st ->
  timerTracked (snd (Connection.sendPresenceUpdate env type toJid st)).
Proof.
  destruct st as [s w]. unfold timerTracked. cbn [fst snd]. intros Ht.
  unfold Connection.sendPresenceUpdate, Connection.safeSocket, Connection.invoke.
  js_unfold. cbn [fst snd].
  destruct (socket s) as [sock|] eqn:Hs; cbn; [|exact Ht].
  destruct (sock_creds_me sock); cbn; [|exact Ht].
  rewrite Hs. cbn.
  destruct (transport env (length (transportCalls w)) (TSendPresenceUpdate type toJid))
    as [r|m]; cbn; [|exact Ht].
  destruct (clearOnlinePresenceTimeout s) as [h0|] eqn:Hh0;
    destruct type; decide_presence; cbn;
    try (intros h Hh; rewrite ?Hh0; apply Ht, Hh).
  - intros h [x Hx]. apply lookup_delete_Some in Hx as [Hne Hx].
    specialize (Ht h (mk_is_Some _ _ Hx)). congruence.
  - intros h [x Hx]. destruct (decide (h = nextTimer w)) as [->|Hne]; [reflexivity|].
    rewrite lookup_insert_ne in Hx by congruence.
    apply lookup_delete_Some in Hx as [Hne' Hx].
    specialize (Ht h (mk_is_Some _ _ Hx)). congruence.
  - intros h [x Hx]. destruct (decide (h = nextTimer w)) as [->|Hne]; [reflexivity|].
    rewrite lookup_insert_ne in Hx by congruence.
    specialize (Ht h (mk_is_Some _ _ Hx)). congruence.
Qed.

Lemma fireTimer_tracked (env : Env) (h : nat) (st : Connection.St) :
  timerTracked st -> timerTracked (snd (Connection.fireTimer env h st)).
Proof.
  destruct st as [s w]. unfold timerTracked. cbn [fst snd]. intros Ht.
  unfold Connection.fireTimer, Connection.invoke. js_unfold. cbn [fst snd].
  destruct (timers w !! h) as [toJid|] eqn:Hh; cbn; [|exact Ht].
  assert (Hd : forall h', is_Some (delete h (timers w) !! h') ->
                          clearOnlinePresenceTimeout s = Some h').
  { intros h' [x Hx]. apply lookup_delete_Some in Hx as [_ Hx].
    apply Ht. eexists. exact Hx. }
  destruct (socket s) as [sock|]; cbn; [|exact Hd].
  destruct (transport env _ _); cbn; exact Hd.
Qed.

Lemma perform_tracked (env : Env) (op : Handler.Operation) (st : Connection.St) :
  timerTracked st -> timerTracked (snd (Handler.perform env op st)).
Proof.
  intros Ht. destruct op.
  - unfold Handler.perform, bind.
    pose proof (sendPresenceUpdate_tracked env type toJid st Ht) as H.
    destruct (Connection.sendPresenceUpdate env type toJid st) as [[[]|e] st']; exact H.
  - apply (sameTimers_tracked st); [|exact Ht]. clear Ht. revert st.
    change (preserves sameTimers (Handler.perform env (Handler.SendMessage jid messageContent))).
    unfold Handler.perform.
    apply preserves_bind;
      [tc_solve | apply sameTimers_sendMessage | intros ?; apply preserves_ret; tc_solve].
  - apply (sameTimers_tracked st); [|exact Ht]. clear Ht. revert st.
    change (preserves sameTimers (Handler.perform env (Handler.ReadMessages keys))).
    unfold Handler.perform, Connection.readMessages. preserves_auto.
  - apply (sameTimers_tracked st); [|exact Ht]. clear Ht. revert st.
    change (preserves sameTimers (Handler.perform env (Handler.ChatModify mod_ jid))).
    unfold Handler.perform, Connection.chatModify. preserves_auto.
  - apply (sameTimers_tracked st); [|exact Ht]. clear Ht. revert st.
    change (preserves sameTimers
              (Handler.perform env (Handler.FetchMessageHistory count oldestMsgKey
                                      oldestMsgTimestamp))).
    unfold Handler.perform, Connection.fetchMessageHistory. preserves_auto.
  - apply (sameTimers_tracked st); [|exact Ht]. clear Ht. revert st.
    change (preserves sameTimers (Handler.perform env (Handler.SendReceipts keys type))).
    unfold Handler.perform, Connection.sendReceipts. preserves_auto.
  - apply (sameTimers_tracked st); [|exact Ht]. clear Ht. revert st.
    change (preserves sameTimers (Handler.perform env (Handler.ProfilePictureUrl jid type))).
    unfold Handler.perform, Connection.profilePictureUrl. preserves_auto.
  - apply (sameTimers_tracked st); [|exact Ht]. clear Ht. revert st.
    change (preserves sameTimers (Handler.perform env (Handler.OnWhatsApp jids))).
    unfold Handler.perform, Connection.onWhatsApp. preserves_auto.
Qed.

Lemma sessionStep_tracked (env : Env) (p : SessionStep) (st : Connection.St) :
  timerTracked st -> timerTracked (sessionStep env p st).
Proof.
  intros Ht. destruct p; cbn [sessionStep].
  - apply perform_tracked, Ht.
  - exact (sameTimers_tracked _ _ (sameTimers_connect env st) Ht).
  - exact (sameTimers_tracked _ _ (sameTimers_logout env st) Ht).
  - exact (sameTimers_tracked _ _ (sameTimers_emit env ev st) Ht).
  - apply fireTimer_tracked, Ht.
Qed.

Lemma sessionRun_tracked (env : Env) (ps : list SessionStep) :
  forall st, timerTracked st -> timerTracked (sessionRun env ps st).
Proof.
  induction ps as [|p ps IH]; intros st Ht; [exact Ht|].
  cbn. apply IH, sessionStep_tracked, Ht.
Qed.

(** X8: a connection never has more than one presence reset pending.
    Starting with no timer pending, after any sequence of operations,
    connects, logouts, socket events and timers coming due, a pending timer
    is the only one, and it is the one the connection remembers (so the next
    "available" or "unavailable" update clears it). *)
Theorem single_presence_reset (env : Env) (ps : list SessionStep)
  (st : Connection.St) :
  timers (snd st) = ∅ ->
  let st' := sessionRun env ps st in
  forall h toJid,
    timers (snd st') !! h = Some toJid ->
    clearOnlinePresenceTimeout (fst st') = Some h /\
    timers (snd st') = {[h := toJid]}.
Proof.
  intros Hempty st' h toJid Hh.
  assert (Ht : timerTracked st').
  { apply sessionRun_tracked. intros h' [x Hx]. rewrite Hempty in Hx.
    rewrite lookup_empty in Hx. discriminate. }
  split; [apply Ht; eexists; exact Hh|].
  apply map_eq. intros k. destruct (decide (k = h)) as [->|Hne].
  - rewrite lookup_singleton_eq. exact Hh.
  - rewrite lookup_singleton_ne by congruence.
    destruct (timers (snd st') !! k) as [x|] eqn:Hk; [|reflexivity].
    pose proof (Ht k (mk_is_Some _ _ Hk)) as H1.
    pose proof (Ht h (mk_is_Some _ _ Hh)) as H2. congruence.
Qed.

Lemma single_presence_reset_witness :
  let steps := [Call (Handler.SendPresenceUpdate available None);
                Emit (Connection.EvMessagesUpdate "update");
                Call (Handler.SendPresenceUpdate available (Some "15550002@s.whatsapp.net"))] in
  let st' := sessionRun Sample.env steps (Sample.connected, Sample.world) in
  timers (snd (Sample.connected, Sample.world)) = ∅ /\
  clearOnlinePresenceTimeout (fst st') = Some 1 /\
  timers (snd st') = {[1 := Some "15550002@s.whatsapp.net"]}.
Proof.
  cbn zeta. split; [reflexivity|].
  apply (single_presence_reset Sample.env _ (Sample.connected, Sample.world)
           eq_refl 1 (Some "15550002@s.whatsapp.net")).
  vm_compute. reflexivity.
Defined.

(** X9: a presence update "available" that the socket accepts arms the
    reset: the connection remembers a new timer for the same address, the
    timer it remembered before is cleared, and when the new timer is due it
    sends "unavailable" to that address through the same socket and is
    gone. *)
Theorem available_is_reset_when_due
  (env : Env) (toJid : option string) (s : BaileysConnection) (w : World)
  (sock : Socket) (r : string) :
  socket s = Some sock ->
  sock_creds_me sock = true ->
  transport env (length (transportCalls w)) (TSendPresenceUpdate available toJid)
    = Resolved r ->
  let out := Connection.sendPresenceUpdate env available toJid (s, w) in
  let h := nextTimer w in
  fst out = Ok tt /\
  clearOnlinePresenceTimeout (fst (snd out)) = Some h /\
  timers (snd (snd out)) !! h = Some toJid /\
  (forall h0, clearOnlinePresenceTimeout s = Some h0 -> h0 <> h ->
              timers (snd (snd out)) !! h0 = None) /\
  let fired := Connection.fireTimer env h (snd out) in
  transportCalls (snd (snd fired))
  = (transportCalls w ++
     [(sock_handle sock, TSendPresenceUpdate available toJid);
      (sock_handle sock, TSendPresenceUpdate unavailable toJid)])%list /\
  timers (snd (snd fired)) !! h = None.
Proof.
  intros Hs Hme Hr. cbn zeta.
  unfold Connection.sendPresenceUpdate, Connection.safeSocket, Connection.invoke.
  js_unfold. cbn [fst snd]. rewrite Hs. cbn. rewrite Hme. cbn. rewrite Hs. cbn.
  rewrite Hr. cbn.
  destruct (clearOnlinePresenceTimeout s) as [h0|]; decide_presence; cbn.
  - split; [reflexivity|]. split; [reflexivity|].
    split; [apply lookup_insert_eq|]. split.
    { intros h1 [= <-] Hne. rewrite lookup_insert_ne by congruence.
      apply lookup_delete_eq. }
    unfold Connection.fireTimer, Connection.invoke. js_unfold. cbn.
    rewrite lookup_insert_eq. cbn. rewrite Hs. cbn.
    rewrite <- app_assoc. cbn.
    match goal with
    | |- context [match transport env ?n ?c with _ => _ end] =>
        destruct (transport env n c)
    end; cbn; (split; [reflexivity | apply lookup_delete_eq]).
  - split; [reflexivity|]. split; [reflexivity|].
    split; [apply lookup_insert_eq|]. split; [discriminate|].
    unfold Connection.fireTimer, Connection.invoke. js_unfold. cbn.
    rewrite lookup_insert_eq. cbn. rewrite Hs. cbn.
    rewrite <- app_assoc. cbn.
    match goal with
    | |- context [match transport env ?n ?c with _ => _ end] =>
        destruct (transport env n c)
    end; cbn; (split; [reflexivity | apply lookup_delete_eq]).
Qed.

Lemma available_is_reset_when_due_witness :
  let jid := Some "15550002@s.whatsapp.net" in
  let out := Connection.sendPresenceUpdate Sample.env available jid
               (Sample.connected, Sample.world) in
  socket Sample.connected = Some (Sample.sock 0) /\
  sock_creds_me (Sample.sock 0) = true /\
  transportCalls (snd (snd (Connection.fireTimer Sample.env 0 (snd out))))
  = [(0, TSendPresenceUpdate available jid); (0, TSendPresenceUpdate unavailable jid)].
Proof.
  cbn zeta. split; [reflexivity|]. split; [reflexivity|].
  apply (available_is_reset_when_due Sample.env (Some "15550002@s.whatsapp.net")
           Sample.connected Sample.world (Sample.sock 0) "ok"
           eq_refl eq_refl eq_refl).
Defined.

(** X10: a presence update "unavailable" that the socket accepts cancels
    the pending reset: the connection remembers no timer, the timer it
    remembered is no longer pending, and its coming due afterwards does
    nothing at all. *)
Theorem unavailable_cancels_reset
  (env : Env) (toJid : option string) (s : BaileysConnection) (w : World)
  (sock : Socket) (h : nat) (r : string) :
  socket s = Some sock ->
  sock_creds_me sock = true ->
  clearOnlinePresenceTimeout s = Some h ->
  transport env (length (transportCalls w)) (TSendPresenceUpdate unavailable toJid)
    = Resolved r ->
  let out := Connection.sendPresenceUpdate env unavailable toJid (s, w) in
  fst out = Ok tt /\
  clearOnlinePresenceTimeout (fst (snd out)) = None /\
  timers (snd (snd out)) = delete h (timers w) /\
  Connection.fireTimer env h (snd out) = (Ok tt, snd out).
Proof.
  intros Hs Hme Hh Hr. cbn zeta.
  unfold Connection.sendPresenceUpdate, Connection.safeSocket, Connection.invoke.
  js_unfold. cbn [fst snd]. rewrite Hs. cbn. rewrite Hme. cbn. rewrite Hs. cbn.
  rewrite Hr. cbn. rewrite Hh. decide_presence. cbn.
  split; [reflexivity|]. split; [reflexivity|]. split; [reflexivity|].
  unfold Connection.fireTimer. js_unfold. cbn. rewrite lookup_delete_eq. reflexivity.
Qed.

Lemma unavailable_cancels_reset_witness :
  let s := Session.set_clearOnlinePresenceTimeout (Some 0) Sample.connected in
  let w := set_nextTimer 1 (set_timers (<[0 := None]>) Sample.world) in
  let out := Connection.sendPresenceUpdate Sample.env unavailable None (s, w) in
  socket s = Some (Sample.sock 0) /\
  clearOnlinePresenceTimeout s = Some 0 /\
  timers w !! 0 = Some None /\
  timers (snd (snd out)) !! 0 = None.
Proof.
  cbn zeta. split; [reflexivity|]. split; [reflexivity|].
  split; [vm_compute; reflexivity|].
  destruct (unavailable_cancels_reset Sample.env None
              (Session.set_clearOnlinePresenceTimeout (Some 0) Sample.connected)
              (set_nextTimer 1 (set_timers (<[0 := None]>) Sample.world))
              (Sample.sock 0) 0 "ok" eq_refl eq_refl eq_refl eq_refl)
    as (_ & _ & Ht & _).
  rewrite Ht. apply lookup_delete_eq.
Defined.

(** X11: logging out does not cancel a pending presence reset, but the
    reset then finds no socket: when it is due it sends nothing and is
    gone. *)
Theorem logout_leaves_reset_pending
  (env : Env) (s : BaileysConnection) (w : World) (h : nat) (toJid : option string) :
  timers w !! h = Some toJid ->
  let st' := snd (Connection.logout env (s, w)) in
  timers (snd st') !! h = Some toJid /\
  let fired := Connection.fireTimer env h st' in
  fst fired = Ok tt /\
  transportCalls (snd (snd fired)) = transportCalls (snd st') /\
  timers (snd (snd fired)) !! h = None.
Proof.
  intros Hh. cbn zeta.
  destruct (sameTimers_logout env (s, w)) as [Ht _]. cbn [fst snd] in Ht.
  split; [rewrite Ht; exact Hh|].
  rewrite logout_eq, close_spec in *. cbn [fst snd] in *.
  unfold Connection.fireTimer. js_unfold. cbn [fst snd].
  rewrite Ht, Hh. cbn.
  split; [reflexivity|]. split; [reflexivity|]. apply lookup_delete_eq.
Qed.

Lemma logout_leaves_reset_pending_witness :
  timers (snd awaitingReset) !! 0 = Some None /\
  timers (snd (snd (Connection.logout Sample.env awaitingReset))) !! 0 = Some None.
Proof.
  assert (H : timers (snd awaitingReset) !! 0 = Some None) by (vm_compute; reflexivity).
  split; [exact H|].
  apply (logout_leaves_reset_pending Sample.env (fst awaitingReset) (snd awaitingReset)
           0 None H).
Defined.

(** ** Incoming messages *)

Lemma set_add_spec (x : string) (l : list string) :
  NoDup l ->
  NoDup (Connection.set_add x l) /\
  forall j, j ∈ Connection.set_add x l <-> j ∈ l \/ j = x.
Proof.
  intros Hnd. unfold Connection.set_add. destruct (bool_decide_reflect (x ∈ l)) as [Hin|Hnin].
  - split; [exact Hnd|]. intros j. split; [auto|]. intros [H| ->]; assumption.
  - split.
    + apply NoDup_app. split; [exact Hnd|]. split; [|apply NoDup_singleton].
      intros y Hy Hy'. apply list_elem_of_singleton in Hy'. subst. contradiction.
    + intros j. rewrite elem_of_app, list_elem_of_singleton. reflexivity.
Qed.

Lemma collect_from (messages : list WAMessage) :
  forall acc,
    NoDup acc ->
    let f := fun acc (m : WAMessage) =>
               match remoteJid m with
               | Some j => if Str.truthy j && Connection.isJidGroup j
                           then Connection.set_add j acc else acc
               | None => acc
               end in
    NoDup (foldl f acc messages) /\
    forall j, j ∈ foldl f acc messages <->
              j ∈ acc \/
              exists m, m ∈ messages /\ remoteJid m = Some j /\
                        Str.truthy j = true /\ Connection.isJidGroup j = true.
Proof.
  induction messages as [|m rest IH]; intros acc Hnd; cbn zeta.
  - split; [exact Hnd|]. intros j. cbn. split; [auto|].
    intros [H|(m & Hm & _)]; [exact H|]. inversion Hm.
  - cbn [foldl].
    set (acc' := match remoteJid m with
                 | Some j => if Str.truthy j && Connection.isJidGroup j
                             then Connection.set_add j acc else acc
                 | None => acc
                 end).
    assert (Hacc : NoDup acc' /\
                   forall j, j ∈ acc' <->
                             j ∈ acc \/ (remoteJid m = Some j /\ Str.truthy j = true /\
                                         Connection.isJidGroup j = true)).
    { subst acc'. destruct (remoteJid m) as [j0|].
      - destruct (Str.truthy j0 && Connection.isJidGroup j0) eqn:Hb.
        + apply andb_true_iff in Hb as [Hb1 Hb2].
          destruct (set_add_spec j0 acc Hnd) as [H1 H2]. split; [exact H1|].
          intros j. rewrite H2. split.
          * intros [H| ->]; [left; exact H | right; repeat split; assumption].
          * intros [H|([= ->] & _)]; [left; exact H | right; reflexivity].
        + split; [exact Hnd|]. intros j. split; [auto|].
          intros [H|([= ->] & H1 & H2)]; [exact H|].
          rewrite H1, H2 in Hb. discriminate.
      - split; [exact Hnd|]. intros j. split; [auto|].
        intros [H|(H & _)]; [exact H | discriminate]. }
    destruct Hacc as [Hnd' Hin'].
    destruct (IH acc' Hnd') as [H1 H2]. split; [exact H1|].
    intros j. rewrite H2, Hin'. split.
    + intros [[H|(Hj & Ht & Hg)]|(m' & Hm' & Hrest)].
      * left. exact H.
      * right. exists m. split; [left|]. repeat split; assumption.
      * right. exists m'. split; [right; exact Hm'|exact Hrest].
    + intros [H|(m' & Hm' & Hrest)].
      * left. left. exact H.
      * apply elem_of_cons in Hm' as [->|Hm'].
        -- left. right. exact Hrest.
        -- right. exists m'. split; assumption.
Qed.

(** X12: the group addresses collected from a batch of messages are
    exactly the non-empty addresses of its messages that end in [@g.us],
    each once, however many messages of the batch come from the group. *)
Theorem collectGroupJids_spec (messages : list WAMessage) :
  NoDup (Connection.collectGroupJids messages) /\
  forall j, j ∈ Connection.collectGroupJids messages <->
            exists m, m ∈ messages /\ remoteJid m = Some j /\
                      Str.truthy j = true /\ Connection.isJidGroup j = true.
Proof.
  destruct (collect_from messages [] (NoDup_nil_2)) as [H1 H2].
  split; [exact H1|]. intros j. unfold Connection.collectGroupJids. rewrite H2.
  split; [|auto]. intros [H|H]; [inversion H | exact H].
Qed.

Lemma fetchGroupNames_spec (env : Env) (sock : Socket) (groupJids : list string) :
  forall (names : list (string * string)) (s : BaileysConnection) (w : World),
  exists w',
    Connection.fetchGroupNames env sock groupJids names (s, w)
    = (Ok (names ++ groupNamesFrom env (length (transportCalls w)) groupJids)%list,
       (s, w')) /\
    sameButCallsAndLogs w w' /\
    transportCalls w'
    = (transportCalls w ++
       map (fun j => (sock_handle sock, TGroupMetadata j)) groupJids)%list.
Proof.
  induction groupJids as [|j rest IH]; intros names s w.
  - exists w. cbn. rewrite !app_nil_r. split; [reflexivity|].
    split; [apply sameButCallsAndLogs_refl | reflexivity].
  - cbn [Connection.fetchGroupNames groupNamesFrom map].
    unfold Connection.invoke. js_unfold. cbn [fst snd].
    destruct (transport env (length (transportCalls w)) (TGroupMetadata j))
      as [subject|m]; cbn [fst snd].
    + match goal with
      | |- context [Connection.fetchGroupNames env sock rest ?n (s, ?w1)] =>
          destruct (IH n s w1) as (w' & Heq & Hsame & Hcalls)
      end.
      exists w'. rewrite Heq. cbn [transportCalls set_transportCalls] in *.
      rewrite length_app, Nat.add_1_r in *. cbn [length] in *.
      split.
      { destruct (Str.truthy subject); cbn; rewrite <- ?app_assoc; reflexivity. }
      split.
      { destruct Hsame as (?&?&?&?&?&?&?&?&?). repeat split; assumption. }
      rewrite Hcalls, <- app_assoc. reflexivity.
    + match goal with
      | |- context [Connection.fetchGroupNames env sock rest ?n (s, ?w1)] =>
          destruct (IH n s w1) as (w' & Heq & Hsame & Hcalls)
      end.
      exists w'. rewrite Heq. cbn [transportCalls set_transportCalls set_logs] in *.
      rewrite length_app, Nat.add_1_r in *. cbn [length] in *.
      split; [reflexivity|]. split.
      { destruct Hsame as (?&?&?&?&?&?&?&?&?). repeat split; assumption. }
      rewrite Hcalls, <- app_assoc. reflexivity.
Qed.

Lemma handleMessagesUpsert_eq (env : Env) (messages : list WAMessage)
  (s : BaileysConnection) (w : World) :
  Connection.handleMessagesUpsert env messages (s, w)
  = match downloadMediaFromMessages env messages (includeMedia s) with
    | Rejected m => (Throw (JsError m), (s, w))
    | Resolved media =>
        (let* groupNames :=
           match Connection.collectGroupJids messages, socket s with
           | _ :: _, Some sock =>
               Connection.fetchGroupNames env sock
                 (Connection.collectGroupJids messages) []
           | _, _ => ret []
           end in
         Connection.sendToWebhook "messages.upsert"
           (MessagesUpsert messages media groupNames) None) (s, w)
    end.
Proof.
  unfold Connection.handleMessagesUpsert.
  unfold bind at 1. unfold Connection.this at 1. cbn [fst snd].
  unfold bind at 1.
  destruct (downloadMediaFromMessages env messages (includeMedia s)) as [media|m];
    cbn [Connection.lift]; [|reflexivity].
  unfold ret at 1. unfold bind at 1. unfold Connection.this at 1. cbn [fst snd].
  reflexivity.
Qed.

(** X13: what a batch of incoming messages leads to.  When the media
    download fails the handler throws and nothing else happens.  Otherwise
    it resolves and announces the batch to the webhook exactly once, with
    the media and the group names found: it asks the socket for the
    metadata of each distinct group of the batch, in order, and a lookup
    that is rejected or yields an empty subject only leaves that group
    without a name.  Without a socket no lookup is made.  The connection
    object is left as it was. *)
Theorem handleMessagesUpsert_spec (env : Env) (messages : list WAMessage)
  (s : BaileysConnection) (w : World) :
  let out := Connection.handleMessagesUpsert env messages (s, w) in
  let groupJids := Connection.collectGroupJids messages in
  match downloadMediaFromMessages env messages (includeMedia s) with
  | Rejected m => out = (Throw (JsError m), (s, w))
  | Resolved media =>
      fst out = Ok tt /\
      fst (snd out) = s /\
      connections (snd (snd out)) = connections w /\
      authStore (snd (snd out)) = authStore w /\
      match socket s with
      | Some sock =>
          transportCalls (snd (snd out))
          = (transportCalls w ++
             map (fun j => (sock_handle sock, TGroupMetadata j)) groupJids)%list /\
          webhooks (snd (snd out))
          = (webhooks w ++
             [upsertCall s messages media
                (groupNamesFrom env (length (transportCalls w)) groupJids)])%list
      | None =>
          transportCalls (snd (snd out)) = transportCalls w /\
          webhooks (snd (snd out)) = (webhooks w ++ [upsertCall s messages media []])%list
      end
  end.
Proof.
  cbn zeta. rewrite handleMessagesUpsert_eq.
  destruct (downloadMediaFromMessages env messages (includeMedia s)) as [media|m];
    [|reflexivity].
  destruct (socket s) as [sock|] eqn:Hs.
  - destruct (Connection.collectGroupJids messages) as [|j rest] eqn:Hc.
    + unfold Connection.sendToWebhook. js_unfold. cbn. rewrite app_nil_r.
      repeat (split; [reflexivity|]). reflexivity.
    + destruct (fetchGroupNames_spec env sock (j :: rest) [] s w)
        as (w' & Heq & Hsame & Hcalls).
      assert (Hout :
        (let* groupNames := Connection.fetchGroupNames env sock (j :: rest) [] in
         Connection.sendToWebhook "messages.upsert"
           (MessagesUpsert messages media groupNames) None) (s, w)
        = (Ok tt,
           (s, set_webhooks
                 (webhooks w' ++
                  [upsertCall s messages media
                     (groupNamesFrom env (length (transportCalls w)) (j :: rest))])
                 w'))).
      { unfold bind. rewrite Heq. reflexivity. }
      rewrite Hout. clear Hout Heq.
      destruct Hsame as (H1&H2&H3&H4&H5&H6&H7&H8&H9). cbn.
      split; [reflexivity|]. split; [reflexivity|]. split; [exact H1|].
      split; [exact H4|]. split; [exact Hcalls|]. rewrite H8. reflexivity.
  - assert (Heq : match Connection.collectGroupJids messages with
                  | [] => ret []
                  | _ :: _ => ret []
                  end = (ret [] : M Connection.St (list (string * string)))).
    { destruct (Connection.collectGroupJids messages); reflexivity. }
    rewrite Heq. unfold Connection.sendToWebhook. js_unfold. cbn.
    repeat (split; [reflexivity|]). reflexivity.
Qed.

(** ** Identity, restored connections and other events *)

Lemma splitHead_app (c : Ascii.ascii) (u rest : string) :
  occurs c u = false -> Str.splitHead c (u ++ String c rest) = u.
Proof.
  induction u as [|a u IH]; simpl.
  - intros _. rewrite Ascii.eqb_refl. reflexivity.
  - intros H. apply orb_false_iff in H as [Ha Hu]. rewrite Ha, IH by exact Hu.
    reflexivity.
Qed.

Lemma splitHead_absent (c : Ascii.ascii) (u : string) :
  occurs c u = false -> Str.splitHead c u = u.
Proof.
  induction u as [|a u IH]; simpl; [reflexivity|].
  intros H. apply orb_false_iff in H as [Ha Hu]. rewrite Ha, IH by exact Hu.
  reflexivity.
Qed.

Lemma append_assoc (u v x : string) : (u ++ v) ++ x = u ++ v ++ x.
Proof.
  induction u as [|a u IH]; [reflexivity|].
  change (String a ((u ++ v) ++ x) = String a (u ++ v ++ x)). rewrite IH. reflexivity.
Qed.

Lemma occurs_app (c : Ascii.ascii) (u v : string) :
  occurs c (u ++ v) = occurs c u || occurs c v.
Proof.
  induction u as [|a u IH]; simpl; [reflexivity|].
  rewrite IH, orb_assoc. reflexivity.
Qed.

(** X14: the phone number read off the identity a socket reports.  For an
    identity [user:device@server], and for one without a device part,
    [user@server], it is ["+"] followed by [user]; so on an "open" update the
    connection is judged to be on the wrong number exactly when the
    normalised ["+user"] differs from its own normalised number. *)
Theorem phoneNumberFromId_user (env : Env) (user device server : string)
  (s : BaileysConnection) (sock : Socket) (data : ConnectionUpdate) :
  occurs ":" user = false ->
  occurs "@" user = false ->
  occurs "@" device = false ->
  Connection.phoneNumberFromId (user ++ ":" ++ device ++ "@" ++ server) = "+" ++ user /\
  Connection.phoneNumberFromId (user ++ "@" ++ server) = "+" ++ user /\
  (socket s = Some sock ->
   sock_user_id sock = Some (user ++ ":" ++ device ++ "@" ++ server) ->
   connection data = Some ConnOpen ->
   Connection.wrongPhoneNumber env s data
   = negb (String.eqb (normalizeBrazilPhoneNumber env ("+" ++ user))
             (normalizeBrazilPhoneNumber env (phoneNumber s)))).
Proof.
  intros Hc Ha Hd.
  assert (H1 : Connection.phoneNumberFromId (user ++ ":" ++ device ++ "@" ++ server)
               = "+" ++ user).
  { unfold Connection.phoneNumberFromId. f_equal.
    replace (user ++ ":" ++ device ++ "@" ++ server)
      with ((user ++ ":" ++ device) ++ String "@" server)
      by (rewrite !append_assoc; reflexivity).
    rewrite splitHead_app.
    - change (":" ++ device) with (String ":" device). apply splitHead_app, Hc.
    - rewrite occurs_app, Ha. cbn. exact Hd. }
  split; [exact H1|]. split.
  - unfold Connection.phoneNumberFromId. f_equal.
    change ("@" ++ server) with (String "@" server).
    rewrite splitHead_app by exact Ha. apply splitHead_absent, Hc.
  - intros Hs Hid Ho. unfold Connection.wrongPhoneNumber.
    rewrite Ho, Hs. cbn [mbind option_bind]. rewrite Hid, H1.
    rewrite bool_decide_eq_true_2 by reflexivity.
    destruct user; reflexivity.
Qed.

Lemma phoneNumberFromId_user_witness :
  occurs ":" "15550001" = false /\
  Connection.phoneNumberFromId "15550001:7@s.whatsapp.net" = "+15550001" /\
  Connection.phoneNumberFromId "15550001@s.whatsapp.net" = "+15550001".
Proof.
  split; [reflexivity|].
  destruct (phoneNumberFromId_user Sample.env "15550001" "7" "s.whatsapp.net"
              Sample.connected (Sample.sock 0) Sample.connectionClosed
              eq_refl eq_refl eq_refl) as (H1 & H2 & _).
  split; [exact H1 | exact H2].
Defined.

Lemma wrongPhoneNumber_socket (env : Env) (s : BaileysConnection)
  (data : ConnectionUpdate) :
  Connection.wrongPhoneNumber env s data = true ->
  connection data = Some ConnOpen /\ exists sock, socket s = Some sock.
Proof.
  unfold Connection.wrongPhoneNumber. intros H.
  apply andb_true_iff in H as [H1 H2]. apply bool_decide_eq_true in H1.
  split; [exact H1|]. destruct (socket s) as [sock|]; [eauto|discriminate].
Qed.

Lemma handleWrongPhoneNumber_spec (env : Env) (s : BaileysConnection) (w : World)
  (sock : Socket) :
  socket s = Some sock ->
  exists w1,
    Connection.handleWrongPhoneNumber env (s, w) = (Ok tt, (closed s, closedWorld s w1)) /\
    connections w1 = connections w /\ authStore w1 = authStore w /\
    webhooks w1 = (webhooks w ++ [wrongPhoneNumberCall s])%list /\
    transportCalls w1
    = (transportCalls w ++
       [(sock_handle sock, TRemoveAllListeners "connection.update");
        (sock_handle sock, TLogout)])%list.
Proof.
  intros Hs. unfold Connection.handleWrongPhoneNumber, Connection.sendToWebhook.
  unfold bind at 1 2. unfold Connection.this at 1. cbn [fst snd].
  unfold Connection.world at 1, modify at 1. cbn [fst snd].
  unfold bind at 1. unfold Connection.this at 1. cbn [fst snd].
  rewrite Hs. unfold bind at 1 2. unfold Connection.getWorld at 1. cbn [fst snd].
  unfold Connection.world at 1, modify at 1. cbn [fst snd].
  rewrite logout_eq, close_spec. cbn [socket]. rewrite Hs.
  cbn [transportCalls set_transportCalls set_webhooks].
  eexists. split; [reflexivity|].
  destruct (transport env _ TLogout); cbn; rewrite <- app_assoc;
    repeat split; reflexivity.
Qed.

(** X15: an "open" update on a socket that reports somebody else's number.
    The webhook is told "wrong_phone_number" and is not told "open"; the
    connection takes its listener off the socket, logs out through it and
    closes: no socket, no reconnects counted, its credentials removed from
    the store, and the registry entry the handler made for it deleted. *)
Theorem wrong_number_closes_connection
  (env : Env) (data : ConnectionUpdate) (s : BaileysConnection) (w : World) :
  Connection.isReconnecting s data = false ->
  Connection.wrongPhoneNumber env s data = true ->
  let out := Connection.handleConnectionUpdate env data (s, w) in
  fst out = Ok tt /\
  fst (snd out) = closed s /\
  webhooks (snd (snd out)) = (webhooks w ++ [wrongPhoneNumberCall s])%list /\
  (exists sock,
     socket s = Some sock /\
     transportCalls (snd (snd out))
     = (transportCalls w ++
        [(sock_handle sock, TRemoveAllListeners "connection.update");
         (sock_handle sock, TLogout)])%list) /\
  (forall id, clearAuthState s = Some id -> authStore (snd (snd out)) !! id = None) /\
  (forall inner, onConnectionClose s = Some (DeregisterThen (phoneNumber s) inner) ->
                 connections (snd (snd out)) !! phoneNumber s = None).
Proof.
  intros Hrec Hwrong. cbn zeta.
  destruct (wrongPhoneNumber_socket env s data Hwrong) as [Hopen [sock Hs]].
  destruct (handleWrongPhoneNumber_spec env s w sock Hs)
    as (w1 & Heq & Hc & Ha & Hw & Ht).
  assert (Hout : Connection.handleConnectionUpdate env data (s, w)
                 = (Ok tt, (closed s, closedWorld s w1))).
  { rewrite (hcu_not_close env data s w Hrec) by (rewrite Hopen; discriminate).
    unfold Connection.forwardUpdate. unfold bind at 1. unfold Connection.this at 1.
    cbn [fst snd]. rewrite Hwrong. exact Heq. }
  rewrite Hout. cbn [fst snd].
  destruct (closedWorld_frame s w1) as (_ & Hcalls & _ & _ & _ & Hweb & _).
  split; [reflexivity|]. split; [reflexivity|].
  split; [rewrite Hweb; exact Hw|].
  split; [exists sock; split; [exact Hs | rewrite Hcalls; exact Ht]|].
  split; [intros id Hid; apply closedWorld_authStore, Hid|].
  intros inner Hcb. unfold closedWorld, firedWorld. rewrite Hcb.
  apply runCloseCallback_deregisters.
Qed.

Lemma wrong_number_closes_connection_witness :
  let out := Connection.handleConnectionUpdate Sample.env (stateUpdate ConnOpen)
               (onWrongNumber, Sample.world) in
  Connection.isReconnecting onWrongNumber (stateUpdate ConnOpen) = false /\
  Connection.wrongPhoneNumber Sample.env onWrongNumber (stateUpdate ConnOpen) = true /\
  socket (fst (snd out)) = None /\
  connections (snd (snd out)) !! Sample.phone = None.
Proof.
  cbn zeta.
  assert (H1 : Connection.isReconnecting onWrongNumber (stateUpdate ConnOpen) = false)
    by (vm_compute; reflexivity).
  assert (H2 : Connection.wrongPhoneNumber Sample.env onWrongNumber (stateUpdate ConnOpen)
               = true) by (vm_compute; reflexivity).
  split; [exact H1|]. split; [exact H2|].
  destruct (wrong_number_closes_connection Sample.env (stateUpdate ConnOpen)
              onWrongNumber Sample.world H1 H2) as (_ & Hs & _ & _ & _ & Hd).
  split; [rewrite Hs; reflexivity|].
  apply (Hd Sample.options.(opt_onConnectionClose)). reflexivity.
Defined.

(** X16: a connection restored at start-up announces "reconnecting" once.
    Its first plain "connecting" update is taken for a reconnect: the
    webhook is told "reconnecting", the reconnect is counted and the
    restored mark is dropped.  The same update arriving again is forwarded
    as it is. *)
Theorem restored_connection_announces_reconnect_once
  (env : Env) (data : ConnectionUpdate) (s : BaileysConnection) (w : World) :
  isReconnect s = true ->
  connection data = Some ConnConnecting ->
  qr data = Absent ->
  to_bool (isNewLogin data) = false ->
  to_bool (isOnline data) = false ->
  reconnectCount s < 10 ->
  let out1 := Connection.handleConnectionUpdate env data (s, w) in
  let out2 := Connection.handleConnectionUpdate env data (snd out1) in
  fst out1 = Ok tt /\ fst out2 = Ok tt /\
  isReconnect (fst (snd out1)) = false /\
  webhooks (snd (snd out1)) = (webhooks w ++ [reconnectingCall s])%list /\
  webhooks (snd (snd out2))
  = (webhooks w ++ [reconnectingCall s; forwardedCall s data None])%list /\
  reconnectCount (fst (snd out2)) = S (reconnectCount s).
Proof.
  intros Hre Hconn Hqr Hnew Hon Hlt. cbn zeta.
  set (s1 := Session.set_reconnectCount (reconnectCount s + 1)
               (Session.set_isReconnect false s)).
  assert (H1 : Connection.handleConnectionUpdate env data (s, w)
               = (Ok tt, (s1, set_webhooks (webhooks w ++ [reconnectingCall s]) w))).
  { rewrite hcu_reconnecting.
    - rewrite handleReconnecting_spec. cbn [reconnectCount Session.set_isReconnect].
      destruct (Nat.ltb_spec 10 (reconnectCount s + 1)); [lia|reflexivity].
    - unfold Connection.isReconnecting. rewrite Hnew, Hconn, Hre.
      rewrite bool_decide_eq_true_2 by reflexivity. cbn. apply orb_true_r. }
  rewrite H1. cbn [fst snd].
  assert (H2 : Connection.handleConnectionUpdate env data
                 (s1, set_webhooks (webhooks w ++ [reconnectingCall s]) w)
               = (Ok tt, (s1, set_webhooks
                                (webhooks w ++ [reconnectingCall s;
                                                forwardedCall s data None]) w))).
  { rewrite hcu_not_close.
    - unfold Connection.forwardUpdate. unfold bind at 1. unfold Connection.this at 1.
      cbn [fst snd].
      rewrite wrongPhoneNumber_not_open by (rewrite Hconn; discriminate).
      unfold Connection.qr_code, forwardedCall, Connection.shapedConnection,
        Connection.qr_code. rewrite Hqr, Hon, Hconn.
      rewrite bool_decide_eq_false_2 by discriminate.
      unfold Connection.sendToWebhook. js_unfold. cbn. rewrite <- app_assoc.
      reflexivity.
    - unfold Connection.isReconnecting, Connection.qr_present_but_empty.
      rewrite Hnew, Hqr. cbn. apply andb_false_r.
    - rewrite Hconn. discriminate. }
  rewrite H2. cbn [fst snd].
  split; [reflexivity|]. split; [reflexivity|]. split; [reflexivity|].
  split; [reflexivity|]. split; [reflexivity|]. cbn. lia.
Qed.

Lemma restored_connection_announces_reconnect_once_witness :
  let s := Session.set_isReconnect true Sample.connected in
  let data := stateUpdate ConnConnecting in
  let out1 := Connection.handleConnectionUpdate Sample.env data (s, Sample.world) in
  let out2 := Connection.handleConnectionUpdate Sample.env data (snd out1) in
  isReconnect s = true /\ reconnectCount s < 10 /\
  webhooks (snd (snd out2)) = [reconnectingCall s; forwardedCall s data None].
Proof.
  cbn zeta. split; [reflexivity|]. split; [cbn; lia|].
  assert (Hlt : reconnectCount (Session.set_isReconnect true Sample.connected) < 10)
    by (cbn; lia).
  destruct (restored_connection_announces_reconnect_once Sample.env
              (stateUpdate ConnConnecting)
              (Session.set_isReconnect true Sample.connected) Sample.world
              eq_refl eq_refl eq_refl eq_refl eq_refl Hlt)
    as (_ & _ & _ & _ & H & _).
  exact H.
Defined.

#[local] Instance sameSession_preorder : PreOrder sameSession.
Proof.
  split.
  - intros st. repeat split; reflexivity.
  - intros a b c (H1&H2&H3&H4&H5&H6) (K1&K2&K3&K4&K5&K6). repeat split; congruence.
Qed.

Lemma sameSession_fetchGroupNames (env : Env) (sock : Socket) (groupJids : list string) :
  forall names, preserves sameSession (Connection.fetchGroupNames env sock groupJids names).
Proof.
  induction groupJids as [|j rest IH]; intros names; cbn [Connection.fetchGroupNames].
  - apply preserves_ret; tc_solve.
  - apply preserves_bind; [tc_solve | preserves_auto | intros names'; apply IH].
Qed.

Lemma sameSession_listener (env : Env) (ev : Connection.TransportEvent)
  (handler : M Connection.St unit) :
  (forall data, ev <> Connection.EvConnectionUpdate data) ->
  Connection.listener env ev = Some handler -> preserves sameSession handler.
Proof.
  intros Hev. destruct ev; cbn [Connection.listener].
  - destruct (Hev data eq_refl).
  - intros [= <-]. unfold Connection.saveCreds. preserves_auto.
  - intros [= <-]. unfold Connection.withErrorHandling, Connection.handleMessagesUpsert.
    repeat first [apply sameSession_fetchGroupNames | preserves_step]; preserves_auto.
  - intros [= <-]. unfold Connection.withErrorHandling, Connection.handleMessagesUpdate.
    preserves_auto.
  - intros [= <-]. unfold Connection.withErrorHandling,
      Connection.handleMessageReceiptUpdate. preserves_auto.
  - intros [= <-]. unfold Connection.withErrorHandling,
      Connection.handleMessagingHistorySet. preserves_auto.
  - destruct (_ && _); [|discriminate]. intros [= <-]. preserves_auto.
Qed.

Lemma sameStore_fetchGroupNames (env : Env) (sock : Socket) (groupJids : list string) :
  forall names, preserves sameStore (Connection.fetchGroupNames env sock groupJids names).
Proof.
  induction groupJids as [|j rest IH]; intros names; cbn [Connection.fetchGroupNames].
  - apply preserves_ret; tc_solve.
  - apply preserves_bind; [tc_solve | preserves_auto | intros names'; apply IH].
Qed.

Lemma sameStore_listener (env : Env) (ev : Connection.TransportEvent)
  (handler : M Connection.St unit) :
  (forall data, ev <> Connection.EvConnectionUpdate data) ->
  (forall creds, ev <> Connection.EvCredsUpdate creds) ->
  Connection.listener env ev = Some handler -> preserves sameStore handler.
Proof.
  intros Hev Hcr. destruct ev; cbn [Connection.listener].
  - destruct (Hev data eq_refl).
  - destruct (Hcr creds eq_refl).
  - intros [= <-]. unfold Connection.withErrorHandling, Connection.handleMessagesUpsert.
    repeat first [apply sameStore_fetchGroupNames | preserves_step]; preserves_auto.
  - intros [= <-]. unfold Connection.withErrorHandling, Connection.handleMessagesUpdate.
    preserves_auto.
  - intros [= <-]. unfold Connection.withErrorHandling,
      Connection.handleMessageReceiptUpdate. preserves_auto.
  - intros [= <-]. unfold Connection.withErrorHandling,
      Connection.handleMessagingHistorySet. preserves_auto.
  - destruct (_ && _); [|discriminate]. intros [= <-]. preserves_auto.
Qed.

(** X17: only "connection.update" events change a connection.  Any other
    event of the socket leaves the connection object exactly as it was, and
    with it the registry, the object store, the count of sockets made and
    the pending timers; the credential store is written by "creds.update"
    only. *)
Theorem other_events_leave_connection
  (env : Env) (ev : Connection.TransportEvent) (s : BaileysConnection) (w : World) :
  (forall data, ev <> Connection.EvConnectionUpdate data) ->
  let out := Connection.emit env ev (s, w) in
  fst (snd out) = s /\
  connections (snd (snd out)) = connections w /\
  objects (snd (snd out)) = objects w /\
  socketsMade (snd (snd out)) = socketsMade w /\
  callbacks (snd (snd out)) = callbacks w /\
  timers (snd (snd out)) = timers w /\
  ((forall creds, ev <> Connection.EvCredsUpdate creds) ->
   authStore (snd (snd out)) = authStore w).
Proof.
  intros Hev. cbn zeta.
  destruct (sameTimers_emit env ev (s, w)) as [Ht _]. cbn [fst snd] in Ht.
  unfold Connection.emit in *.
  destruct (Connection.listener env ev) as [handler|] eqn:Hl.
  - pose proof (sameSession_listener env ev handler Hev Hl (s, w)) as H.
    destruct (handler (s, w)) as [[[]|e] [s' w']] eqn:Hh; cbn [fst snd] in *;
      destruct H as (H1&H2&H3&H4&H5&H6);
      (split; [exact H1|]; split; [exact H2|]; split; [exact H3|];
       split; [exact H5|]; split; [exact H6|]; split; [exact Ht|]);
      intros Hcr;
      pose proof (sameStore_listener env ev handler Hev Hcr Hl (s, w)) as Hst;
      rewrite Hh in Hst; exact Hst.
  - cbn. repeat split; reflexivity.
Qed.

Lemma other_events_leave_connection_witness :
  (forall data, Connection.EvCredsUpdate "creds-v2" <> Connection.EvConnectionUpdate data) /\
  fst (snd (Connection.emit Sample.env (Connection.EvCredsUpdate "creds-v2")
              (Sample.connected, Sample.world))) = Sample.connected.
Proof.
  assert (H : forall data, Connection.EvCredsUpdate "creds-v2"
                           <> Connection.EvConnectionUpdate data)
    by (intros data; discriminate).
  split; [exact H|].
  apply (other_events_leave_connection Sample.env (Connection.EvCredsUpdate "creds-v2")
           Sample.connected Sample.world H).
Defined.

(** ** The routes and runs of events *)

(** X18: errors of the wrapped listeners never leave the connection.  In
    a run of socket events without "creds.update", every event is either
    handled by a listener whose promise resolves -- whatever the handler
    threw -- or has no listener at all; and only the events outside the six
    handled ones can be without a listener. *)
Theorem wrapped_events_never_escape (env : Env)
  (evs : list Connection.TransportEvent) :
  forall st,
    (forall creds, Connection.EvCredsUpdate creds ∉ evs) ->
    length (fst (Connection.emitAll env evs st)) = length evs /\
    forall i ev d,
      evs !! i = Some ev ->
      fst (Connection.emitAll env evs st) !! i = Some d ->
      d = Connection.Settled \/
      (d = Connection.NotSubscribed /\ exists event data, ev = Connection.EvOther event data).
Proof.
  induction evs as [|ev rest IH]; intros st Hcr.
  - split; [reflexivity|]. intros i ev d H. inversion H.
  - cbn [Connection.emitAll].
    assert (Hev : forall creds, ev <> Connection.EvCredsUpdate creds).
    { intros creds ->. apply (Hcr creds). left. }
    assert (Hrest : forall creds, Connection.EvCredsUpdate creds ∉ rest).
    { intros creds Hin. apply (Hcr creds). right. exact Hin. }
    pose proof (wrapped_listeners_settle env ev st Hev) as Hd.
    assert (Hns : fst (Connection.emit env ev st) = Connection.NotSubscribed ->
                  exists event data, ev = Connection.EvOther event data).
    { unfold Connection.emit.
      destruct ev; cbn [Connection.listener];
        try (destruct (Connection.withErrorHandling _ _ st) as [[[]|e] st'];
             discriminate).
      - destruct (Connection.saveCreds env creds st) as [[[]|e] st']; discriminate.
      - intros _. eauto. }
    destruct (Connection.emit env ev st) as [d st1]. cbn [fst] in *.
    destruct (IH st1 Hrest) as [Hlen Hall].
    destruct (Connection.emitAll env rest st1) as [ds st2]. cbn [fst length] in *.
    split; [congruence|]. intros i ev' d' Hi Hdi. destruct i as [|i]; cbn in Hi, Hdi.
    + injection Hi as <-. injection Hdi as <-.
      destruct Hd as [Hd|Hd]; [left; exact Hd | right; split; [exact Hd | apply Hns, Hd]].
    + eapply Hall; eassumption.
Qed.

Lemma wrapped_events_never_escape_witness :
  let evs := [Connection.EvConnectionUpdate Sample.closeWithoutError;
              Connection.EvOther "typing" "data"] in
  (forall creds, Connection.EvCredsUpdate creds ∉ evs) /\
  length (fst (Connection.emitAll Sample.env evs (Sample.connected, Sample.world))) = 2.
Proof.
  cbn zeta.
  assert (H : forall creds,
             Connection.EvCredsUpdate creds ∉
               [Connection.EvConnectionUpdate Sample.closeWithoutError;
                Connection.EvOther "typing" "data"]).
  { intros creds Hin. apply elem_of_cons in Hin as [Hin|Hin]; [discriminate|].
    apply elem_of_cons in Hin as [Hin|Hin]; [discriminate|]. inversion Hin. }
  split; [exact H|].
  apply (wrapped_events_never_escape Sample.env _ (Sample.connected, Sample.world) H).
Defined.

Lemma dispatch_unregistered (env : Env) (phone : string) (op : Handler.Operation) (w : World) :
  connections w !! phone = None ->
  Handler.dispatch env phone op w = (Throw BaileysNotConnectedError, w).
Proof.
  intros H. unfold Handler.dispatch, Handler.getConnection, bind, get.
  rewrite H. reflexivity.
Qed.

(** X19: what the routes answer for a phone number that is not
    registered.  DELETE answers 404 "Phone number not found"; send-message
    answers 500 with the text of the error; the other routes let
    [BaileysNotConnectedError] through to the HTTP layer.  None of them
    changes anything. *)
Theorem unregistered_number_replies (env : Env)
  (buildMessageContent : string -> Result AnyMessageContent)
  (phone : string) (w : World) :
  connections w !! phone = None ->
  Controller.deleteConnection env phone w
    = (Ok (Controller.Status 404 "Phone number not found"), w) /\
  (forall jid messageContent content,
     buildMessageContent messageContent = Ok content ->
     Controller.postSendMessage env buildMessageContent phone jid messageContent w
     = (Ok (Controller.Status 500 "Failed to send message: Phone number not connected"),
        w)) /\
  (forall type toJid,
     Controller.patchPresence env phone type toJid w
     = (Throw BaileysNotConnectedError, w)) /\
  (forall keys,
     Controller.postReadMessages env phone keys w = (Throw BaileysNotConnectedError, w)) /\
  (forall mod_ jid,
     Controller.postChatModify env phone mod_ jid w
     = (Throw BaileysNotConnectedError, w)) /\
  (forall count key ts,
     Controller.postFetchMessageHistory env phone count key ts w
     = (Throw BaileysNotConnectedError, w)) /\
  (forall jid type,
     Controller.getProfilePictureUrl env phone jid type w
     = (Throw BaileysNotConnectedError, w)) /\
  (forall jids,
     Controller.postOnWhatsApp env phone jids w = (Throw BaileysNotConnectedError, w)).
Proof.
  intros H.
  split.
  { unfold Controller.deleteConnection, Handler.logout, Handler.getConnection,
      try_catch, bind, get. rewrite H. reflexivity. }
  split.
  { intros jid mc content Hb. unfold Controller.postSendMessage, try_catch.
    unfold bind at 1. rewrite Hb. unfold bind at 1.
    rewrite dispatch_unregistered by exact H. reflexivity. }
  split.
  { intros type toJid. unfold Controller.patchPresence, bind.
    rewrite dispatch_unregistered by exact H. reflexivity. }
  split.
  { intros keys. unfold Controller.postReadMessages, bind.
    rewrite dispatch_unregistered by exact H. reflexivity. }
  split.
  { intros mod_ jid. unfold Controller.postChatModify, bind.
    rewrite dispatch_unregistered by exact H. reflexivity. }
  split.
  { intros count key ts. unfold Controller.postFetchMessageHistory, bind.
    rewrite dispatch_unregistered by exact H. reflexivity. }
  split.
  { intros jid type. unfold Controller.getProfilePictureUrl, try_catch, bind.
    rewrite dispatch_unregistered by exact H. reflexivity. }
  intros jids. unfold Controller.postOnWhatsApp, bind.
  rewrite dispatch_unregistered by exact H. reflexivity.
Qed.

(** X20: send-message never lets an exception through.  Whatever the
    request and whatever fails -- building the content, finding the
    connection, the send itself -- the route answers: with the
    acknowledgement of the socket, or with status 500. *)
Theorem postSendMessage_always_answers (env : Env)
  (buildMessageContent : string -> Result AnyMessageContent)
  (phone jid messageContent : string) (w : World) :
  let out := Controller.postSendMessage env buildMessageContent phone jid
               messageContent w in
  (exists ack, fst out = Ok (Controller.Data (Some ack)) /\ Str.truthy ack = true) \/
  (exists text, fst out = Ok (Controller.Status 500 text)).
Proof.
  cbn zeta. unfold Controller.postSendMessage, try_catch, bind.
  destruct (buildMessageContent messageContent) as [content|e]; cbn [fst snd].
  - destruct (Handler.dispatch env phone (Handler.SendMessage jid content) w)
      as [[[ack|]|e] w']; cbn [fst snd].
    + destruct (Str.truthy ack) eqn:Hack; cbn.
      * left. exists ack. split; [reflexivity|exact Hack].
      * right. eexists. reflexivity.
    + right. eexists. reflexivity.
    + right. eexists. reflexivity.
  - right. eexists. reflexivity.
Qed.

(** X21: DELETE on a registered phone number answers 200 whatever state
    the connection is in -- also when it has no socket, where every other
    route fails -- and leaves the number unregistered, the connection
    closed and its credentials removed. *)
Theorem deleteConnection_registered (env : Env) (phone : string) (w : World) (ref : nat)
  (s : BaileysConnection) :
  connections w !! phone = Some ref ->
  objects w !! ref = Some s ->
  let out := Controller.deleteConnection env phone w in
  fst out = Ok Controller.Done /\
  connections (snd out) !! phone = None /\
  objects (snd out) !! ref = Some (closed s) /\
  (forall id, clearAuthState s = Some id -> authStore (snd out) !! id = None).
Proof.
  intros Hc Ho. cbn zeta.
  assert (Hout : exists w1,
             Controller.deleteConnection env phone w
             = (Ok Controller.Done,
                set_connections (delete phone)
                  (set_objects <[ref := closed s]> (closedWorld s w1)))).
  { unfold Controller.deleteConnection, Handler.logout, Handler.getConnection,
      try_catch, bind, get. rewrite Hc. unfold ret, Handler.call. rewrite Ho.
    rewrite logout_eq, close_spec. eexists. reflexivity. }
  destruct Hout as [w1 ->]. cbn [fst snd].
  split; [reflexivity|]. split; [apply lookup_delete_eq|].
  split; [apply lookup_insert_eq|].
  intros id Hid. cbn. apply closedWorld_authStore, Hid.
Qed.

Lemma unregistered_number_replies_witness :
  connections emptyWorld !! Sample.phone = None /\
  Controller.deleteConnection Sample.env Sample.phone emptyWorld
  = (Ok (Controller.Status 404 "Phone number not found"), emptyWorld).
Proof.
  split; [reflexivity|].
  apply (unregistered_number_replies Sample.env (fun m => Ok (Sample.text m))
           Sample.phone emptyWorld eq_refl).
Defined.

Lemma deleteConnection_registered_witness :
  connections Sample.world !! Sample.phone = Some 0 /\
  objects Sample.world !! 0 = Some Sample.connected /\
  fst (Controller.deleteConnection Sample.env Sample.phone Sample.world)
  = Ok Controller.Done.
Proof.
  assert (H1 : connections Sample.world !! Sample.phone = Some 0)
    by (vm_compute; reflexivity).
  assert (H2 : objects Sample.world !! 0 = Some Sample.connected)
    by (vm_compute; reflexivity).
  split; [exact H1|]. split; [exact H2|].
  apply (deleteConnection_registered Sample.env Sample.phone Sample.world 0
           Sample.connected H1 H2).
Defined.

(** ** Time spent waiting by a delivery *)

Section Waiting.

Variable policy : Webhook.RetryPolicy.
Variable fetch : nat -> Result Webhook.Response.
Variable random : nat -> Q.

Lemma slept_io (tr : list Webhook.Action) : slept (Webhook.io tr) = slept tr.
Proof.
  unfold Webhook.io. induction tr as [|a tr IH]; [reflexivity|].
  destruct a; cbn; rewrite ?IH; reflexivity.
Qed.

Lemma slept_schedule (a last : nat) :
  slept (Webhook.schedule policy random a last) = pauseSum policy random a (last - a).
Proof.
  unfold Webhook.schedule. cbn [slept]. generalize (last - a)%nat as n. intros n.
  revert a. induction n as [|n IH]; intros a; [reflexivity|].
  cbn [seq flat_map app slept pauseSum]. rewrite IH. reflexivity.
Qed.

Lemma pauseSum_snoc (a n : nat) :
  pauseSum policy random a (S n)
  = (pauseSum policy random a n + Webhook.pause policy random (a + n))%Z.
Proof.
  revert a. induction n as [|n IH]; intros a.
  - cbn [pauseSum]. rewrite Nat.add_0_r. lia.
  - cbn [pauseSum] in *. rewrite IH. replace (S a + n)%nat with (a + S n)%nat by lia.
    lia.
Qed.

Lemma base_nonneg (k : nat) :
  (0 <= Webhook.retryInterval policy)%Z ->
  (0 <= Webhook.backoffFactor policy)%Z ->
  (0 <= Webhook.retryInterval policy * Webhook.backoffFactor policy ^ Z.of_nat k)%Z.
Proof.
  intros interval_nonneg factor_nonneg.
  apply Z.mul_nonneg_nonneg; [exact interval_nonneg|].
  apply Z.pow_nonneg. exact factor_nonneg.
Qed.

Lemma pauseSum_bounds (n : nat) :
  (forall k, (0 <= random k)%Q /\ (random k < 1)%Q) ->
  (backoffTotal policy n <= pauseSum policy random 0 n
   <= backoffTotal policy n + 999 * Z.of_nat n)%Z.
Proof.
  intros random_range. induction n as [|n IH]; [cbn; lia|].
  rewrite pauseSum_snoc. cbn [backoffTotal Nat.add]. unfold Webhook.pause at 1 2.
  destruct (random_range n) as [H0 H1].
  pose proof (jitter_range random n H0 H1). lia.
Qed.

Lemma backoffTotal_mono (n m : nat) :
  (0 <= Webhook.retryInterval policy)%Z ->
  (0 <= Webhook.backoffFactor policy)%Z ->
  n <= m -> (0 <= backoffTotal policy n <= backoffTotal policy m)%Z.
Proof.
  intros Hi Hf Hle. induction Hle as [|m Hle IH].
  - split; [|lia]. induction n as [|n IHn]; cbn [backoffTotal]; [lia|].
    pose proof (base_nonneg n Hi Hf). lia.
  - cbn [backoffTotal]. pose proof (base_nonneg m Hi Hf). lia.
Qed.

Lemma sendToWebhook_slept :
  exists last,
    last <= Webhook.maxRetries policy /\
    slept (snd (Webhook.sendToWebhook policy fetch random))
    = pauseSum policy random 0 last /\
    (Webhook.firstOk fetch 0 (S (Webhook.maxRetries policy)) = None ->
     last = Webhook.maxRetries policy).
Proof.
  unfold Webhook.sendToWebhook.
  destruct (sendLoop_spec policy fetch random (S (S (Webhook.maxRetries policy))) 0
              (Webhook.retryInterval policy)) as (res & tr & Heq & Hio & _).
  - lia.
  - lia.
  - cbn. lia.
  - exists (Webhook.lastAttempt policy fetch 0). rewrite Heq. cbn [snd].
    split; [apply (lastAttempt_ge policy fetch random 0); lia|]. split.
    + rewrite <- slept_io, Hio, slept_schedule. rewrite Nat.sub_0_r. reflexivity.
    + unfold Webhook.lastAttempt. rewrite Nat.sub_0_r. intros ->. reflexivity.
Qed.

End Waiting.

(** X22: how long a delivery can keep its caller waiting.  With a retry
    interval and a backoff factor that are not negative, the time a
    delivery sleeps between its attempts is at most the delays the policy
    prescribes for [maxRetries] retries plus 999 ms of jitter for each; and
    when no attempt is answered with 2xx it is at least those delays. *)
Theorem sendToWebhook_wait_bounded
  (policy : Webhook.RetryPolicy) (fetch : nat -> Result Webhook.Response)
  (random : nat -> Q) :
  (0 <= Webhook.retryInterval policy)%Z ->
  (0 <= Webhook.backoffFactor policy)%Z ->
  (forall k, (0 <= random k)%Q /\ (random k < 1)%Q) ->
  let waited := slept (snd (Webhook.sendToWebhook policy fetch random)) in
  (0 <= waited
   <= backoffTotal policy (Webhook.maxRetries policy)
      + 999 * Z.of_nat (Webhook.maxRetries policy))%Z /\
  (Webhook.firstOk fetch 0 (S (Webhook.maxRetries policy)) = None ->
   (backoffTotal policy (Webhook.maxRetries policy) <= waited)%Z).
Proof.
  intros Hi Hf Hr. cbn zeta.
  destruct (sendToWebhook_slept policy fetch random) as (last & Hle & -> & Hnone).
  pose proof (pauseSum_bounds policy random last Hr) as Hb.
  pose proof (backoffTotal_mono policy last (Webhook.maxRetries policy) Hi Hf Hle) as Hm.
  split; [lia|]. intros Hn. rewrite (Hnone Hn) in *. lia.
Qed.

Lemma sendToWebhook_wait_bounded_witness :
  (0 <= Webhook.retryInterval Sample.policy)%Z /\
  (0 <= Webhook.backoffFactor Sample.policy)%Z /\
  (forall k, (0 <= Sample.half k)%Q /\ (Sample.half k < 1)%Q) /\
  (700 <= slept (snd (Webhook.sendToWebhook Sample.policy Sample.down Sample.half))
   <= 3697)%Z.
Proof.
  assert (H1 : (0 <= Webhook.retryInterval Sample.policy)%Z) by (cbn; lia).
  assert (H2 : (0 <= Webhook.backoffFactor Sample.policy)%Z) by (cbn; lia).
  assert (H3 : forall k, (0 <= Sample.half k)%Q /\ (Sample.half k < 1)%Q).
  { intros k. split; [discriminate | reflexivity]. }
  split; [exact H1|]. split; [exact H2|]. split; [exact H3|].
  destruct (sendToWebhook_wait_bounded Sample.policy Sample.down Sample.half H1 H2 H3)
    as [[_ Hu] Hl].
  split; [apply Hl; reflexivity | exact Hu].
Defined.

(** ** Round trips of the registry *)

Lemma fired_fresh (phone : string) (options : BaileysConnectionOptions)
  (s : BaileysConnection) (w : World) :
  fromOutside (opt_onConnectionClose options) ->
  onConnectionClose s = Some (DeregisterThen phone (opt_onConnectionClose options)) ->
  connections (firedWorld s w) = delete phone (connections w) /\
  callbacks (firedWorld s w)
  = (callbacks w ++ callbackCalls (opt_onConnectionClose options) 1)%list /\
  objects (firedWorld s w) = objects w /\
  authStore (firedWorld s w) = authStore w /\
  socketsMade (firedWorld s w) = socketsMade w /\
  nextObject (firedWorld s w) = nextObject w /\
  webhooks (firedWorld s w) = webhooks w.
Proof.
  intros Hout Hcb. unfold firedWorld, callbackCalls, callerCallback. rewrite Hcb.
  destruct (opt_onConnectionClose options) as [[| |tag]|]; cbn in *;
    try contradiction; rewrite ?app_nil_r; repeat split; reflexivity.
Qed.

Lemma connect_fresh_spec (env : Env) (phone : string)
  (options : BaileysConnectionOptions) (w : World) :
  connections w !! phone = None ->
  fromOutside (opt_onConnectionClose options) ->
  exists w1 s1,
    Handler.connect env phone options w = (Ok tt, w1) /\
    connections w1 = <[phone := nextObject w]> (connections w) /\
    objects w1 = <[nextObject w := s1]> (objects w) /\
    nextObject w1 = S (nextObject w) /\
    socketsMade w1 = S (socketsMade w) /\
    authStore w1 = authStore w /\
    webhooks w1 = webhooks w /\
    phoneNumber s1 = phone /\
    clearAuthState s1 = Some phone /\
    onConnectionClose s1 = Some (DeregisterThen phone (opt_onConnectionClose options)) /\
    match makeWASocket env (socketsMade w) with
    | Resolved sock =>
        socket s1 = Some sock /\ callbacks w1 = callbacks w
    | Rejected _ =>
        socket s1 = None /\
        callbacks w1
        = (callbacks w ++ callbackCalls (opt_onConnectionClose options) 1)%list
    end.
Proof.
  intros Hc Hout. unfold Handler.connect, bind.
  rewrite connect_begin_fresh by exact Hc. cbn [fst snd].
  erewrite connect_resume_spec by (cbn; apply lookup_insert_eq).
  rewrite connect_spec by reflexivity.
  cbn [socketsMade set_nextObject set_objects].
  destruct (makeWASocket env (socketsMade w)) as [sock|m]; cbn [fst snd].
  - eexists _, _. split; [reflexivity|]. cbn.
    split; [reflexivity|]. split; [apply insert_insert_eq|].
    repeat split; reflexivity.
  - match goal with
    | |- context [firedWorld ?s ?w0] =>
        destruct (fired_fresh phone options s w0 Hout eq_refl)
          as (F1 & F2 & F3 & F4 & F5 & F6 & F7)
    end.
    eexists _, _. split; [reflexivity|].
    cbn [connections objects nextObject socketsMade authStore webhooks callbacks
         set_connections set_objects].
    rewrite F1, F2, F3, F4, F5, F6, F7. cbn.
    split.
    { rewrite insert_delete_eq. reflexivity. }
    split; [apply insert_insert_eq|].
    repeat split; reflexivity.
Qed.

(** X23: [connect] followed by [logout] gives the registry back.  For a
    phone number that is not registered, whether or not the socket can be
    made (the credential store, which is outside the embedded sources, is
    taken to load): [connect] resolves, [logout] resolves, and afterwards the registry
    is what it was before (the number is not registered), the connection
    made in between is closed and its credentials are gone.  The caller's
    [onConnectionClose] has run once -- twice when the socket could not be
    made, once at the failed [connect] and once more at [logout]. *)
Theorem connect_logout_roundtrip (env : Env) (phone : string)
  (options : BaileysConnectionOptions) (w : World) :
  connections w !! phone = None ->
  fromOutside (opt_onConnectionClose options) ->
  let out1 := Handler.connect env phone options w in
  let out2 := Handler.logout env phone (snd out1) in
  fst out1 = Ok tt /\ fst out2 = Ok tt /\
  connections (snd out2) = connections w /\
  authStore (snd out2) !! phone = None /\
  (exists s, objects (snd out2) !! nextObject w = Some s /\
             phoneNumber s = phone /\ socket s = None /\ clearAuthState s = None) /\
  callbacks (snd out2)
  = (callbacks w ++
     callbackCalls (opt_onConnectionClose options)
       (match makeWASocket env (socketsMade w) with
        | Resolved _ => 1
        | Rejected _ => 2
        end))%list.
Proof.
  intros Hc Hout. cbn zeta.
  destruct (connect_fresh_spec env phone options w Hc Hout)
    as (w1 & s1 & -> & C1 & C2 & C3 & C4 & C5 & C6 & C7 & C8 & C9 & C10).
  cbn [fst snd].
  assert (Hl : exists w2,
             Handler.logout env phone w1
             = (Ok tt, set_connections (delete phone)
                         (set_objects <[nextObject w := closed s1]> (closedWorld s1 w2))) /\
             connections w2 = connections w1 /\ authStore w2 = authStore w1 /\
             callbacks w2 = callbacks w1).
  { assert (H1 : connections w1 !! phone = Some (nextObject w))
      by (rewrite C1; apply lookup_insert_eq).
    assert (H2 : objects w1 !! nextObject w = Some s1)
      by (rewrite C2; apply lookup_insert_eq).
    unfold Handler.logout, Handler.getConnection, bind, get.
    rewrite H1. unfold ret, Handler.call.
    rewrite H2. rewrite logout_eq, close_spec.
    eexists. split; [reflexivity|].
    destruct (socket s1); [destruct (transport env _ _)|]; repeat split; reflexivity. }
  destruct Hl as (w2 & -> & L1 & L2 & L3). cbn [fst snd].
  unfold closedWorld.
  destruct (fired_fresh phone options s1 (clearedWorld s1 w2) Hout C9)
    as (F1 & F2 & F3 & F4 & _).
  unfold clearedWorld in *. rewrite C8 in *. cbn in F1, F2, F4 |- *.
  split; [reflexivity|]. split; [reflexivity|]. split.
  { rewrite F1, L1, C1. rewrite delete_delete_eq, delete_insert_eq.
    apply delete_id, Hc. }
  split; [rewrite F4; apply lookup_delete_eq|]. split.
  { exists (closed s1). split; [apply lookup_insert_eq|]. repeat split. exact C7. }
  rewrite F2, L3.
  destruct (makeWASocket env (socketsMade w)); destruct C10 as [_ ->];
    [reflexivity|].
  rewrite <- app_assoc. f_equal. unfold callbackCalls.
  destruct (callerCallback (opt_onConnectionClose options)); reflexivity.
Qed.

Lemma connect_logout_roundtrip_witness :
  let out1 := Handler.connect Sample.env Sample.phone Sample.options emptyWorld in
  let out2 := Handler.logout Sample.env Sample.phone (snd out1) in
  connections emptyWorld !! Sample.phone = None /\
  fromOutside (opt_onConnectionClose Sample.options) /\
  connections (snd out2) = connections emptyWorld.
Proof.
  cbn zeta. split; [reflexivity|]. split; [exact I|].
  apply (connect_logout_roundtrip Sample.env Sample.phone Sample.options emptyWorld
           eq_refl I).
Defined.
